(** * The remote build driver of the icecream client (client/remote.cpp)

    A shallow embedding of the driver: the std::string operations it uses,
    the path canonicaliser, the environment catalog, the file hasher, the
    message channels, the artifact receiver, the single-job executor and
    the replication driver, followed by the properties proved about them. *)

From Stdlib Require Import ZArith Ascii String Strings.Byte List Lia Bool DecimalString.
From stdpp Require Import gmap strings list fin_maps.



(** ** std::string

    Positions are [nat]; [string::npos] is [None]. *)

Abbreviation npos := (@None nat).

Fixpoint starts_with (pat s : string) : bool :=
  match pat, s with
  | EmptyString, _ => true
  | String a pat', String b s' => Ascii.eqb a b && starts_with pat' s'
  | String _ _, EmptyString => false
  end.

Fixpoint drop_str (n : nat) (s : string) : string :=
  match n, s with
  | S n', String _ s' => drop_str n' s'
  | _, _ => s
  end.

Fixpoint take_str (n : nat) (s : string) : string :=
  match n, s with
  | S n', String c s' => String c (take_str n' s')
  | _, _ => EmptyString
  end.

(** [s.find(pat)]: the position of the first occurrence of [pat]. *)
Fixpoint find (pat s : string) : option nat :=
  if starts_with pat s then Some 0
  else match s with
       | EmptyString => npos
       | String _ s' => option_map S (find pat s')
       end.

(** [s.replace(idx, n, r)], for [idx <= s.size()] (every call site passes a
    position that [find] returned). *)
Fixpoint replace (idx n : nat) (r s : string) : string :=
  match idx with
  | 0 => r +:+ drop_str n s
  | S i =>
      match s with
      | String c s' => String c (replace i n r s')
      | EmptyString => r
      end
  end.

(** ** get_absfilename *)

(** [idx = file.find(pat); while (idx != npos) { file.replace(idx, n, "/");
    idx = file.find(pat); }].  Every round shortens [file], so its length
    bounds the number of rounds. *)
Fixpoint rewrite_while (fuel : nat) (pat : string) (n : nat) (file : string) : string :=
  match fuel with
  | 0 => file
  | S fuel' =>
      match find pat file with
      | None => file
      | Some idx => rewrite_while fuel' pat n (replace idx n "/" file)
      end
  end.

(** [cwd] is what [getcwd] left in the buffer. *)
Definition get_absfilename (cwd _file : string) : string :=
  match _file with
  | EmptyString => _file
  | String c0 _ =>
      let file := if Ascii.eqb c0 "/" then _file else cwd +:+ "/" +:+ _file in
      let file := rewrite_while (String.length file) "/.." 3 file in
      let file := rewrite_while (String.length file) "/./" 3 file in
      let file := rewrite_while (String.length file) "//" 2 file in
      file
  end.

Example get_absfilename_ex1 :
  get_absfilename "/home/u" "a/../b/./c//d" = "/home/u/a/b/c/d".
Proof. reflexivity. Qed.

Example get_absfilename_ex2 :
  get_absfilename "/home/u" "/x/.//y/...z/./" = "/x/y/.z/".
Proof. reflexivity. Qed.

(** [job.outputFile().substr(0, job.outputFile().find_last_of('.')) + ".dwo"]:
    the name of the debug-info sidecar of an object file. *)
Fixpoint find_last_of (c : ascii) (s : string) : option nat :=
  match s with
  | EmptyString => npos
  | String b s' =>
      match find_last_of c s' with
      | Some i => Some (S i)
      | None => if Ascii.eqb b c then Some 0 else npos
      end
  end.

(** [s.substr(pos, count)] for [pos <= s.size()]; a count of [npos] reaches
    the end of the string. *)
Definition substr (pos : nat) (count : option nat) (s : string) : string :=
  match count with
  | Some n => take_str n (drop_str pos s)
  | None => drop_str pos s
  end.

Definition dwo_name (output_file : string) : string :=
  substr 0 (find_last_of "." output_file) output_file +:+ ".dwo".

Definition nl : string := String (ascii_of_nat 10) EmptyString.
Definition tab : string := String (ascii_of_nat 9) EmptyString.

(** [%d] and [operator<<] on integers. *)
Definition dec (z : Z) : string := NilZero.string_of_int (Z.to_int z).

(** An absolute path starts with a slash. *)
Definition absolute (s : string) : Prop := starts_with "/" s = true.

(** ** Files *)

Inductive file_kind := S_IFREG | S_IFDIR | S_IFLNK | S_IFOTHER.

(** A directory entry: [i_kind] is the type [lstat] reports, [i_readable]
    whether [access(R_OK)], [open(O_RDONLY)] and [fopen("rb")] succeed,
    [i_data] the bytes a reader gets. *)
Record inode := mk_inode {
  i_kind : file_kind;
  i_readable : bool;
  i_data : list byte
}.

Definition st_size (f : inode) : Z := Z.of_nat (length (i_data f)).

Definition S_ISREG (f : inode) : bool :=
  match i_kind f with S_IFREG => true | _ => false end.

Definition regular_file (data : list byte) : inode := mk_inode S_IFREG true data.

(** [fopen(file, "rb")] and [open(file, O_RDONLY)]: the bytes of the stream,
    [None] for failure. *)
Definition fopen (fs : gmap string inode) (file : string) : option (list byte) :=
  match fs !! file with
  | Some f => if i_readable f then Some (i_data f) else None
  | None => None
  end.

Inductive open_flag := O_CREAT | O_TRUNC | O_WRONLY | O_RDONLY | O_LARGEFILE.

(** ** Compile jobs and messages (client.h, comm.h) *)

Inductive Argument_Type := Arg_Unspecified | Arg_Local | Arg_Remote | Arg_Rest.

Record CompileJob := mk_job {
  inputFile : string;
  outputFile : string;
  targetPlatform : string;
  language : string;
  job_flags : list (string * Argument_Type);
  argumentFlags : Z;
  streaming : bool;
  dwarfFissionEnabled : bool;
  jobID : Z;
  environmentVersion : string
}.

Definition flags_of (t : Argument_Type) (job : CompileJob) : list string :=
  omap (fun '(f, t') =>
          match t, t' with
          | Arg_Remote, Arg_Remote | Arg_Rest, Arg_Rest | Arg_Local, Arg_Local
          | Arg_Unspecified, Arg_Unspecified => Some f
          | _, _ => None
          end) (job_flags job).

Definition remoteFlags := flags_of Arg_Remote.
Definition restFlags := flags_of Arg_Rest.

Definition setJobID (id : Z) (job : CompileJob) : CompileJob :=
  mk_job (inputFile job) (outputFile job) (targetPlatform job) (language job)
         (job_flags job) (argumentFlags job) (streaming job)
         (dwarfFissionEnabled job) id (environmentVersion job).

Definition setEnvironmentVersion (v : string) (job : CompileJob) : CompileJob :=
  mk_job (inputFile job) (outputFile job) (targetPlatform job) (language job)
         (job_flags job) (argumentFlags job) (streaming job)
         (dwarfFissionEnabled job) (jobID job) v.

Definition setOutputFile (o : string) (job : CompileJob) : CompileJob :=
  mk_job (inputFile job) o (targetPlatform job) (language job)
         (job_flags job) (argumentFlags job) (streaming job)
         (dwarfFissionEnabled job) (jobID job) (environmentVersion job).

Definition appendFlag (f : string) (t : Argument_Type) (job : CompileJob) : CompileJob :=
  mk_job (inputFile job) (outputFile job) (targetPlatform job) (language job)
         (job_flags job ++ [(f, t)]) (argumentFlags job) (streaming job)
         (dwarfFissionEnabled job) (jobID job) (environmentVersion job).

(** A list of (platform, version) pairs. *)
Definition Environments := list (string * string).

Record UseCSMsg := mk_usecs {
  hostname : string;
  port : Z;
  job_id : Z;
  host_platform : string;
  got_env : bool;
  matched_job_id : Z
}.

Inductive JobDoneFrom := FROM_SERVER | FROM_SUBMITTER.

Record JobDoneMsg := mk_jobdone {
  jd_job_id : Z;
  jd_exitcode : Z;
  jd_flags : JobDoneFrom;
  real_msec : Z;
  user_msec : Z;
  sys_msec : Z;
  pfaults : Z;
  out_uncompressed : Z
}.

Record CompileResultMsg := mk_result {
  cr_status : Z;
  cr_out : string;
  cr_err : string;
  was_out_of_memory : bool;
  have_dwo_file : bool
}.

Record GetCSMsg := mk_getcs {
  gc_envs : Environments;
  gc_filename : string;
  gc_lang : string;
  gc_count : Z;
  gc_target : string;
  gc_arg_flags : Z;
  gc_preferred_host : string;
  gc_minimal_host_version : Z
}.

Inductive Msg :=
  | M_GET_CS (m : GetCSMsg)
  | M_USE_CS (m : UseCSMsg)
  | M_COMPILE_FILE (job : CompileJob)
  | M_FILE_CHUNK (buffer : list byte)
  | M_END
  | M_TRANSFER_ENV (platform version : string)
  | M_VERIFY_ENV (platform version : string)
  | M_VERIFY_ENV_RESULT (ok : bool)
  | M_BLACKLIST_HOST_ENV (platform version host : string)
  | M_COMPILE_RESULT (m : CompileResultMsg)
  | M_JOB_DONE (m : JobDoneMsg)
  | M_STATUS_TEXT (text : string)
  | M_OTHER (tag : Z).

(** The driver holds two channels: the one to the local daemon and the one
    to the compile server it was assigned. *)
Inductive chan_id := local_daemon | cserver.

Record MsgChannel := mk_chan {
  chan_name : string;
  chan_protocol : Z;
  (** what the successive [get_msg] calls return; a call past the end of
      the list returns null *)
  chan_inbox : list (option Msg)
}.

(** Modelled from the spec: [IS_PROTOCOL_31] is a macro of comm.h, which is
    not among the sources; the spec reads it as "the remote speaks protocol
    >= 31". *)
Definition IS_PROTOCOL_31 (c : MsgChannel) : bool := (31 <=? chan_protocol c)%Z.

(** ** Exceptions and process ends *)

Inductive exn :=
  | client_error (code : Z) (what : string)
  | remote_error (code : Z) (what : string)
  | thrown_int (n : Z)
  | std_out_of_range.

Inductive halt :=
  | exited (code : Z)      (* exit(code) *)
  | aborted                (* a failed assert *)
  | killed (sig : Z)       (* kill(getpid(), sig) *)
  | out_of_fuel.           (* never reached, see the fuel lemmas *)

Inductive wstatus := WEXITED (code : Z) | WSIGNALED (sig : Z) | WOTHER.

(** Modelled from the spec: [shell_exit_status] is defined in
    services/util.h, which is not among the sources: the exit code of a
    child that exited, 128 + signal for one that was killed, -1 otherwise. *)
Definition shell_exit_status (st : wstatus) : Z :=
  match st with
  | WEXITED c => c
  | WSIGNALED s => (s + 128)%Z
  | WOTHER => (-1)%Z
  end.

Definition WIFSIGNALED (st : wstatus) : bool :=
  match st with WSIGNALED _ => true | _ => false end.

(** ** The outside world *)

Inductive log_level := Error | Warning | Info.

Inductive Event :=
  | EvLog (lvl : log_level) (text : string)
  | EvConnect (host : string) (port timeout : Z) (ok : bool)
  | EvSend (c : chan_id) (m : Msg) (ok : bool)
  | EvRecv (c : chan_id) (timeout : Z) (m : option Msg)
  | EvDelete (c : chan_id)
  | EvOpen (path : string) (flags : list open_flag) (mode : Z) (ok : bool)
  | EvRename (old new : string) (ok : bool)
  | EvUnlink (path : string)
  | EvCallCpp (job : CompileJob) (pid : Z)
  | EvKill (pid sig : Z)
  | EvBuildLocal (job : CompileJob) (ret : Z)
  | EvFork (pid : Z).

(** What a fallible system call does next. *)
Inductive fault :=
  | Fok                    (* succeeds *)
  | Ffail                  (* fails *)
  | Fshort (n : nat)       (* read/write: transfers at most [S n] bytes *)
  | Feintr | Feagain.      (* read: fails with EINTR / EAGAIN *)

Record rusage := mk_rusage {
  ru_utime_sec : Z; ru_utime_usec : Z;
  ru_stime_sec : Z; ru_stime_usec : Z;
  ru_majflt : Z; ru_minflt : Z; ru_nswap : Z
}.

(** What one run of [build_local] does: its exit code, the resource usage
    it reports, the elapsed wall-clock time and the files it leaves. *)
Record local_run := mk_local_run {
  lr_ret : Z;
  lr_ru : rusage;
  lr_begin_sec : Z; lr_begin_usec : Z;
  lr_end_sec : Z; lr_end_usec : Z;
  lr_fs : gmap string inode -> gmap string inode
}.

(** What one run of the preprocessor does: the pid [call_cpp] returns (-1
    when the fork fails), the bytes it writes and its wait status. *)
Record cpp_run := mk_cpp_run {
  cpp_pid : Z;
  cpp_output : list byte;
  cpp_status : wstatus
}.

Inductive wait_result :=
  | wait_failed
  | waited (pid : Z) (st : wstatus) (written : gmap string inode).

(** The collaborators and settings that stay fixed during one call. *)
Record Config := mk_config {
  getenv : string -> option string;
  getcwd : string;
  getpid : Z;
  ignore_unverified : bool;
  MIN_PROTOCOL_VERSION : Z;
  (** the [#if defined(__GNUC__) ...] around the replication draw *)
  gnuc_at_least_3_3 : bool;
  compiler_is_clang : CompileJob -> bool;
  output_needs_workaround : CompileJob -> bool;
  colorify_wanted : CompileJob -> bool;
  colorify : string -> list byte;
  call_cpp : CompileJob -> cpp_run;
  build_local : CompileJob -> local_run
}.

Record World := mk_world {
  w_fs : gmap string inode;
  w_daemon : MsgChannel;
  w_server : MsgChannel;
  w_stdin : list byte;
  w_stdout : list byte;
  w_stderr : list byte;
  w_faults : list fault;
  w_rand : list Z;
  w_tmpnames : list string;
  w_forks : list Z;
  w_waits : list wait_result;
  w_trace : list Event;
  (** the global [remote_daemon] *)
  w_remote_daemon : string
}.

Definition set_fs (f : gmap string inode -> gmap string inode) (W : World) : World :=
  mk_world (f (w_fs W)) (w_daemon W) (w_server W) (w_stdin W) (w_stdout W)
           (w_stderr W) (w_faults W) (w_rand W) (w_tmpnames W) (w_forks W)
           (w_waits W) (w_trace W) (w_remote_daemon W).

Definition set_chan (c : chan_id) (ch : MsgChannel) (W : World) : World :=
  match c with
  | local_daemon =>
      mk_world (w_fs W) ch (w_server W) (w_stdin W) (w_stdout W)
               (w_stderr W) (w_faults W) (w_rand W) (w_tmpnames W) (w_forks W)
               (w_waits W) (w_trace W) (w_remote_daemon W)
  | cserver =>
      mk_world (w_fs W) (w_daemon W) ch (w_stdin W) (w_stdout W)
               (w_stderr W) (w_faults W) (w_rand W) (w_tmpnames W) (w_forks W)
               (w_waits W) (w_trace W) (w_remote_daemon W)
  end.

Definition get_chan (c : chan_id) (W : World) : MsgChannel :=
  match c with local_daemon => w_daemon W | cserver => w_server W end.

Definition set_stdin (d : list byte) (W : World) : World :=
  mk_world (w_fs W) (w_daemon W) (w_server W) d (w_stdout W)
           (w_stderr W) (w_faults W) (w_rand W) (w_tmpnames W) (w_forks W)
           (w_waits W) (w_trace W) (w_remote_daemon W).

Definition add_stdout (d : list byte) (W : World) : World :=
  mk_world (w_fs W) (w_daemon W) (w_server W) (w_stdin W) (w_stdout W ++ d)
           (w_stderr W) (w_faults W) (w_rand W) (w_tmpnames W) (w_forks W)
           (w_waits W) (w_trace W) (w_remote_daemon W).

Definition add_stderr (d : list byte) (W : World) : World :=
  mk_world (w_fs W) (w_daemon W) (w_server W) (w_stdin W) (w_stdout W)
           (w_stderr W ++ d) (w_faults W) (w_rand W) (w_tmpnames W) (w_forks W)
           (w_waits W) (w_trace W) (w_remote_daemon W).

Definition set_faults (l : list fault) (W : World) : World :=
  mk_world (w_fs W) (w_daemon W) (w_server W) (w_stdin W) (w_stdout W)
           (w_stderr W) l (w_rand W) (w_tmpnames W) (w_forks W)
           (w_waits W) (w_trace W) (w_remote_daemon W).

Definition set_rand (l : list Z) (W : World) : World :=
  mk_world (w_fs W) (w_daemon W) (w_server W) (w_stdin W) (w_stdout W)
           (w_stderr W) (w_faults W) l (w_tmpnames W) (w_forks W)
           (w_waits W) (w_trace W) (w_remote_daemon W).

Definition set_tmpnames (l : list string) (W : World) : World :=
  mk_world (w_fs W) (w_daemon W) (w_server W) (w_stdin W) (w_stdout W)
           (w_stderr W) (w_faults W) (w_rand W) l (w_forks W)
           (w_waits W) (w_trace W) (w_remote_daemon W).

Definition set_forks (l : list Z) (W : World) : World :=
  mk_world (w_fs W) (w_daemon W) (w_server W) (w_stdin W) (w_stdout W)
           (w_stderr W) (w_faults W) (w_rand W) (w_tmpnames W) l
           (w_waits W) (w_trace W) (w_remote_daemon W).

Definition set_waits (l : list wait_result) (W : World) : World :=
  mk_world (w_fs W) (w_daemon W) (w_server W) (w_stdin W) (w_stdout W)
           (w_stderr W) (w_faults W) (w_rand W) (w_tmpnames W) (w_forks W)
           l (w_trace W) (w_remote_daemon W).

Definition emit (e : Event) (W : World) : World :=
  mk_world (w_fs W) (w_daemon W) (w_server W) (w_stdin W) (w_stdout W)
           (w_stderr W) (w_faults W) (w_rand W) (w_tmpnames W) (w_forks W)
           (w_waits W) (w_trace W ++ [e]) (w_remote_daemon W).

Definition set_remote_daemon (h : string) (W : World) : World :=
  mk_world (w_fs W) (w_daemon W) (w_server W) (w_stdin W) (w_stdout W)
           (w_stderr W) (w_faults W) (w_rand W) (w_tmpnames W) (w_forks W)
           (w_waits W) (w_trace W) h.

(** ** The monad of the driver: state, exceptions, process ends *)

Inductive Outcome (A : Type) :=
  | Ret (a : A)
  | Throw (e : exn)
  | Halt (h : halt).
Arguments Ret {A} a.
Arguments Throw {A} e.
Arguments Halt {A} h.

Definition M (A : Type) : Type := World -> Outcome A * World.

Definition ret {A} (a : A) : M A := fun W => (Ret a, W).

Definition bind {A B} (m : M A) (k : A -> M B) : M B :=
  fun W =>
    match m W with
    | (Ret a, W') => k a W'
    | (Throw e, W') => (Throw e, W')
    | (Halt h, W') => (Halt h, W')
    end.

#[global] Instance M_ret : MRet M := @ret.
#[global] Instance M_bind : MBind M := fun A B k m => bind m k.

Definition throw {A} (e : exn) : M A := fun W => (Throw e, W).
Definition stop {A} (h : halt) : M A := fun W => (Halt h, W).

(** [try { body } catch (...) { handler }] *)
Definition try_catch {A} (body : M A) (handler : exn -> M A) : M A :=
  fun W =>
    match body W with
    | (Throw e, W') => handler e W'
    | r => r
    end.

Definition gets {A} (f : World -> A) : M A := fun W => (Ret (f W), W).
Definition modify (f : World -> World) : M unit := fun W => (Ret tt, f W).

Definition when (b : bool) (m : M unit) : M unit := if b then m else ret tt.

(** ** System calls and channel operations *)

Definition log (lvl : log_level) (text : string) : M unit :=
  modify (emit (EvLog lvl text)).
Definition log_error := log Error.
Definition log_warning := log Warning.
Definition log_info := log Info.
Definition log_perror (text : string) : M unit := log Error text.

(** The next entry of the fault plan; a plan that ran out means success. *)
Definition pop_fault : M fault :=
  fun W =>
    match w_faults W with
    | [] => (Ret Fok, W)
    | f :: l => (Ret f, set_faults l W)
    end.

Definition is_ok (f : fault) : bool :=
  match f with Fok => true | _ => false end.

(** [c->send_msg(m)] *)
Definition send_msg (c : chan_id) (m : Msg) : M bool :=
  f ← pop_fault;
  modify (emit (EvSend c m (is_ok f)));;
  mret (is_ok f).

(** [c->get_msg(timeout)]; [None] is the null pointer. *)
Definition get_msg (c : chan_id) (timeout : Z) : M (option Msg) :=
  fun W =>
    let ch := get_chan c W in
    match chan_inbox ch with
    | [] => (Ret None, emit (EvRecv c timeout None) W)
    | r :: rest =>
        (Ret r, emit (EvRecv c timeout r)
                  (set_chan c (mk_chan (chan_name ch) (chan_protocol ch) rest) W))
    end.

(** [Service::createChannel(hostname, port, timeout)]; [false] is the null
    pointer. *)
Definition createChannel (host : string) (port timeout : Z) : M bool :=
  f ← pop_fault;
  modify (emit (EvConnect host port timeout (is_ok f)));;
  mret (is_ok f).

Definition delete_channel (c : chan_id) : M unit := modify (emit (EvDelete c)).

(** [access(path, R_OK)]: 0 on success. *)
Definition access_R_OK (path : string) : M Z :=
  gets (fun W => match w_fs W !! path with
                 | Some f => if i_readable f then 0 else -1
                 | None => -1
                 end)%Z.

(** [lstat] and [stat]; the model has no symbolic-link resolution, a link
    is an entry of kind [S_IFLNK]. *)
Definition lstat (path : string) : M (option inode) :=
  gets (fun W => w_fs W !! path).
Definition stat (path : string) : M (option inode) :=
  gets (fun W => w_fs W !! path).

(** [open(path, O_RDONLY)]: the bytes behind the descriptor, [None] for -1. *)
Definition open_rdonly (path : string) : M (option (list byte)) :=
  gets (fun W => fopen (w_fs W) path).

Definition unlink (path : string) : M unit :=
  modify (fun W => emit (EvUnlink path) (set_fs (delete path) W)).

(** [rename(old, new)]: 0 on success; on failure nothing changes. *)
Definition rename (old new : string) : M Z :=
  f ← pop_fault;
  i ← gets (fun W => w_fs W !! old);
  match i with
  | Some i =>
      if is_ok f
      then modify (fun W => emit (EvRename old new true)
                              (set_fs (fun fs => <[new := i]> (delete old fs)) W));;
           mret 0%Z
      else modify (emit (EvRename old new false));; mret (-1)%Z
  | None => modify (emit (EvRename old new false));; mret (-1)%Z
  end.

Inductive fd := STDOUT_FILENO | fd_of (path : string).

Definition mode_0666 : Z := 6 * 64 + 6 * 8 + 6.

(** [open(path, O_CREAT | O_TRUNC | O_WRONLY | O_LARGEFILE, 0666)] *)
Definition open_create (path : string) : M (option fd) :=
  f ← pop_fault;
  modify (emit (EvOpen path [O_CREAT; O_TRUNC; O_WRONLY; O_LARGEFILE] mode_0666 (is_ok f)));;
  if is_ok f
  then modify (set_fs (insert path (regular_file [])));; mret (Some (fd_of path))
  else mret None.

Definition append_data (d : list byte) (f : inode) : inode :=
  mk_inode (i_kind f) (i_readable f) (i_data f ++ d).

Definition write_bytes (d : fd) (data : list byte) : M unit :=
  match d with
  | STDOUT_FILENO => modify (add_stdout data)
  | fd_of path => modify (set_fs (alter (append_data data) path))
  end.

(** [write(fd, buffer, len)]: the number of bytes written, or -1. *)
Definition write (d : fd) (data : list byte) : M Z :=
  f ← pop_fault;
  match f with
  | Fok => write_bytes d data;; mret (Z.of_nat (length data))
  | Fshort n =>
      write_bytes d (take (S n) data);;
      mret (Z.of_nat (length (take (S n) data)))
  | _ => mret (-1)%Z
  end.

Definition close (d : fd) : M Z :=
  f ← pop_fault; mret (if is_ok f then 0 else -1)%Z.

(** ** The environment catalog *)

Fixpoint find_char_from (p : ascii -> bool) (s : string) (i pos : nat) : option nat :=
  match s with
  | EmptyString => npos
  | String b s' =>
      if Nat.leb pos i && p b then Some i else find_char_from p s' (S i) pos
  end.

(** [s.find_first_of(c, pos)] and [s.find_first_not_of(c, pos)]; from
    [npos] on nothing is found. *)
Definition find_first_of (c : ascii) (pos : option nat) (s : string) : option nat :=
  match pos with
  | Some p => find_char_from (Ascii.eqb c) s 0 p
  | None => npos
  end.

Definition find_first_not_of (c : ascii) (pos : option nat) (s : string) : option nat :=
  match pos with
  | Some p => find_char_from (fun b => negb (Ascii.eqb c b)) s 0 p
  | None => npos
  end.

(** ** The file hasher *)

(** Modelled from the spec: [md5_init], [md5_append] and [md5_finish] are
    declared in md5.h, which is not among the sources; the spec names the
    digest a 128-bit MD5, so this is RFC 1321 on bytes taken as numbers. *)
Module MD5.

Local Open Scope Z_scope.

Definition w32 (x : Z) : Z := x mod 4294967296.

Definition rotl (x s : Z) : Z :=
  w32 (Z.lor (Z.shiftl x s) (Z.shiftr (w32 x) (32 - s))).

Definition K : list Z := [
    3614090360; 3905402710; 606105819; 3250441966;
    4118548399; 1200080426; 2821735955; 4249261313;
    1770035416; 2336552879; 4294925233; 2304563134;
    1804603682; 4254626195; 2792965006; 1236535329;
    4129170786; 3225465664; 643717713; 3921069994;
    3593408605; 38016083; 3634488961; 3889429448;
    568446438; 3275163606; 4107603335; 1163531501;
    2850285829; 4243563512; 1735328473; 2368359562;
    4294588738; 2272392833; 1839030562; 4259657740;
    2763975236; 1272893353; 4139469664; 3200236656;
    681279174; 3936430074; 3572445317; 76029189;
    3654602809; 3873151461; 530742520; 3299628645;
    4096336452; 1126891415; 2878612391; 4237533241;
    1700485571; 2399980690; 4293915773; 2240044497;
    1873313359; 4264355552; 2734768916; 1309151649;
    4149444226; 3174756917; 718787259; 3951481745 ].

Definition S : list Z := [
    7; 12; 17; 22; 7; 12; 17; 22; 7; 12; 17; 22; 7; 12; 17; 22;
    5; 9; 14; 20; 5; 9; 14; 20; 5; 9; 14; 20; 5; 9; 14; 20;
    4; 11; 16; 23; 4; 11; 16; 23; 4; 11; 16; 23; 4; 11; 16; 23;
    6; 10; 15; 21; 6; 10; 15; 21; 6; 10; 15; 21; 6; 10; 15; 21 ].

(** The message with its padding: a 1 bit, zeros up to 56 modulo 64 bytes,
    the bit length as 8 little-endian bytes. *)
Definition le_bytes (n : nat) (x : Z) : list Z :=
  map (fun i => Z.shiftr x (8 * Z.of_nat i) mod 256) (seq 0 n).

Definition pad (msg : list Z) : list Z :=
  let len := Z.of_nat (length msg) in
  let zeros := Z.to_nat ((55 - len) mod 64) in
  msg ++ [128] ++ repeat 0 zeros ++ le_bytes 8 (8 * len).

Fixpoint words (fuel : nat) (bs : list Z) : list Z :=
  match fuel, bs with
  | Datatypes.S fuel', b0 :: b1 :: b2 :: b3 :: rest =>
      (b0 + 256 * b1 + 65536 * b2 + 16777216 * b3) :: words fuel' rest
  | _, _ => []
  end.

Definition step (m : list Z) (st : Z * Z * Z * Z) (i : nat) : Z * Z * Z * Z :=
  let '(a, b, c, d) := st in
  let not32 x := Z.lxor x 4294967295 in
  let '(f, g) :=
    if (i <? 16)%nat then (Z.lor (Z.land b c) (Z.land (not32 b) d), i)
    else if (i <? 32)%nat then (Z.lor (Z.land d b) (Z.land (not32 d) c), (5 * i + 1) mod 16)%nat
    else if (i <? 48)%nat then (Z.lxor (Z.lxor b c) d, (3 * i + 5) mod 16)%nat
    else (Z.lxor c (Z.lor b (not32 d)), (7 * i) mod 16)%nat in
  let f' := w32 (f + a + nth i K 0 + nth g m 0) in
  (d, w32 (b + rotl f' (nth i S 0)), b, c).

Definition block (st : Z * Z * Z * Z) (m : list Z) : Z * Z * Z * Z :=
  let '(a0, b0, c0, d0) := st in
  let '(a, b, c, d) := fold_left (step m) (seq 0 64) st in
  (w32 (a0 + a), w32 (b0 + b), w32 (c0 + c), w32 (d0 + d)).

Fixpoint blocks (fuel : nat) (st : Z * Z * Z * Z) (ws : list Z) : Z * Z * Z * Z :=
  match fuel, ws with
  | Datatypes.S fuel', _ :: _ => blocks fuel' (block st (firstn 16 ws)) (skipn 16 ws)
  | _, _ => st
  end.

Definition digest (msg : list byte) : list Z :=
  let bs := pad (map (fun b => Z.of_N (Byte.to_N b)) msg) in
  let ws := words (length bs) bs in
  let '(a, b, c, d) :=
    blocks (length ws) (1732584193, 4023233417, 2562383102, 271733878) ws in
  le_bytes 4 a ++ le_bytes 4 b ++ le_bytes 4 c ++ le_bytes 4 d.

End MD5.

(** The state of a running digest is the bytes appended so far. *)
Definition md5_state_t := list byte.
Definition md5_init : md5_state_t := [].
Definition md5_append (st : md5_state_t) (data : list byte) : md5_state_t := st ++ data.
Definition md5_finish (st : md5_state_t) : list Z := MD5.digest st.

Definition hex_digit (n : Z) : ascii :=
  nth (Z.to_nat n)
      ["0"; "1"; "2"; "3"; "4"; "5"; "6"; "7"; "8"; "9"; "a"; "b"; "c"; "d"; "e"; "f"]%char
      "0"%char.

(** [sprintf(buf, "%02x", b)] for an unsigned char. *)
Definition hex02 (b : Z) : string :=
  String (hex_digit ((b / 16) mod 16)) (String (hex_digit (b mod 16)) EmptyString).

(** [fread(buffer, 1, 40000, f)] *)
Fixpoint fread (n : Z) (data : list byte) : list byte * list byte :=
  match data with
  | [] => ([], [])
  | b :: rest =>
      if (n <=? 0)%Z then ([], data)
      else let (chunk, rest') := fread (n - 1) rest in (b :: chunk, rest')
  end.

(** The read loop of [md5_for_file]: it ends at the first empty read, and
    every other round consumes at least one byte. *)
Fixpoint md5_read_loop (fuel : nat) (state : md5_state_t) (f : list byte) : md5_state_t :=
  match fuel with
  | 0 => state
  | S fuel' =>
      let (buffer, f') := fread 40000 f in
      match buffer with
      | [] => state
      | _ => md5_read_loop fuel' (md5_append state buffer) f'
      end
  end.

(** [md5_for_file(file)] on the file system [fs]: the empty string when
    [fopen] fails, else 32 hexadecimal digits. *)
Definition md5_for_file (fs : gmap string inode) (file : string) : string :=
  match fopen fs file with
  | None => ""
  | Some f =>
      let state := md5_read_loop (S (length f)) md5_init f in
      let digest := md5_finish state in
      fold_right (fun di acc => hex02 (nth di digest 0%Z) +:+ acc) "" (seq 0 16)
  end.

Section Driver.

Variable cfg : Config.

(** [couple.substr(lastPos, pos - lastPos)]: [npos - lastPos] reaches the
    end of the string. *)
Definition couple_at (icecc_version : string) (lp : nat) (pos : option nat) : string :=
  substr lp (match pos with Some p => Some (p - lp) | None => npos end) icecc_version.

(** The platform and the version of a couple: split at the first colon,
    the platform defaults to the target platform. *)
Definition split_couple (target_platform couple : string) : string * string :=
  match find ":" couple with
  | Some colon =>
      (substr 0 (Some colon) couple,
       substr (colon + 1) (Some (String.length couple)) couple)
  | None => (target_platform, couple)
  end.

(** The [if (def_targets)] block: [None] stands for [continue]. *)
Definition select_version (def_targets : bool) (prefix version : string) : option string :=
  if def_targets then
    match find "=" version with
    | Some colon =>
        if negb (String.eqb prefix
                   (substr (colon + 1) (Some (String.length version)) version))
        then None
        else Some (substr 0 (Some colon) version)
    | None => if negb (String.eqb prefix "") then None else Some version
    end
  else Some version.

Definition not_installable (version : string) : string :=
  "$ICECC_VERSION has to point to an existing file to be installed " +:+ version.

Definition two_environments (platform version : string) : string :=
  "there are two environments for platform " +:+ platform +:+ " - ignoring " +:+ version.

(** The rest of the loop body for a selected couple: the duplicate check,
    [access], [lstat], and the two [push_back]s. *)
Definition check_env (platform version : string)
    (envs : Environments) (platforms : list string) : M (Environments * list string) :=
  if bool_decide (platform ∈ platforms) then
    log_error (two_environments platform version);;
    mret (envs, platforms)
  else
    a ← access_R_OK version;
    if negb (a =? 0)%Z then
      log_error (not_installable version);;
      mret (envs, platforms)
    else
      st ← lstat version;
      if match st with
         | Some st => negb (S_ISREG st) || (st_size st <? 500)%Z
         | None => true
         end
      then
        log_error (not_installable version);;
        mret (envs, platforms)
      else
        mret (envs ++ [(platform, version)], platforms ++ [platform]).

(** The three file checks of [check_env] read off the file system. *)
Definition installable (fs : gmap string inode) (version : string) : bool :=
  match fs !! version with
  | Some f => i_readable f && S_ISREG f && (500 <=? st_size f)%Z
  | None => false
  end.

(** The tokenizer loop of [parse_icecc_version]
    ([while (pos != npos || lastPos != npos)]).  Every round moves
    [lastPos] forward, so the length of the string bounds the rounds. *)
Fixpoint parse_loop (fuel : nat) (icecc_version target_platform prefix : string)
    (def_targets : bool) (lastPos pos : option nat)
    (envs : Environments) (platforms : list string) : M Environments :=
  match fuel with
  | 0 => stop out_of_fuel
  | S fuel' =>
      match lastPos, pos with
      | None, None => mret envs
      | None, Some _ => throw std_out_of_range
      | Some lp, _ =>
          let couple := couple_at icecc_version lp pos in
          let '(platform, version) := split_couple target_platform couple in
          let lastPos' := find_first_not_of "," pos icecc_version in
          let pos' := find_first_of "," lastPos' icecc_version in
          let continue := parse_loop fuel' icecc_version target_platform prefix
                            def_targets lastPos' pos' in
          match select_version def_targets prefix version with
          | None => continue envs platforms
          | Some version =>
              '(envs', platforms') ← check_env platform version envs platforms;
              continue envs' platforms'
          end
      end
  end.

(** The couples that the tokenizer loop hands to [check_env], in order, as
    (platform, version) after selection. *)
Fixpoint selected_couples (fuel : nat) (icecc_version target_platform prefix : string)
    (def_targets : bool) (lastPos pos : option nat) : list (string * string) :=
  match fuel with
  | 0 => []
  | S fuel' =>
      match lastPos with
      | None => []
      | Some lp =>
          let couple := couple_at icecc_version lp pos in
          let '(platform, version) := split_couple target_platform couple in
          let lastPos' := find_first_not_of "," pos icecc_version in
          let pos' := find_first_of "," lastPos' icecc_version in
          let rest := selected_couples fuel' icecc_version target_platform prefix
                        def_targets lastPos' pos' in
          match select_version def_targets prefix version with
          | None => rest
          | Some version => (platform, version) :: rest
          end
      end
  end.

Definition selected_entries (icecc_version target_platform prefix : string)
    : list (string * string) :=
  let lastPos := find_first_not_of "," (Some 0) icecc_version in
  selected_couples (S (String.length icecc_version)) icecc_version target_platform
    prefix (bool_decide (is_Some (find "=" icecc_version)))
    lastPos (find_first_of "," lastPos icecc_version).

(** The list that the loop builds from the selected couples, and the
    lines it logs, as functions of the file system. *)
Fixpoint scan_envs (fs : gmap string inode) (entries : list (string * string))
    (envs : Environments) : Environments :=
  match entries with
  | [] => envs
  | (p, v) :: rest =>
      if bool_decide (p ∈ envs.*1) then scan_envs fs rest envs
      else if installable fs v then scan_envs fs rest (envs ++ [(p, v)])
      else scan_envs fs rest envs
  end.

Fixpoint scan_log (fs : gmap string inode) (entries : list (string * string))
    (envs : Environments) : list Event :=
  match entries with
  | [] => []
  | (p, v) :: rest =>
      if bool_decide (p ∈ envs.*1)
      then EvLog Error (two_environments p v) :: scan_log fs rest envs
      else if installable fs v then scan_log fs rest (envs ++ [(p, v)])
      else EvLog Error (not_installable v) :: scan_log fs rest envs
  end.

(** The world after the events [evs] were logged. *)
Definition emits (evs : list Event) (W : World) : World :=
  mk_world (w_fs W) (w_daemon W) (w_server W) (w_stdin W) (w_stdout W)
           (w_stderr W) (w_faults W) (w_rand W) (w_tmpnames W) (w_forks W)
           (w_waits W) (w_trace W ++ evs) (w_remote_daemon W).

(** The state of the tokenizer at the head of the loop. *)
Definition tok_inv (fuel : nat) (s : string) (lastPos pos : option nat) : Prop :=
  match lastPos with
  | None => pos = None /\ 1 <= fuel
  | Some lp =>
      lp < String.length s /\ String.length s + 1 <= fuel + lp /\
      pos = find_first_of "," (Some lp) s
  end.

(** [getenv] returning a null pointer, or the empty string failing the
    assertion, ends the process. *)
Definition parse_icecc_version (target_platform prefix : string) : M Environments :=
  match getenv cfg "ICECC_VERSION" with
  | None => stop aborted
  | Some icecc_version =>
      if String.eqb icecc_version "" then stop aborted
      else
        let lastPos := find_first_not_of "," (Some 0) icecc_version in
        let pos := find_first_of "," lastPos icecc_version in
        let def_targets := bool_decide (is_Some (find "=" icecc_version)) in
        parse_loop (S (String.length icecc_version)) icecc_version target_platform
                   prefix def_targets lastPos pos [] []
  end.

(** [endswith(orig, suff, ret)]: [Some ret] when it returns true. *)
Definition endswith (orig suff : string) : option string :=
  let len := String.length suff in
  if Nat.ltb len (String.length orig)
     && String.eqb (substr (String.length orig - len) npos orig) suff
  then Some (substr 0 (Some (String.length orig - len)) orig)
  else None.

(** Modelled from the spec: [find_basename] is defined in services/util.h,
    which is not among the sources; the spec calls its result "the
    basename": what follows the last slash. *)
Definition find_basename (sfile : string) : string :=
  match find_last_of "/" sfile with
  | Some i => substr (i + 1) npos sfile
  | None => sfile
  end.

Definition suffs : list string := [".tar.bz2"; ".tar.gz"; ".tar"; ".tgz"].

Record ripped := mk_ripped {
  env2 : Environments;
  version_map : gmap string string;
  versionfile_map : gmap string string
}.

(** The inner loop of [rip_out_paths]: every suffix is tried, none ends
    the loop. *)
Definition rip_suffixes (it : string * string) (r : ripped) : ripped :=
  fold_left
    (fun r suff =>
       match endswith it.2 suff with
       | Some versfile =>
           let versfile := find_basename versfile in
           mk_ripped (env2 r ++ [(it.1, versfile)])
                     (<[it.1 := versfile]> (version_map r))
                     (<[it.1 := it.2]> (versionfile_map r))
       | None => r
       end)
    suffs r.

Definition rip_out_paths (envs : Environments)
    (versionfile_map0 : gmap string string) : ripped :=
  fold_left (fun r it => rip_suffixes it r) envs (mk_ripped [] ∅ versionfile_map0).

(** The catalog a job is submitted with. *)
Definition catalog (target_platform prefix : string) : M ripped :=
  envs ← parse_icecc_version target_platform prefix;
  mret (rip_out_paths envs ∅).

(** [m[key]] of a [std::map<string, string>] read as a value. *)
Definition map_at (m : gmap string string) (key : string) : string :=
  default "" (m !! key).

(** ** The scheduler dialogue and the streams to and from the server *)

Definition get_server : M UseCSMsg :=
  umsg ← get_msg local_daemon (4 * 60);
  match umsg with
  | Some (M_USE_CS usecs) => mret usecs
  | _ =>
      log_warning "replied not with use_cs";;
      throw (client_error 1 "Error 1 - expected use_cs reply, but got something else")
  end.

Definition chan_name_of (c : chan_id) : M string :=
  gets (fun W => chan_name (get_chan c W)).

Definition check_for_failure (msg : option Msg) (c : chan_id) : M unit :=
  match msg with
  | Some (M_STATUS_TEXT text) =>
      name ← chan_name_of c;
      log_error ("Remote status (compiled on " +:+ name +:+ "): " +:+ text);;
      throw (client_error 23 ("Error 23 - Remote status (compiled on " +:+ name +:+ ")"
                              +:+ nl +:+ text))
  | _ => mret tt
  end.

(** The inner loop of [write_server_cpp]: [read(cpp_fd, buffer + offset,
    sizeof(buffer) - offset)], tried again after EINTR and EAGAIN.  The
    result is the bytes read and the rest of the stream, [None] for another
    error; an empty read is the end of the stream. *)
Fixpoint read_retry (faults : list fault) (cpp_fd : list byte) (room : Z)
    : option (list byte * list byte) * list fault :=
  match faults with
  | [] => (Some (fread room cpp_fd), [])
  | Feintr :: l | Feagain :: l => read_retry l cpp_fd room
  | Ffail :: l => (None, l)
  | Fshort n :: l => (Some (fread (Z.min room (Z.of_nat (S n))) cpp_fd), l)
  | Fok :: l => (Some (fread room cpp_fd), l)
  end.

Definition read_cpp (cpp_fd : list byte) (room : Z) : M (option (list byte * list byte)) :=
  fun W =>
    let (r, l) := read_retry (w_faults W) cpp_fd room in
    (Ret r, set_faults l W).

Definition is_nil {A} (l : list A) : bool :=
  match l with [] => true | _ => false end.

(** The outer loop of [write_server_cpp]; [buffer] holds the [offset] bytes
    read and not yet sent.  Every round but the last reads at least one
    byte. *)
Fixpoint write_server_cpp_loop (fuel : nat) (cpp_fd buffer : list byte) : M unit :=
  match fuel with
  | 0 => stop out_of_fuel
  | S fuel' =>
      r ← read_cpp cpp_fd (100000 - Z.of_nat (length buffer));
      match r with
      | None =>
          log_perror "reading from cpp_fd";;
          throw (client_error 16 "Error 16 - error reading local cpp file")
      | Some (bytes, cpp_fd') =>
          let buffer := buffer ++ bytes in
          if is_nil bytes || (Z.of_nat (length buffer) =? 100000)%Z then
            buffer' ←
              (if negb (is_nil buffer) then
                 ok ← send_msg cserver (M_FILE_CHUNK buffer);
                 if negb ok then
                   m ← get_msg cserver 2;
                   check_for_failure m cserver;;
                   name ← chan_name_of cserver;
                   log_error ("write of source chunk to host " +:+ name);;
                   log_perror "failed ";;
                   throw (client_error 15 "Error 15 - write to host failed")
                 else mret []
               else mret buffer);
            if is_nil bytes then mret tt
            else write_server_cpp_loop fuel' cpp_fd' buffer'
          else write_server_cpp_loop fuel' cpp_fd' buffer
      end
  end.

Definition write_server_cpp (cpp_fd : list byte) : M unit :=
  write_server_cpp_loop (S (length cpp_fd)) cpp_fd [].

(** The loop of [receive_fd]; every round takes one message off the
    channel, and an empty channel ends it with error 19. *)
Fixpoint receive_fd_loop (fuel : nat) (obj_fd : fd) : M unit :=
  match fuel with
  | 0 => stop out_of_fuel
  | S fuel' =>
      msg ← get_msg cserver 40;
      match msg with
      | None => throw (client_error 19 "Error 19 - (network failure?)")
      | Some m =>
          check_for_failure msg cserver;;
          match m with
          | M_END => mret tt
          | M_FILE_CHUNK buffer =>
              n ← write obj_fd buffer;
              if negb (n =? Z.of_nat (length buffer))%Z
              then throw (client_error 21 "Error 21 - error writing file")
              else receive_fd_loop fuel' obj_fd
          | _ => throw (client_error 20 "Error 20 - unexpcted message")
          end
      end
  end.

Definition receive_fd (obj_fd : fd) : M unit :=
  inbox ← gets (fun W => chan_inbox (w_server W));
  receive_fd_loop (S (length inbox)) obj_fd.

Definition receive_file (output_file : string) : M unit :=
  let tmp_file := output_file +:+ "_icetmp" in
  obj_fd ← open_create tmp_file;
  match obj_fd with
  | None =>
      log_perror ("can't create " +:+ tmp_file +:+ ":");;
      throw (thrown_int 31)
  | Some obj_fd =>
      try_catch (receive_fd obj_fd) (fun e => unlink tmp_file;; throw e);;
      c ← close obj_fd;
      failed ← (if negb (c =? 0)%Z then mret true
                else r ← rename tmp_file output_file; mret (negb (r =? 0)%Z));
      if failed : bool then
        unlink tmp_file;;
        throw (client_error 30 "Error 30 - error closing temp file")
      else mret tt
  end.

(** ** The single-job executor *)

Definition SIGTERM : Z := 15.

Definition kill (pid sig : Z) : M unit := modify (emit (EvKill pid sig)).

(** [rand()]: the next draw. *)
Definition rand : M Z :=
  fun W =>
    match w_rand W with
    | [] => (Ret 0%Z, W)
    | r :: l => (Ret r, set_rand l W)
    end.

(** The loop of the catch handler of [build_remote_int]:
    [while (Msg *msg = cserver->get_msg(0))]. *)
Fixpoint drain_loop (fuel : nat) : M unit :=
  match fuel with
  | 0 => stop out_of_fuel
  | S fuel' =>
      msg ← get_msg cserver 0;
      match msg with
      | None => mret tt
      | Some m =>
          match m with
          | M_STATUS_TEXT text =>
              name ← chan_name_of cserver;
              log_error ("Remote status (compiled on " +:+ name +:+ "): " +:+ text)
          | _ => mret tt
          end;;
          drain_loop fuel'
      end
  end.

Definition drain_status : M unit :=
  inbox ← gets (fun W => chan_inbox (w_server W));
  drain_loop (S (length inbox)).

(** The block [if (!got_env)]: the environment shipper. *)
Definition transfer_environment (job : CompileJob) (hostname version_file : string) : M unit :=
  buf ← stat version_file;
  if negb (bool_decide (is_Some buf)) then
    log_perror "error stat'ing version file";;
    throw (client_error 4 "Error 4 - unable to stat version file")
  else
    ok ← send_msg cserver (M_TRANSFER_ENV (targetPlatform job) (environmentVersion job));
    if negb ok then throw (client_error 6 "Error 6 - send environment to remove failed")
    else
      env_fd ← open_rdonly version_file;
      match env_fd with
      | None =>
          throw (client_error 5 ("Error 5 - unable to open version file:" +:+ nl +:+ tab
                                 +:+ version_file))
      | Some env_fd =>
          write_server_cpp env_fd;;
          ok ← send_msg cserver M_END;
          if negb ok then
            log_error "write of environment failed";;
            throw (client_error 8 "Error 8 - write environment to remote failed")
          else
            p31 ← gets (fun W => IS_PROTOCOL_31 (w_server W));
            when p31
              (ok ← send_msg cserver
                      (M_VERIFY_ENV (targetPlatform job) (environmentVersion job));
               if negb ok then throw (client_error 22 "Error 22 - error sending environment")
               else
                 verify_msg ← get_msg cserver 60;
                 match verify_msg with
                 | Some (M_VERIFY_ENV_RESULT ok) =>
                     if negb ok then
                       log_info ("Host " +:+ hostname
                                 +:+ " did not successfully verify environment.");;
                       send_msg local_daemon
                         (M_BLACKLIST_HOST_ENV (targetPlatform job)
                            (environmentVersion job) hostname);;
                       throw (client_error 24 ("Error 24 - remote " +:+ hostname
                                               +:+ " unable to handle environment"))
                     else mret tt
                 | _ =>
                     throw (client_error 25
                              "Error 25 - other error verifying environment on remote")
                 end)
      end.

(** The three shapes of the source; [Some code] is the early return with
    the exit code of a failed preprocessor. *)
Definition send_source (job : CompileJob) (preproc_file : option string) : M (option Z) :=
  if streaming job then
    stdin ← gets w_stdin;
    modify (set_stdin []);;
    write_server_cpp stdin;;
    mret None
  else
    match preproc_file with
    | None =>
        p ← pop_fault;
        if negb (is_ok p) then stop (exited 24)
        else
          let run := call_cpp cfg job in
          modify (emit (EvCallCpp job (cpp_pid run)));;
          if (cpp_pid run =? -1)%Z then throw (client_error 18 "Error 18 - (fork error?)")
          else
            try_catch (write_server_cpp (cpp_output run))
                      (fun e => kill (cpp_pid run) SIGTERM;; throw e);;
            let status := cpp_status run in
            if negb (shell_exit_status status =? 0)%Z then
              delete_channel cserver;;
              mret (Some (shell_exit_status status))
            else mret None
    | Some preproc_file =>
        cpp_fd ← open_rdonly preproc_file;
        match cpp_fd with
        | None => throw (client_error 11 "Error 11 - unable to open preprocessed file")
        | Some cpp_fd => write_server_cpp cpp_fd;; mret None
        end
    end.

Definition string_bytes (s : string) : list byte := list_byte_of_string s.

(** From [msg = cserver->get_msg(12 * 60)] to [delete crmsg]: the status
    and the [have_dwo_file] flag of the result. *)
Definition await_result (job : CompileJob) (hostname : string) (output : bool)
    : M (Z * bool) :=
  msg ← get_msg cserver (12 * 60);
  match msg with
  | None => throw (client_error 14 "Error 14 - error reading message from remote")
  | Some m =>
      check_for_failure msg cserver;;
      match m with
      | M_COMPILE_RESULT crmsg =>
          let status := cr_status crmsg in
          if negb (status =? 0)%Z && was_out_of_memory crmsg then
            log_info "the server ran out of memory, recompiling locally";;
            throw (remote_error 101
                     "Error 101 - the server ran out of memory, recompiling locally")
          else
            (if output then
               if (negb (String.eqb (cr_out crmsg) "") || negb (String.eqb (cr_err crmsg) ""))
                  && output_needs_workaround cfg job
               then
                 log_info "command needs stdout/stderr workaround, recompiling locally";;
                 throw (remote_error 102
                   "Error 102 - command needs stdout/stderr workaround, recompiling locally")
               else
                 modify (add_stdout (string_bytes (cr_out crmsg)));;
                 modify (add_stderr (if colorify_wanted cfg job
                                     then colorify cfg (cr_err crmsg)
                                     else string_bytes (cr_err crmsg)));;
                 when (negb (status =? 0)%Z
                       && (negb (String.length (cr_err crmsg) =? 0)
                           || negb (String.length (cr_out crmsg) =? 0)))
                      (log_error ("Compiled on " +:+ hostname))
             else mret tt);;
            mret (status, have_dwo_file crmsg)
      | _ =>
          log_warning "waited for compile result, but got another message";;
          throw (client_error 13 "Error 13 - did not get compile response message")
      end
  end.

(** [if (status == 0)]: the artifacts. *)
Definition receive_artifacts (job : CompileJob) (have_dwo_file : bool) : M unit :=
  if streaming job then receive_fd STDOUT_FILENO
  else if String.eqb (outputFile job) "" then stop aborted
  else
    receive_file (outputFile job);;
    when have_dwo_file (receive_file (dwo_name (outputFile job))).

(** The body of the [try] block once the channel exists; [Some code] is
    the early return. *)
Definition remote_session (job : CompileJob) (hostname version_file : string)
    (got_env : bool) (preproc_file : option string) (output : bool) : M Z :=
  when (negb got_env) (transfer_environment job hostname version_file);;
  p31 ← gets (fun W => IS_PROTOCOL_31 (w_server W));
  if negb p31 && ignore_unverified cfg then
    log_warning ("Host " +:+ hostname +:+ " cannot be verified.");;
    throw (client_error 26 ("Error 26 - environment on " +:+ hostname
                            +:+ " cannot be verified"))
  else
    ok ← send_msg cserver (M_COMPILE_FILE job);
    if negb ok then
      log_info "write of job failed";;
      throw (client_error 9 "Error 9 - error sending file to remote")
    else
      early ← send_source job preproc_file;
      match early with
      | Some code => mret code
      | None =>
          ok ← send_msg cserver M_END;
          if negb ok then
            log_info "write of end failed";;
            throw (client_error 12 "Error 12 - failed to send file to remote")
          else
            '(status, have_dwo) ← await_result job hostname output;
            when (status =? 0)%Z (receive_artifacts job have_dwo);;
            delete_channel cserver;;
            mret status
      end.

(** [build_remote_int]; the job is the caller's job after [setJobID] and
    [setEnvironmentVersion]. *)
Definition build_remote_int (job : CompileJob) (usecs : UseCSMsg)
    (environment version_file : string) (preproc_file : option string)
    (output : bool) : M Z :=
  let hostname := hostname usecs in
  let job := setEnvironmentVersion environment (setJobID (job_id usecs) job) in
  c ← createChannel hostname (port usecs) 10;
  if negb c then
    log_error ("no server found behind given hostname " +:+ hostname +:+ ":"
               +:+ dec (port usecs));;
    throw (client_error 2 ("Error 2 - no server found at " +:+ hostname))
  else
    try_catch
      (remote_session job hostname version_file (got_env usecs) preproc_file output)
      (fun e => drain_status;; delete_channel cserver;; throw e).

(** ** Loopback *)

(** C division. *)
Definition cdiv (a b : Z) : Z := Z.quot a b.

Definition size_of (st : option inode) : Z :=
  match st with Some f => st_size f | None => 0 end.

(** [maybe_build_local]: whether the job is done, the job as the call
    leaves it, and [ret]. *)
Definition maybe_build_local (usecs : UseCSMsg) (job : CompileJob) (ret : Z)
    : M (bool * CompileJob * Z) :=
  modify (set_remote_daemon (hostname usecs));;
  if String.eqb (hostname usecs) "127.0.0.1" then
    if bool_decide (is_Some (getenv cfg "ICECC_TEST_REMOTEBUILD"))
       && negb (port usecs =? 0)%Z
    then mret (false, job, ret)
    else
      let job := setEnvironmentVersion "__client" (setJobID (job_id usecs) job) in
      ok ← send_msg local_daemon (M_COMPILE_FILE job);
      if negb ok then
        log_info "write of job failed";;
        throw (client_error 29 "Error 29 - write of job failed")
      else
        let run := build_local cfg job in
        modify (fun W => emit (EvBuildLocal job (lr_ret run)) (set_fs (lr_fs run) W));;
        let ret := lr_ret run in
        st ← stat (outputFile job);
        st_dwo ← stat (dwo_name (outputFile job));
        let ru := lr_ru run in
        let msg :=
          mk_jobdone (job_id usecs) ret FROM_SUBMITTER
            ((lr_end_sec run - lr_begin_sec run) * 1000
             + cdiv (lr_end_usec run - lr_begin_usec run) 1000)
            (ru_utime_sec ru * 1000 + cdiv (ru_utime_usec ru) 1000)
            (ru_stime_sec ru * 1000 + cdiv (ru_stime_usec ru) 1000)
            (ru_majflt ru + ru_minflt ru + ru_nswap ru)
            (size_of st + size_of st_dwo) in
        ok ← send_msg local_daemon (M_JOB_DONE msg);
        mret (ok, job, ret)
  else mret (false, job, ret).

Definition minimalRemoteVersion (job : CompileJob) : Z :=
  if ignore_unverified cfg then Z.max (MIN_PROTOCOL_VERSION cfg) 31
  else MIN_PROTOCOL_VERSION cfg.

(** ** The replication driver: reconciliation (build_remote, after the
    children were reaped) *)

#[global] Instance CompileJob_inhabited : Inhabited CompileJob :=
  populate (mk_job "" "" "" "" [] 0 false false 0 "").
#[global] Instance UseCSMsg_inhabited : Inhabited UseCSMsg :=
  populate (mk_usecs "" 0 0 "" false 0).

(** [::unlink(jobs[i].outputFile()); if (has_split_dwarf) ::unlink(dwo_file);] *)
Definition unlink_output (has_split_dwarf : bool) (output : string) : M unit :=
  unlink output;;
  when has_split_dwarf (unlink (dwo_name output)).

Definition exit_code_mismatch (umsgs : list UseCSMsg) (exit_codes : list Z) (i : nat) : string :=
  hostname (umsgs !!! i) +:+ " compiled with exit code " +:+ dec (exit_codes !!! i)
  +:+ " and " +:+ hostname (umsgs !!! 0) +:+ " compiled with exit code "
  +:+ dec (exit_codes !!! 0) +:+ " - aborting!" +:+ nl.

Definition md5_mismatch (jobs : list CompileJob) (umsgs : list UseCSMsg)
    (other_md5 first_md5 : string) (i : nat) : string :=
  hostname (umsgs !!! i) +:+ " compiled " +:+ outputFile (jobs !!! 0)
  +:+ " with md5 sum " +:+ other_md5 +:+ "(" +:+ outputFile (jobs !!! i) +:+ ")"
  +:+ " and " +:+ hostname (umsgs !!! 0) +:+ " compiled with md5 sum "
  +:+ first_md5 +:+ " - aborting!" +:+ nl.

(** [for (int i = 1; i < torepeat; i++)] of the branch [!misc_error], run
    for [n] more rounds from slot [i]; the result is [exit_codes] as the
    loop leaves it. *)
Fixpoint reconcile_loop (n i : nat) (jobs : list CompileJob) (umsgs : list UseCSMsg)
    (preproc : string) (has_split_dwarf : bool) (first_md5 : string)
    (exit_codes : list Z) : M (list Z) :=
  match n with
  | 0 => mret exit_codes
  | S n' =>
      let continue :=
        reconcile_loop n' (S i) jobs umsgs preproc has_split_dwarf first_md5 exit_codes in
      let unlink_and_continue :=
        unlink_output has_split_dwarf (outputFile (jobs !!! i));;
        continue in
      if (exit_codes !!! 0%nat =? 0)%Z then
        if (exit_codes !!! i =? 42)%Z then continue
        else if negb (exit_codes !!! i =? 0)%Z then
          log_error (exit_code_mismatch umsgs exit_codes i);;
          unlink_output has_split_dwarf (outputFile (jobs !!! 0));;
          mret (<[0 := (-1)%Z]> exit_codes)
        else
          other_md5 ← gets (fun W => md5_for_file (w_fs W) (outputFile (jobs !!! i)));
          if negb (String.eqb other_md5 first_md5) then
            log_error (md5_mismatch jobs umsgs other_md5 first_md5 i);;
            rename (outputFile (jobs !!! 0)) (outputFile (jobs !!! 0) +:+ ".caught");;
            rename preproc (preproc +:+ ".caught");;
            when has_split_dwarf
              (rename (dwo_name (outputFile (jobs !!! 0)))
                      (dwo_name (outputFile (jobs !!! 0)) +:+ ".caught");;
               mret tt);;
            mret (<[0 := (-1)%Z]> exit_codes)
          else unlink_and_continue
      else unlink_and_continue
  end.

(** The loop of the branch [misc_error]. *)
Fixpoint misc_cleanup_loop (n i : nat) (jobs : list CompileJob)
    (has_split_dwarf : bool) : M unit :=
  match n with
  | 0 => mret tt
  | S n' =>
      unlink_output has_split_dwarf (outputFile (jobs !!! i));;
      misc_cleanup_loop n' (S i) jobs has_split_dwarf
  end.

(** From [if (!misc_error)] to the end of [build_remote]. *)
Definition reconcile (torepeat : nat) (jobs : list CompileJob) (umsgs : list UseCSMsg)
    (preproc : string) (has_split_dwarf misc_error : bool)
    (exit_codes : list Z) : M Z :=
  exit_codes ←
    (if negb misc_error then
       first_md5 ← gets (fun W => md5_for_file (w_fs W) (outputFile (jobs !!! 0)));
       reconcile_loop (torepeat - 1) 1 jobs umsgs preproc has_split_dwarf
                      first_md5 exit_codes
     else
       unlink_output has_split_dwarf (outputFile (jobs !!! 0));;
       misc_cleanup_loop (torepeat - 1) 1 jobs has_split_dwarf;;
       mret exit_codes);
  unlink preproc;;
  let ret := exit_codes !!! 0 in
  if misc_error then throw (client_error 27 "Error 27 - misc error")
  else mret ret.


(** ** build_remote *)

(** [dcc_make_tmpnam(prefix, suffix, &name, 0)]: a fresh name, and the
    empty file it creates. *)
Definition dcc_make_tmpnam (prefix suffix : string) : M string :=
  fun W =>
    let name := match w_tmpnames W with
                | [] => "/tmp/" +:+ prefix +:+ suffix
                | n :: _ => n
                end in
    (Ret name, set_fs (insert name (regular_file [])) (set_tmpnames (tl (w_tmpnames W)) W)).

(** [fork()]: the pid of the child, 0 in the child, -1 on failure. *)
Definition fork : M Z :=
  fun W =>
    let pid := match w_forks W with [] => (-1)%Z | pid :: _ => pid end in
    (Ret pid, emit (EvFork pid) (set_forks (tl (w_forks W)) W)).

(** [wait(&status)]: a child that ended, with the files it has written by
    then. *)
Definition wait : M (option (Z * wstatus)) :=
  fun W =>
    match w_waits W with
    | [] | wait_failed :: _ => (Ret None, set_waits (tl (w_waits W)) W)
    | waited pid st written :: l =>
        (Ret (Some (pid, st)), set_fs (fun fs => written ∪ fs) (set_waits l W))
    end.

Definition what (e : exn) : string :=
  match e with
  | client_error _ w | remote_error _ w => w
  | thrown_int _ => ""
  | std_out_of_range => "basic_string::substr"
  end.

(** The child of the fork for slot [i]: it ends in [_exit(ret)], or kills
    itself when a [std::exception] reaches it; the [int] thrown by
    [receive_file] is none and passes. *)
Definition replica_child (i : nat) (job : CompileJob) (umsg : UseCSMsg)
    (r : ripped) (preproc : string) : M Z :=
  ret ← try_catch
          ('(done, job, ret) ← maybe_build_local umsg job 42;
           if negb (done : bool) then
             build_remote_int job umsg (map_at (version_map r) (host_platform umsg))
               (map_at (versionfile_map r) (host_platform umsg))
               (Some preproc) (bool_decide (i = 0))
           else mret ret)
          (fun e =>
             match e with
             | thrown_int _ => throw e
             | _ =>
                 log_info ("build_remote_int failed and has thrown " +:+ what e);;
                 kill (getpid cfg) SIGTERM;;
                 stop (killed SIGTERM)
             end);
  stop (exited ret).

Record replicas := mk_replicas {
  rp_jobs : list CompileJob;
  rp_umsgs : list UseCSMsg;
  rp_jobmap : gmap Z nat
}.

(** The loop that sets up and forks the replicas, for [n] more slots from
    slot [i]. *)
Fixpoint fork_loop (n i : nat) (job : CompileJob) (r : ripped) (preproc : string)
    (st : replicas) : M replicas :=
  match n with
  | 0 => mret st
  | S n' =>
      job_i ← (if bool_decide (i = 0) then mret job
               else buffer ← dcc_make_tmpnam "icecc" ".o";
                    mret (setOutputFile buffer job));
      umsg ← get_server;
      modify (set_remote_daemon (hostname umsg));;
      pid ← fork;
      if (pid =? 0)%Z then
        replica_child i job_i umsg r preproc;;
        mret st
      else
        fork_loop n' (S i) job r preproc
          (mk_replicas (rp_jobs st ++ [job_i]) (rp_umsgs st ++ [umsg])
                       (<[pid := i]> (rp_jobmap st)))
  end.

(** The loop that reaps the children: [Some exit_codes], or [None] when a
    child was killed by a signal ([misc_error]). *)
Fixpoint wait_loop (n : nat) (jobmap : gmap Z nat) (exit_codes : list Z)
    : M (bool * list Z) :=
  match n with
  | 0 => mret (false, exit_codes)
  | S n' =>
      w ← wait;
      match w with
      | None => log_perror "wait failed";; wait_loop n' jobmap exit_codes
      | Some (pid, status) =>
          if WIFSIGNALED status then mret (true, exit_codes)
          else
            wait_loop n' jobmap
              (<[default 0 (jobmap !! pid) := shell_exit_status status]> exit_codes)
      end
  end.

Definition fake_filename (job : CompileJob) : string :=
  fold_left (fun acc it => acc +:+ "/" +:+ it) (restFlags job)
    (fold_left (fun acc it => acc +:+ "/" +:+ it) (remoteFlags job) "")
  +:+ get_absfilename (getcwd cfg) (inputFile job).

Definition build_remote (job : CompileJob) (_envs : Environments) (permill : Z) : M Z :=
  let has_split_dwarf := dwarfFissionEnabled job in
  torepeat ←
    (if gnuc_at_least_3_3 cfg && negb (compiler_is_clang cfg job) && negb (streaming job)
     then r ← rand; mret (if (Z.rem r 1000 <? permill)%Z then 3 else 1)
     else mret 1);
  let r := rip_out_paths _envs ∅ in
  let envs := env2 r in
  if is_nil envs then
    log_error "$ICECC_VERSION needs to point to .tar files";;
    throw (client_error 22 "Error 22 - $ICECC_VERSION needs to point to .tar files")
  else
    let preferred_host := default "" (getenv cfg "ICECC_PREFERRED_HOST") in
    if bool_decide (torepeat = 1) then
      let getcs := mk_getcs envs (fake_filename job) (language job) (Z.of_nat torepeat)
                     (targetPlatform job) (argumentFlags job) preferred_host
                     (minimalRemoteVersion job) in
      ok ← send_msg local_daemon (M_GET_CS getcs);
      if negb ok then
        log_warning "asked for CS";;
        throw (client_error 24 "Error 24 - asked for CS")
      else
        usecs ← get_server;
        '(done, job, ret) ← maybe_build_local usecs job 0;
        if negb (done : bool) then
          build_remote_int job usecs (map_at (version_map r) (host_platform usecs))
            (map_at (versionfile_map r) (host_platform usecs)) None true
        else mret ret
    else
      preproc ← dcc_make_tmpnam "icecc" ".ix";
      let run := call_cpp cfg job in
      modify (emit (EvCallCpp job (cpp_pid run)));;
      if (cpp_pid run =? -1)%Z then
        unlink preproc;;
        throw (client_error 10 "Error 10 - (unable to fork process?)")
      else
        modify (set_fs (alter (append_data (cpp_output run)) preproc));;
        if negb (shell_exit_status (cpp_status run) =? 0)%Z then
          unlink preproc;;
          mret (shell_exit_status (cpp_status run))
        else
          seed ← rand;
          let job := appendFlag ("-frandom-seed=" +:+ dec seed) Arg_Remote job in
          let getcs := mk_getcs envs (get_absfilename (getcwd cfg) (inputFile job))
                         (language job) (Z.of_nat torepeat) (targetPlatform job)
                         (argumentFlags job) preferred_host (minimalRemoteVersion job) in
          ok ← send_msg local_daemon (M_GET_CS getcs);
          if negb ok then
            log_warning "asked for CS";;
            throw (client_error 0 "Error 0 - asked for CS")
          else
            st ← fork_loop torepeat 0 job r preproc (mk_replicas [] [] ∅);
            '(misc_error, exit_codes) ←
              wait_loop torepeat (rp_jobmap st) (replicate torepeat 42%Z);
            reconcile torepeat (rp_jobs st) (rp_umsgs st) preproc has_split_dwarf
                      misc_error exit_codes.

End Driver.

(** ** Reading a trace *)

Definition unlinked_paths (evs : list Event) : list string :=
  omap (fun e => match e with EvUnlink p => Some p | _ => None end) evs.

Definition renames (evs : list Event) : list (string * string * bool) :=
  omap (fun e => match e with EvRename a b ok => Some (a, b, ok) | _ => None end) evs.

(** The renames that preserve a divergent build: the object of slot 0,
    the preprocessed input and, under dwarf fission, the sidecar of slot 0;
    [oks] tells which of them succeeded. *)
Definition caught_renames (output0 preproc : string) (has_split_dwarf : bool)
    (oks : bool * bool * bool) : list (string * string * bool) :=
  [(output0, output0 +:+ ".caught", oks.1.1); (preproc, preproc +:+ ".caught", oks.1.2)]
  ++ (if has_split_dwarf
      then [(dwo_name output0, dwo_name output0 +:+ ".caught", oks.2)]
      else []).

(** Slot [j] was cleaned up by the events [evs] that led to the world [W']:
    its output (and, under dwarf fission, its sidecar) was unlinked and is
    absent. *)
Definition slot_cleaned (jobs : list CompileJob) (has_split_dwarf : bool)
    (j : nat) (evs : list Event) (W' : World) : Prop :=
  outputFile (jobs !!! j) ∈ unlinked_paths evs /\
  w_fs W' !! outputFile (jobs !!! j) = None /\
  (has_split_dwarf = true ->
   dwo_name (outputFile (jobs !!! j)) ∈ unlinked_paths evs /\
   w_fs W' !! dwo_name (outputFile (jobs !!! j)) = None).

(** No file that is absent in [W] exists in [W']. *)
Definition stays_gone (W W' : World) : Prop :=
  forall p, w_fs W !! p = None -> w_fs W' !! p = None.

(** The bytes of the [FileChunk] messages at the head of a channel, up to
    the first message that is not a [FileChunk]. *)
Fixpoint chunks_before_end (inbox : list (option Msg)) : list byte :=
  match inbox with
  | Some (M_FILE_CHUNK buffer) :: rest => buffer ++ chunks_before_end rest
  | _ => []
  end.


(** The messages sent to the local daemon, in order. *)
Definition daemon_sends (evs : list Event) : list Msg :=
  omap (fun e => match e with EvSend local_daemon m _ => Some m | _ => None end) evs.

(** Only the verification step waits 60 seconds for a reply, so this tells
    whether a [VerifyEnvResult] with [ok = false] was received there. *)
Definition verify_refused (e : Event) : bool :=
  match e with
  | EvRecv _ 60 (Some (M_VERIFY_ENV_RESULT false)) => true
  | _ => false
  end.


(** An event that neither talks to the local daemon nor is the refusal. *)
Definition quiet (e : Event) : bool :=
  match e with
  | EvSend local_daemon _ _ => false
  | _ => negb (verify_refused e)
  end.

Definition is_24 {A} (o : Outcome A) : bool :=
  match o with
  | Throw (client_error c _) => (c =? 24)%Z
  | _ => false
  end.

(** A computation that emits quiet events only and does not raise error 24. *)
Definition Quiet {A} (m : M A) : Prop :=
  forall W, exists evs,
    w_trace (m W).2 = w_trace W ++ evs /\ forallb quiet evs = true /\
    is_24 (m W).1 = false.

(** The trace of a run in which the verification was refused: the refusal
    was received, then [blacklist] was sent to the local daemon (whether or
    not the send succeeded), nothing else reached the daemon, and the run
    ended with error 24. *)
Definition refused {A} (blacklist : Msg) (what : string) (evs : list Event)
    (o : Outcome A) : Prop :=
  exists pre mid ok post,
    evs = pre ++ EvRecv cserver 60 (Some (M_VERIFY_ENV_RESULT false)) :: mid
          ++ EvSend local_daemon blacklist ok :: post /\
    forallb quiet pre = true /\ forallb quiet mid = true /\ forallb quiet post = true /\
    o = Throw (client_error 24 what).

(** A computation that is quiet unless the verification is refused. *)
Definition Verifying {A} (blacklist : Msg) (what : string) (m : M A) : Prop :=
  forall W, exists evs,
    w_trace (m W).2 = w_trace W ++ evs /\
    (refused blacklist what evs (m W).1 \/
     (forallb quiet evs = true /\ is_24 (m W).1 = false)).

(** The connections a run dialled, and the jobs it built locally. *)
Definition dials (evs : list Event) : list (string * Z) :=
  omap (fun e => match e with EvConnect h p _ _ => Some (h, p) | _ => None end) evs.

Definition local_builds (evs : list Event) : list CompileJob :=
  omap (fun e => match e with EvBuildLocal j _ => Some j | _ => None end) evs.

(** Whether [build_remote] settles on [torepeat = 1] in the world [W]. *)
Definition single_job (cfg : Config) (job : CompileJob) (permill : Z) (W : World) : bool :=
  negb (gnuc_at_least_3_3 cfg && negb (compiler_is_clang cfg job) && negb (streaming job))
  || negb (Z.rem (hd 0%Z (w_rand W)) 1000 <? permill)%Z.

(** Whether the test-mode override of [maybe_build_local] applies. *)
Definition test_remotebuild (cfg : Config) (usecs : UseCSMsg) : bool :=
  bool_decide (is_Some (getenv cfg "ICECC_TEST_REMOTEBUILD")) && negb (port usecs =? 0)%Z.

(** The job as [maybe_build_local] hands it to [build_local]. *)
Definition local_job (usecs : UseCSMsg) (job : CompileJob) : CompileJob :=
  setEnvironmentVersion "__client" (setJobID (job_id usecs) job).

(** The [n]-th entry of the fault plan from now on. *)
Definition succeeds (n : nat) (W : World) : bool := is_ok (nth n (w_faults W) Fok).

(** ** What a divergence of the replicas keeps *)

(** Whether the rename of [old], the [n]-th fallible call from [W] on,
    succeeds: the file is there and the call does not fail. *)
Definition rename_ok (W : World) (n : nat) (old : string) : bool :=
  bool_decide (is_Some (w_fs W !! old)) && succeeds n W.

(** The file that was at [old] in [W] is at [new] in [W'], and no longer
    at [old]. *)
Definition moved (W W' : World) (old new : string) : Prop :=
  is_Some (w_fs W !! old) /\ w_fs W' !! new = w_fs W !! old /\ w_fs W' !! old = None.

(** The files that the driver renames on a divergence: the output of slot
    0, the preprocessed file and, under dwarf fission, the sidecar of slot
    0. *)
Definition caught_sources (jobs : list CompileJob) (preproc : string)
    (has_split_dwarf : bool) : list string :=
  [outputFile (jobs !!! 0%nat); preproc]
  ++ (if has_split_dwarf then [dwo_name (outputFile (jobs !!! 0%nat))] else []).

(** These files and their [.caught] names are different paths, and none
    of the files is the output, or the sidecar, of a slot before slot [i]. *)
Definition caught_apart (jobs : list CompileJob) (preproc : string)
    (has_split_dwarf : bool) (i : nat) : Prop :=
  NoDup (caught_sources jobs preproc has_split_dwarf
         ++ ((fun p => p +:+ ".caught") <$> caught_sources jobs preproc has_split_dwarf)) /\
  forall j p, 1 <= j < i -> p ∈ caught_sources jobs preproc has_split_dwarf ->
    outputFile (jobs !!! j) ≠ p /\
    (has_split_dwarf = true -> dwo_name (outputFile (jobs !!! j)) ≠ p).

(** ** The catalog entry of an archive, the digest of a stream *)

(** The version that [rip_out_paths] reads off an archive path: the
    basename of what precedes the first of the suffixes it ends in. *)
Definition archive_version (path : string) : option string :=
  find_basename <$> head (omap (endswith path) suffs).

(** The 32 digits that [md5_for_file] prints for a stream. *)
Definition hexdigest (d : list byte) : string :=
  fold_right (fun di acc => hex02 (nth di (md5_finish (md5_append md5_init d)) 0%Z) +:+ acc)
             "" (seq 0 16).

Definition lower_hex (c : ascii) : bool :=
  existsb (Ascii.eqb c)
    ["0"; "1"; "2"; "3"; "4"; "5"; "6"; "7"; "8"; "9"; "a"; "b"; "c"; "d"; "e"; "f"]%char.

(** ** How a run ends, what it emits and what it changes *)

(** The ways a run ends other than by returning: the exceptions by kind
    and number, the ends of the process by kind. *)
Inductive ending :=
  | throws_client (code : Z)
  | throws_remote (code : Z)
  | throws_int (n : Z)
  | throws_out_of_range
  | exits
  | aborts
  | kills_itself
  | runs_out_of_fuel.

#[global] Instance ending_eq_dec : EqDecision ending.
Proof. solve_decision. Defined.

Definition exn_ending (e : exn) : ending :=
  match e with
  | client_error c _ => throws_client c
  | remote_error c _ => throws_remote c
  | thrown_int n => throws_int n
  | std_out_of_range => throws_out_of_range
  end.

Definition halt_ending (h : halt) : ending :=
  match h with
  | exited _ => exits
  | aborted => aborts
  | killed _ => kills_itself
  | out_of_fuel => runs_out_of_fuel
  end.

Definition ending_of {A} (o : Outcome A) : option ending :=
  match o with
  | Ret _ => None
  | Throw e => Some (exn_ending e)
  | Halt h => Some (halt_ending h)
  end.

(** A computation that emits events of [E] only, ends in one of [ends] if
    it does not return, and leaves every file outside [F] as it was. *)
Definition Within {A} (E : Event -> bool) (ends : list ending) (F : string -> Prop)
    (m : M A) : Prop :=
  forall W,
    (exists evs, w_trace (m W).2 = w_trace W ++ evs /\ forallb E evs = true) /\
    (forall x, ending_of (m W).1 = Some x -> x ∈ ends) /\
    (forall p, ~ F p -> w_fs (m W).2 !! p = w_fs W !! p).

(** The events of the streams to and from the server: everything but the
    connection, the job itself, the end of the channel, the traffic with
    the local daemon other than the blacklisting, local builds and forks. *)
Definition stream_event (e : Event) : bool :=
  match e with
  | EvSend cserver (M_COMPILE_FILE _) _ => false
  | EvSend cserver _ _ => true
  | EvSend local_daemon (M_BLACKLIST_HOST_ENV _ _ _) _ => true
  | EvSend local_daemon _ _ => false
  | EvRecv cserver _ _ => true
  | EvRecv local_daemon _ _ => false
  | EvLog _ _ | EvOpen _ _ _ _ | EvRename _ _ _ | EvUnlink _ | EvCallCpp _ _
  | EvKill _ _ => true
  | EvConnect _ _ _ _ | EvDelete _ | EvBuildLocal _ _ | EvFork _ => false
  end.

Definition no_file : string -> Prop := fun _ => False.
Definition any_file : string -> Prop := fun _ => True.

(** The chunks that reached the server, in order. *)
Definition sent_chunks (evs : list Event) : list (list byte) :=
  omap (fun e => match e with
                 | EvSend cserver (M_FILE_CHUNK buffer) true => Some buffer
                 | _ => None
                 end) evs.

(** How often the channel to the server was deleted. *)
Definition deletes (evs : list Event) : nat :=
  length (omap (fun e => match e with EvDelete cserver => Some e | _ => None end) evs).

(** What a run of [write_server_cpp] on the stream [d] leaves behind: only
    stream events and no change to any file; the chunks that reached the
    server are non-empty, fit the buffer of 100000 bytes and make up a
    prefix of [d], all of [d] if the run returns; a failure is error 15, 16
    or 23; the fuel never runs out. *)
Definition streamed (d : list byte) (W : World) (r : Outcome unit * World) : Prop :=
  exists evs,
    w_trace r.2 = w_trace W ++ evs /\ forallb stream_event evs = true /\
    w_fs r.2 = w_fs W /\
    Forall (fun b => b ≠ [] /\ (Z.of_nat (length b) <= 100000)%Z) (sent_chunks evs) /\
    match r.1 with
    | Ret _ => concat (sent_chunks evs) = d
    | Throw e =>
        concat (sent_chunks evs) `prefix_of` d /\
        exn_ending e ∈ [throws_client 15; throws_client 16; throws_client 23]
    | Halt _ => False
    end.

(** The bytes behind a descriptor: standard output, or a file if it
    exists. *)
Definition fd_content (d : fd) (W : World) : option (list byte) :=
  match d with
  | STDOUT_FILENO => Some (w_stdout W)
  | fd_of path => i_data <$> w_fs W !! path
  end.

(** The channel after the chunks at its head and the message that follows
    them. *)
Fixpoint after_end (inbox : list (option Msg)) : list (option Msg) :=
  match inbox with
  | Some (M_FILE_CHUNK _) :: rest => after_end rest
  | _ :: rest => rest
  | [] => []
  end.

(** What a run of [receive_fd] leaves behind: only stream events, no
    change to any file but the one behind the descriptor nor to standard
    output unless it is the descriptor; if the run returns, the descriptor
    has received the chunks at the head of the channel and the channel is
    past the message that ended them; a failure is error 19, 20, 21 or 23;
    the fuel never runs out. *)
Definition delivered (obj_fd : fd) (W : World) (r : Outcome unit * World) : Prop :=
  exists evs,
    w_trace r.2 = w_trace W ++ evs /\ forallb stream_event evs = true /\
    (forall p, obj_fd ≠ fd_of p -> w_fs r.2 !! p = w_fs W !! p) /\
    (obj_fd ≠ STDOUT_FILENO -> w_stdout r.2 = w_stdout W) /\
    match r.1 with
    | Ret _ =>
        fd_content obj_fd r.2
        = (fun d => d ++ chunks_before_end (chan_inbox (w_server W))) <$> fd_content obj_fd W /\
        chan_inbox (w_server r.2) = after_end (chan_inbox (w_server W))
    | Throw e =>
        exn_ending e ∈ [throws_client 19; throws_client 20; throws_client 21;
                        throws_client 23]
    | Halt _ => False
    end.

(** Inclusion of closed lists of endings, by computation. *)
Definition ends_in (l l' : list ending) : bool :=
  forallb (fun x => existsb (fun y => bool_decide (x = y)) l') l.

(** The events of a session with the server: the stream events, the
    connection, the job and the end of the channel. *)
Definition session_event (e : Event) : bool :=
  stream_event e
  || match e with
     | EvConnect _ _ _ _ | EvDelete cserver | EvSend cserver (M_COMPILE_FILE _) _ => true
     | _ => false
     end.

(** The ways [build_remote_int] ends when it does not return. *)
Definition session_ends : list ending :=
  [throws_client 2; throws_client 4; throws_client 5; throws_client 6; throws_client 8;
   throws_client 9; throws_client 11; throws_client 12; throws_client 13;
   throws_client 14; throws_client 15; throws_client 16; throws_client 18;
   throws_client 19; throws_client 20; throws_client 21; throws_client 22;
   throws_client 23; throws_client 24; throws_client 25; throws_client 26;
   throws_client 30; throws_remote 101; throws_remote 102; throws_int 31;
   exits; aborts].

(** The files a job's artifacts are received into. *)
Definition artifact_files (job : CompileJob) : list string :=
  [outputFile job; outputFile job +:+ "_icetmp";
   dwo_name (outputFile job); dwo_name (outputFile job) +:+ "_icetmp"].

(** A computation that leaves the file system as it was whenever it
    returns a status other than 0. *)
Definition Idle (m : M Z) : Prop :=
  forall W s, (m W).1 = Ret s -> s ≠ 0%Z -> w_fs (m W).2 = w_fs W.

(** A computation that leaves the protocol version of the server's channel
    as it was. *)
Definition Steady {A} (m : M A) : Prop :=
  forall W, chan_protocol (w_server (m W).2) = chan_protocol (w_server W).

(** The jobs that were sent to the server. *)
Definition jobs_sent (evs : list Event) : list CompileJob :=
  omap (fun e => match e with EvSend cserver (M_COMPILE_FILE j) _ => Some j | _ => None end)
       evs.

Definition any_event : Event -> bool := fun _ => true.

(** The ways the child of a fork ends. *)
Definition child_ends : list ending := [throws_int 31; exits; aborts; kills_itself].

(** The ways [build_remote] ends when it does not return. *)
Definition driver_ends : list ending :=
  [throws_client 0; throws_client 1; throws_client 2; throws_client 4; throws_client 5;
   throws_client 6; throws_client 8; throws_client 9; throws_client 10; throws_client 11;
   throws_client 12; throws_client 13; throws_client 14; throws_client 15;
   throws_client 16; throws_client 18; throws_client 19; throws_client 20;
   throws_client 21; throws_client 22; throws_client 23; throws_client 24;
   throws_client 25; throws_client 26; throws_client 27; throws_client 29;
   throws_client 30; throws_remote 101; throws_remote 102; throws_int 31;
   exits; aborts; kills_itself].

(** The events of the parent of the replicas: the traffic with the local
    daemon, the log, the preprocessor, the forks, the renames and the
    unlinks. *)
Definition parent_event (e : Event) : bool :=
  match e with
  | EvSend local_daemon _ _ | EvRecv local_daemon _ _ | EvLog _ _ | EvRename _ _ _
  | EvUnlink _ | EvCallCpp _ _ | EvFork _ => true
  | _ => false
  end.

(** A computation that does not fork. *)
Definition Forkless {A} (m : M A) : Prop := forall W, w_forks (m W).2 = w_forks W.

(** A computation that, in a process where no fork returns 0, emits parent
    events only and ends in one of [ends] if it does not return. *)
Definition Parent {A} (ends : list ending) (m : M A) : Prop :=
  forall W, Forall (fun pid => pid ≠ 0%Z) (w_forks W) ->
    (exists evs, w_trace (m W).2 = w_trace W ++ evs /\ forallb parent_event evs = true) /\
    (forall x, ending_of (m W).1 = Some x -> x ∈ ends).

(** How often a channel to the server was opened. *)
Definition connects (evs : list Event) : nat :=
  length (omap (fun e => match e with EvConnect _ _ _ true => Some e | _ => None end) evs).

(** The events that neither open nor delete a channel. *)
Definition open_event (e : Event) : bool :=
  match e with
  | EvConnect _ _ _ _ | EvDelete _ => false
  | _ => true
  end.

(** A computation that opens no channel and deletes the channel to the
    server [n a] times when it returns [a], and not at all when it does
    not return. *)
Definition Closing {A} (n : A -> nat) (m : M A) : Prop :=
  forall W, exists evs,
    w_trace (m W).2 = w_trace W ++ evs /\ connects evs = 0 /\
    deletes evs = match (m W).1 with Ret a => n a | _ => 0 end.

(** Whether the character [a] occurs in [s]. *)
Fixpoint has_char (a : ascii) (s : string) : bool :=
  match s with
  | EmptyString => false
  | String b s' => Ascii.eqb a b || has_char a s'
  end.

(** The couples of a list, separated by commas. *)
Fixpoint join_commas (couples : list string) : string :=
  match couples with
  | [] => ""
  | c :: rest =>
      match rest with
      | [] => c
      | _ :: _ => c +:+ "," +:+ join_commas rest
      end
  end.

(** What the loop of [parse_icecc_version] makes of one couple: its
    platform and version after the selection by prefix, if it is selected. *)
Definition select_couple (def_targets : bool) (target_platform prefix couple : string)
    : option (string * string) :=
  let '(platform, version) := split_couple target_platform couple in
  (platform,.) <$> select_version def_targets prefix version.

(** ** Example worlds *)

Definition example_run : local_run :=
  mk_local_run 0 (mk_rusage 0 0 0 0 0 0 0) 0 0 0 0 (fun fs => fs).

(** A configuration with [ICECC_VERSION] set to [icecc_version] and, when
    [test_remotebuild] holds, [ICECC_TEST_REMOTEBUILD] set. *)
Definition example_cfg (icecc_version : string) (test_remotebuild : bool) : Config :=
  mk_config
    (fun k => if String.eqb k "ICECC_VERSION" then Some icecc_version
              else if String.eqb k "ICECC_TEST_REMOTEBUILD"
                   then (if test_remotebuild then Some "1" else None)
                   else None)
    "/home/u" 4242 false 29 true
    (fun _ => false) (fun _ => false) (fun _ => false) (fun _ => [])
    (fun _ => mk_cpp_run 4243 [] (WEXITED 0))
    (fun _ => example_run).

Definition example_world (fs : gmap string inode) (daemon server : list (option Msg))
    (faults : list fault) : World :=
  mk_world fs (mk_chan "localhost" 35 daemon) (mk_chan "buildhost" 35 server)
           [] [] [] faults [] [] [] [] [] "".

Definition archive : inode := regular_file (replicate 500 "x"%byte).

Definition two_archives : gmap string inode :=
  <["/tmp/a.zip" := archive]> (<["/tmp/b.tar.bz2" := archive]> ∅).

Definition example_job : CompileJob :=
  mk_job "/src/foo.c" "out.o" "x86_64" "C" [] 0 false false 0 "".

Definition example_jobs : list CompileJob :=
  [example_job; setOutputFile "/tmp/icecc1.o" example_job;
   setOutputFile "/tmp/icecc2.o" example_job].

Definition example_usecs (host : string) (port : Z) : UseCSMsg :=
  mk_usecs host port 7 "x86_64" true 0.

Definition example_umsgs : list UseCSMsg :=
  [example_usecs "h0" 10245; example_usecs "h1" 10245; example_usecs "h2" 10245].

Definition object (s : string) : inode := regular_file (list_byte_of_string s).

(** Slots 0 and 1 hold the same object, slot 2 another one. *)
Definition divergent_objects : gmap string inode :=
  <["out.o" := object "A"]>
    (<["/tmp/icecc1.o" := object "A"]>
       (<["/tmp/icecc2.o" := object "B"]>
          (<["/tmp/icecc.ix" := object "int main;"]> ∅))).

(** All three slots hold the same object. *)
Definition agreeing_objects : gmap string inode :=
  <["out.o" := object "A"]>
    (<["/tmp/icecc1.o" := object "A"]>
       (<["/tmp/icecc2.o" := object "A"]>
          (<["/tmp/icecc.ix" := object "int main;"]> ∅))).

(** Only slot 0 left an object. *)
Definition lone_object : gmap string inode :=
  <["out.o" := object "A"]> (<["/tmp/icecc.ix" := object "int main;"]> ∅).

Definition reconcile_example (fs : gmap string inode) (exit_codes : list Z) :=
  reconcile 3 example_jobs example_umsgs "/tmp/icecc.ix" false false exit_codes
    (example_world fs [] [] []).

(** An assignment to the loopback address, and the configurations and
    worlds in which the scheduler hands it out. *)
Definition example_envs : Environments := [("x86_64", "/tmp/b.tar.bz2")].

Definition plain_cfg : Config := example_cfg "x86_64:/tmp/b.tar.bz2" false.

Definition override_cfg : Config := example_cfg "x86_64:/tmp/b.tar.bz2" true.

Definition loopback_world (faults : list fault) : World :=
  example_world ∅ [Some (M_USE_CS (example_usecs "127.0.0.1" 0))] [] faults.

Definition override_world : World :=
  example_world ∅ [Some (M_USE_CS (example_usecs "127.0.0.1" 10245))] [] [].

(** A server that has no environment yet and refuses the one it is sent. *)
Definition refusing_usecs : UseCSMsg := mk_usecs "10.0.0.2" 10245 7 "x86_64" false 0.

Definition refusing_world (faults : list fault) : World :=
  example_world two_archives []
    [Some (M_VERIFY_ENV_RESULT false); Some (M_STATUS_TEXT "kernel too old")] faults.

(** A configuration that refuses the servers it cannot verify, and a
    server that speaks protocol 30. *)
Definition strict_cfg : Config :=
  mk_config (getenv plain_cfg) "/home/u" 4242 true 29 true
    (fun _ => false) (fun _ => false) (fun _ => false) (fun _ => [])
    (fun _ => mk_cpp_run 4243 [] (WEXITED 0))
    (fun _ => example_run).

Definition old_server_world : World :=
  mk_world two_archives (mk_chan "localhost" 35 []) (mk_chan "buildhost" 30 [])
           [] [] [] [] [] [] [] [] [] "".

(** A configuration whose preprocessor ends with exit code 1. *)
Definition failing_cpp_cfg : Config :=
  mk_config (getenv plain_cfg) "/home/u" 4242 false 29 true
    (fun _ => false) (fun _ => false) (fun _ => false) (fun _ => [])
    (fun _ => mk_cpp_run 4243 [] (WEXITED 1))
    (fun _ => example_run).

(** A server that answers with the result of a failed compilation. *)
Definition failed_result : CompileResultMsg :=
  mk_result 1 "" "foo.c:1: error" false false.

Definition failing_server_world : World :=
  example_world two_archives [] [Some (M_COMPILE_RESULT failed_result)] [].

(** A scheduler that assigns a server on another host. *)
Definition remote_world : World :=
  example_world two_archives [Some (M_USE_CS (example_usecs "10.0.0.2" 10245))] [] [].

(** A process whose forks succeed, and a scheduler that assigns three
    servers. *)
Definition forking_world : World :=
  mk_world two_archives
    (mk_chan "localhost" 35
       [Some (M_USE_CS (example_usecs "h0" 10245)); Some (M_USE_CS (example_usecs "h1" 10245));
        Some (M_USE_CS (example_usecs "h2" 10245))])
    (mk_chan "buildhost" 35 [])
    [] [] [] [] [] [] [4301; 4302; 4303]%Z [] [] "".


(** * Properties *)

(** ** The path canonicaliser *)

Section Canonical.

#[local] Arguments Ascii.eqb : simpl never.

Lemma find_None_inv pat c s :
  find pat (String c s) = None ->
  starts_with pat (String c s) = false /\ find pat s = None.
Proof.
  cbn [find]. destruct (starts_with pat (String c s)); [discriminate|].
  destruct (find pat s); [discriminate|]. auto.
Qed.

Lemma find_None_intro pat c s :
  starts_with pat (String c s) = false -> find pat s = None ->
  find pat (String c s) = None.
Proof. intros H1 H2. cbn [find]. now rewrite H1, H2. Qed.

Lemma find_Some_inv pat c s i :
  find pat (String c s) = Some i ->
  (starts_with pat (String c s) = true /\ i = 0) \/
  (starts_with pat (String c s) = false /\ exists j, find pat s = Some j /\ i = S j).
Proof.
  cbn [find]. destruct (starts_with pat (String c s)).
  - intros [= <-]. now left.
  - destruct (find pat s) as [j|]; [|discriminate].
    intros [= <-]. right. eauto.
Qed.

Lemma append_String c s t : String c s +:+ t = String c (s +:+ t).
Proof. reflexivity. Qed.

Lemma append_Empty t : "" +:+ t = t.
Proof. reflexivity. Qed.

Ltac chars :=
  rewrite ?append_String, ?append_Empty in *;
  cbn [starts_with] in *;
  repeat match goal with
    | H : context [Ascii.eqb ?a ?b] |- _ => destruct (Ascii.eqb_spec a b); subst
    | |- context [Ascii.eqb ?a ?b] => destruct (Ascii.eqb_spec a b); subst
    end; cbn [andb] in *; try congruence.

Ltac peel_find :=
  first [ assumption
        | match goal with
          | H : find _ (String _ _) = None |- _ =>
              apply find_None_inv in H as [_ H]; peel_find
          end ].

Ltac inv_find :=
  repeat match goal with
    | H : find _ (String _ _) = Some _ |- _ =>
        apply find_Some_inv in H as [[H ?]|[? (? & H & ?)]];
        try discriminate; simplify_eq
    end.

Ltac preserve_free IH :=
  let Hq := fresh "Hq" in let Hp := fresh "Hp" in
  let Hp1 := fresh "Hp1" in let Hp2 := fresh "Hp2" in
  let j := fresh "j" in let Hj := fresh "Hj" in
  intros Hq Hp;
  apply find_None_inv in Hp as [Hp1 Hp2];
  apply find_Some_inv in Hq as [[Hq ->]|[Hq (j & Hj & ->)]];
  [ match goal with s : string |- _ =>
      destruct s as [|? [|? ?]]; chars; cbn [replace drop_str]; chars;
      peel_find
    end
  | cbn [replace]; apply find_None_intro; [|now apply IH];
    match goal with s : string |- _ =>
      destruct j as [|[|j]]; destruct s as [|? [|? ?]];
      cbn [replace drop_str]; chars; try (vm_compute in Hj; discriminate);
      try solve [inv_find; chars]
    end ].

(** A rewrite of a later pass never brings back a pattern that an earlier
    pass removed. *)
Lemma dotdot_free_after_dot s i :
  find "/./" s = Some i -> find "/.." s = None ->
  find "/.." (replace i 3 "/" s) = None.
Proof.
  revert i. induction s as [|c s IH]; intros i; [discriminate|].
  preserve_free IH.
Qed.

Lemma dotdot_free_after_slash s i :
  find "//" s = Some i -> find "/.." s = None ->
  find "/.." (replace i 2 "/" s) = None.
Proof.
  revert i. induction s as [|c s IH]; intros i; [discriminate|].
  preserve_free IH.
Qed.

Lemma dot_free_after_slash s i :
  find "//" s = Some i -> find "/./" s = None ->
  find "/./" (replace i 2 "/" s) = None.
Proof.
  revert i. induction s as [|c s IH]; intros i; [discriminate|].
  preserve_free IH.
Qed.

Lemma starts_with_length pat s :
  starts_with pat s = true ->
  String.length (drop_str (String.length pat) s) + String.length pat = String.length s.
Proof.
  revert s. induction pat as [|a pat IH]; intros [|b s] H; cbn in *; try easy; try lia.
  apply andb_prop in H as [_ H]. apply IH in H. lia.
Qed.

Lemma replace_length pat s i :
  find pat s = Some i ->
  String.length (replace i (String.length pat) "/" s) + String.length pat
  = String.length s + 1.
Proof.
  revert i. induction s as [|c s IH]; intros i H.
  - cbn [find] in H. destruct (starts_with pat "") eqn:E; [|discriminate].
    injection H as <-. destruct pat; [reflexivity|discriminate].
  - apply find_Some_inv in H as [[H ->]|[_ (j & Hj & ->)]].
    + apply starts_with_length in H. cbn [replace]. chars. cbn [String.length] in *. lia.
    + cbn [replace String.length]. apply IH in Hj. lia.
Qed.

Lemma rewrite_while_fixed pat n s fuel :
  find pat s = None -> rewrite_while fuel pat n s = s.
Proof. intros H. destruct fuel; cbn; [|rewrite H]; reflexivity. Qed.

(** With the length of the string as fuel the loop runs to its exit: the
    pattern no longer occurs. *)
Lemma rewrite_while_done pat fuel s :
  2 <= String.length pat -> String.length s <= fuel ->
  find pat (rewrite_while fuel pat (String.length pat) s) = None.
Proof.
  intros Hpat. revert s. induction fuel as [|fuel IH]; intros s Hlen.
  - destruct s; [|cbn in Hlen; lia]. cbn.
    destruct pat as [|? [|? ?]]; cbn in Hpat; try lia. reflexivity.
  - cbn [rewrite_while]. destruct (find pat s) as [i|] eqn:E; [|exact E].
    apply IH. apply replace_length in E. lia.
Qed.

Lemma rewrite_while_keeps (P : string -> Prop) pat n fuel s :
  (forall s i, find pat s = Some i -> P s -> P (replace i n "/" s)) ->
  P s -> P (rewrite_while fuel pat n s).
Proof.
  intros step. revert s. induction fuel as [|fuel IH]; intros s Hs; [exact Hs|].
  cbn [rewrite_while]. destruct (find pat s) eqn:E; eauto.
Qed.

Lemma replace_absolute pat n s i :
  starts_with "/" pat = true ->
  find pat s = Some i -> absolute s -> absolute (replace i n "/" s).
Proof.
  unfold absolute. intros Hpat H Hs. destruct s as [|c s]; [discriminate|].
  destruct i; cbn [replace]; chars.
Qed.

Lemma canonical_fixed cwd s :
  absolute s -> find "/.." s = None -> find "/./" s = None -> find "//" s = None ->
  get_absfilename cwd s = s.
Proof.
  unfold absolute, get_absfilename. intros Ha H1 H2 H3.
  destruct s as [|c s]; [reflexivity|]. chars.
  destruct (Ascii.eqb_spec "/" "/") as [_|]; [|congruence].
  rewrite (rewrite_while_fixed "/.." _ _ _ H1).
  rewrite (rewrite_while_fixed "/./" _ _ _ H2).
  now rewrite (rewrite_while_fixed "//" _ _ _ H3).
Qed.

(** C7: for every input path, applying the canonicaliser to its own result
    changes nothing, provided the working directory that [getcwd] reports is
    an absolute path. *)
Theorem get_absfilename_idempotent cwd p :
  absolute cwd ->
  get_absfilename cwd (get_absfilename cwd p) = get_absfilename cwd p.
Proof.
  intros Hcwd. destruct p as [|c0 p]; [reflexivity|].
  cbn [get_absfilename].
  set (file0 := if Ascii.eqb c0 "/" then String c0 p else cwd +:+ "/" +:+ String c0 p).
  assert (H0 : absolute file0).
  { unfold file0, absolute in *. destruct (Ascii.eqb_spec c0 "/"); subst.
    - reflexivity.
    - destruct cwd; [discriminate|]. chars. }
  set (file1 := rewrite_while (String.length file0) "/.." 3 file0).
  set (file2 := rewrite_while (String.length file1) "/./" 3 file1).
  set (file3 := rewrite_while (String.length file2) "//" 2 file2).
  assert (A1 : absolute file1)
    by (apply rewrite_while_keeps; [intros ? ? Hf Hs; apply (replace_absolute _ _ _ _) with (2 := Hf) (3 := Hs); reflexivity|exact H0]).
  assert (A2 : absolute file2)
    by (apply rewrite_while_keeps; [intros ? ? Hf Hs; apply (replace_absolute _ _ _ _) with (2 := Hf) (3 := Hs); reflexivity|exact A1]).
  assert (A3 : absolute file3)
    by (apply rewrite_while_keeps; [intros ? ? Hf Hs; apply (replace_absolute _ _ _ _) with (2 := Hf) (3 := Hs); reflexivity|exact A2]).
  assert (F1 : find "/.." file1 = None)
    by (apply (rewrite_while_done "/.."); cbn; lia).
  assert (F2 : find "/./" file2 = None)
    by (apply (rewrite_while_done "/./"); cbn; lia).
  assert (F3 : find "//" file3 = None)
    by (apply (rewrite_while_done "//"); cbn; lia).
  assert (G2 : find "/.." file2 = None)
    by (apply (rewrite_while_keeps (fun s => find "/.." s = None));
        [apply dotdot_free_after_dot|exact F1]).
  assert (G3 : find "/.." file3 = None)
    by (apply (rewrite_while_keeps (fun s => find "/.." s = None));
        [apply dotdot_free_after_slash|exact G2]).
  assert (K3 : find "/./" file3 = None)
    by (apply (rewrite_while_keeps (fun s => find "/./" s = None));
        [apply dot_free_after_slash|exact F2]).
  now apply canonical_fixed.
Qed.

Lemma get_absfilename_idempotent_witness :
  absolute "/home/u" /\
  get_absfilename "/home/u" (get_absfilename "/home/u" "a/../b/./c//d")
  = get_absfilename "/home/u" "a/../b/./c//d".
Proof.
  split; [reflexivity|].
  apply (get_absfilename_idempotent "/home/u" "a/../b/./c//d"). reflexivity.
Defined.

End Canonical.

(** ** The environment catalog *)

Ltac munfold :=
  unfold mbind, M_bind, mret, M_ret, bind, ret, gets, modify, throw, stop, when,
    log_perror, log_error, log_warning, log_info, log in *.

Lemma bind_run {A B} (m : M A) (k : A -> M B) W :
  (m ≫= k) W =
  match m W with
  | (Ret a, W') => k a W'
  | (Throw e, W') => (Throw e, W')
  | (Halt h, W') => (Halt h, W')
  end.
Proof. reflexivity. Qed.

Ltac wsimpl :=
  cbn [emit emits set_fs set_faults set_chan set_stdin add_stdout add_stderr set_rand
       set_tmpnames set_forks set_waits set_remote_daemon get_chan
       w_fs w_daemon w_server w_stdin w_stdout w_stderr w_faults w_rand w_tmpnames
       w_forks w_waits w_trace w_remote_daemon fst snd] in *.

Lemma mret_run {A} (a : A) W : (mret a : M A) W = (Ret a, W).
Proof. reflexivity. Qed.

Lemma log_run lvl text W : log lvl text W = (Ret tt, emit (EvLog lvl text) W).
Proof. reflexivity. Qed.

Lemma gets_run {A} (f : World -> A) W : gets f W = (Ret (f W), W).
Proof. reflexivity. Qed.

Section Catalog.

Lemma find_char_from_bounds p s i pos k :
  find_char_from p s i pos = Some k ->
  pos <= k /\ i <= k /\ k < i + String.length s.
Proof.
  revert i. induction s as [|b s IH]; intros i H; cbn in H; [discriminate|].
  destruct (Nat.leb_spec pos i); cbn [andb] in H.
  - destruct (p b).
    + injection H as <-. cbn. lia.
    + apply IH in H. cbn. lia.
  - apply IH in H. cbn. lia.
Qed.

Lemma find_char_from_sat p s i pos k :
  find_char_from p s i pos = Some k ->
  exists c, String.get (k - i) s = Some c /\ p c = true.
Proof.
  revert i. induction s as [|b s IH]; intros i H; cbn in H; [discriminate|].
  destruct (Nat.leb pos i && p b) eqn:E.
  - injection H as <-. apply andb_prop in E as [_ E].
    exists b. rewrite Nat.sub_diag. auto.
  - pose proof (find_char_from_bounds _ _ _ _ _ H) as (_ & Hk & _).
    apply IH in H as (c & Hc & Hp). exists c. split; [|exact Hp].
    replace (k - i) with (S (k - S i)) by lia. exact Hc.
Qed.

(** The tokenizer moves forward: the next couple starts after the comma
    that ended this one. *)
Lemma tokenizer_progress s q k :
  find_first_of "," (Some q) s = Some k ->
  forall k', find_first_not_of "," (Some k) s = Some k' -> k < k'.
Proof.
  unfold find_first_of, find_first_not_of. intros H k' H'.
  pose proof (find_char_from_bounds _ _ _ _ _ H') as (Hle & _).
  apply find_char_from_sat in H as (c & Hc & Hp).
  apply find_char_from_sat in H' as (c' & Hc' & Hp').
  rewrite Nat.sub_0_r in *.
  destruct (decide (k = k')) as [->|]; [|lia].
  rewrite Hc in Hc'. injection Hc' as <-. cbv beta in Hp'. now rewrite Hp in Hp'.
Qed.

(** What [check_env] does, read off the file system. *)
Lemma check_env_run platform version envs platforms W :
  check_env platform version envs platforms W =
  if bool_decide (platform ∈ platforms)
  then (Ret (envs, platforms), emit (EvLog Error (two_environments platform version)) W)
  else if installable (w_fs W) version
       then (Ret (envs ++ [(platform, version)], platforms ++ [platform]), W)
       else (Ret (envs, platforms), emit (EvLog Error (not_installable version)) W).
Proof.
  unfold check_env, installable, access_R_OK, lstat. munfold.
  case_bool_decide; [reflexivity|]. cbn.
  destruct (w_fs W !! version) as [f|] eqn:E; cbn; rewrite ?E; [|reflexivity].
  destruct (i_readable f); cbn; rewrite ?E; [|reflexivity].
  destruct (S_ISREG f); cbn; [|reflexivity].
  destruct (Z.ltb_spec (st_size f) 500), (Z.leb_spec 500 (st_size f)); try lia; reflexivity.
Qed.

Lemma emits_nil W : emits [] W = W.
Proof. destruct W; unfold emits; cbn. now rewrite app_nil_r. Qed.

Lemma emits_cons e evs W : emits evs (emit e W) = emits (e :: evs) W.
Proof. unfold emits, emit; cbn. now rewrite <- app_assoc. Qed.

Lemma tok_inv_next fuel s lp :
  tok_inv (S fuel) s (Some lp) (find_first_of "," (Some lp) s) ->
  let pos := find_first_of "," (Some lp) s in
  let lastPos' := find_first_not_of "," pos s in
  tok_inv fuel s lastPos' (find_first_of "," lastPos' s).
Proof.
  intros (Hlt & Hfuel & _) pos lastPos'. subst lastPos'.
  destruct pos as [q|] eqn:Hq; subst pos.
  - destruct (find_first_not_of "," (Some q) s) as [k|] eqn:Hk.
    + pose proof (tokenizer_progress _ _ _ Hq _ Hk).
      unfold find_first_of in Hq. apply find_char_from_bounds in Hq.
      unfold find_first_not_of in Hk. apply find_char_from_bounds in Hk.
      cbn. repeat split; lia.
    + cbn. split; [reflexivity|lia].
  - cbn. split; [reflexivity|lia].
Qed.

(** The loop of [parse_icecc_version] terminates within its fuel and
    returns the scan of the selected couples; it only adds log lines. *)
Lemma parse_loop_run fuel s target prefix dt lastPos pos envs W :
  tok_inv fuel s lastPos pos ->
  let entries := selected_couples fuel s target prefix dt lastPos pos in
  parse_loop fuel s target prefix dt lastPos pos envs (envs.*1) W =
  (Ret (scan_envs (w_fs W) entries envs), emits (scan_log (w_fs W) entries envs) W).
Proof.
  revert lastPos pos envs W. induction fuel as [|fuel IH]; intros lastPos pos envs W Hinv.
  - destruct lastPos; cbn in Hinv; lia.
  - destruct lastPos as [lp|].
    + pose proof Hinv as (_ & _ & ->).
      apply tok_inv_next in Hinv. cbv zeta in Hinv.
      cbn [parse_loop selected_couples].
      destruct (split_couple target _) as [platform version].
      destruct (select_version dt prefix version) as [v|].
      * change (mbind ?k ?m) with (bind m k). unfold bind at 1.
        rewrite check_env_run. cbn [scan_envs scan_log].
        case_bool_decide.
        -- rewrite IH by exact Hinv. cbn. now rewrite emits_cons.
        -- destruct (installable (w_fs W) v).
           ++ replace (envs.*1 ++ [platform]) with ((envs ++ [(platform, v)]).*1)
                by now rewrite fmap_app.
              now rewrite IH by exact Hinv.
           ++ rewrite IH by exact Hinv. cbn. now rewrite emits_cons.
      * now rewrite IH by exact Hinv.
    + destruct Hinv as [-> _]. cbn. now rewrite emits_nil.
Qed.

Lemma scan_envs_from fs entries envs p v :
  (p, v) ∈ scan_envs fs entries envs ->
  (p, v) ∈ envs \/ ((p, v) ∈ entries /\ installable fs v = true).
Proof.
  revert envs. induction entries as [|[p' v'] rest IH]; intros envs H; cbn in H.
  - now left.
  - case_bool_decide.
    + apply IH in H as [H|[H ?]]; [now left|right]. split; [now right|done].
    + destruct (installable fs v') eqn:E.
      * apply IH in H as [H|[H ?]].
        -- apply elem_of_app in H as [H|H]; [now left|right].
           apply list_elem_of_singleton in H as [= -> ->]. split; [left|done].
        -- right. split; [now right|done].
      * apply IH in H as [H|[H ?]]; [now left|right]. split; [now right|done].
Qed.

Lemma scan_envs_keeps fs entries envs x :
  x ∈ envs -> x ∈ scan_envs fs entries envs.
Proof.
  revert envs. induction entries as [|[p' v'] rest IH]; intros envs H; cbn; [done|].
  case_bool_decide; [auto|]. destruct (installable fs v'); [|auto].
  apply IH. apply elem_of_app. now left.
Qed.

Lemma scan_envs_NoDup fs entries envs :
  NoDup (envs.*1) -> NoDup ((scan_envs fs entries envs).*1).
Proof.
  revert envs. induction entries as [|[p' v'] rest IH]; intros envs H; cbn; [done|].
  case_bool_decide; [auto|]. destruct (installable fs v'); [|auto].
  apply IH. rewrite fmap_app. apply NoDup_app. split; [done|]. cbn. split.
  - intros x Hx Hy. apply list_elem_of_singleton in Hy as ->. contradiction.
  - apply NoDup_singleton.
Qed.

Lemma scan_log_dup fs entries envs p v v' :
  (p, v) ∈ envs -> (p, v') ∈ entries ->
  EvLog Error (two_environments p v') ∈ scan_log fs entries envs.
Proof.
  revert envs. induction entries as [|[p1 v1] rest IH]; intros envs He Hin.
  - inversion Hin.
  - cbn. apply elem_of_cons in Hin as [[= <- <-]|Hin].
    + rewrite bool_decide_true; [left|].
      apply list_elem_of_fmap. now exists (p, v).
    + case_bool_decide; [right; eauto|].
      destruct (installable fs v1); [|right; eauto].
      apply (IH (envs ++ [(p1, v1)])); [|done]. apply elem_of_app. now left.
Qed.

(** Of the selected couples that name one platform, the first whose file
    passes the three checks is the one that stays, and every later one is
    logged and dropped. *)
Lemma scan_first_installable fs pre post envs p v :
  p ∉ envs.*1 -> installable fs v = true ->
  (forall v', (p, v') ∈ pre -> installable fs v' = false) ->
  (p, v) ∈ scan_envs fs (pre ++ (p, v) :: post) envs /\
  forall v'', (p, v'') ∈ post ->
    EvLog Error (two_environments p v'') ∈ scan_log fs (pre ++ (p, v) :: post) envs.
Proof.
  revert envs. induction pre as [|[p1 v1] pre IH]; intros envs Hp Hv Hpre.
  - cbn. rewrite bool_decide_false by done. rewrite Hv. split.
    + apply scan_envs_keeps. apply elem_of_app. right. now left.
    + intros v'' Hin. apply (scan_log_dup _ _ _ p v); [|done].
      apply elem_of_app. right. now left.
  - cbn. case_bool_decide.
    + destruct (IH envs) as [H1 H2]; [done|done| |].
      { intros v' Hv'. apply Hpre. now right. }
      split; [done|]. intros v'' Hin. right. auto.
    + destruct (installable fs v1) eqn:E.
      * assert (p ≠ p1).
        { intros ->. rewrite (Hpre v1) in E; [discriminate|left]. }
        apply IH; [|done|].
        -- rewrite fmap_app. intros Hx. apply elem_of_app in Hx as [Hx|Hx]; [done|].
           cbn in Hx. apply list_elem_of_singleton in Hx. done.
        -- intros v' Hv'. apply Hpre. now right.
      * destruct (IH envs) as [H1 H2]; [done|done| |].
        { intros v' Hv'. apply Hpre. now right. }
        split; [done|]. intros v'' Hin. right. auto.
Qed.

Lemma take_drop_str n s : take_str n s +:+ drop_str n s = s.
Proof.
  revert s. induction n as [|n IH]; intros [|c s]; cbn [take_str drop_str];
    rewrite ?append_String, ?append_Empty; try reflexivity.
  now rewrite IH.
Qed.

(** [endswith] succeeds only on a string that ends with the suffix. *)
Lemma endswith_Some orig suff stem :
  endswith orig suff = Some stem -> orig = stem +:+ suff.
Proof.
  unfold endswith, substr. intros H.
  destruct (Nat.ltb _ _); [|discriminate]. cbn [andb] in H.
  destruct (String.eqb_spec (drop_str (String.length orig - String.length suff) orig) suff)
    as [E|]; [|discriminate].
  injection H as <-. cbn [drop_str]. rewrite <- E at 2.
  symmetry. apply take_drop_str.
Qed.

Lemma rip_suffixes_from it r x :
  x ∈ env2 (rip_suffixes it r) ->
  x ∈ env2 r \/
  exists stem suff, suff ∈ suffs /\ endswith it.2 suff = Some stem /\
                    x = (it.1, find_basename stem).
Proof.
  unfold rip_suffixes, suffs. cbn [fold_left].
  assert (Hstep : forall suff r' , suff ∈ suffs ->
    (x ∈ env2 r' -> x ∈ env2 r \/ exists stem suff, suff ∈ suffs /\
        endswith it.2 suff = Some stem /\ x = (it.1, find_basename stem)) ->
    x ∈ env2 (match endswith it.2 suff with
              | Some versfile =>
                  mk_ripped (env2 r' ++ [(it.1, find_basename versfile)])
                            (<[it.1 := find_basename versfile]> (version_map r'))
                            (<[it.1 := it.2]> (versionfile_map r'))
              | None => r'
              end) ->
    x ∈ env2 r \/ exists stem suff, suff ∈ suffs /\
        endswith it.2 suff = Some stem /\ x = (it.1, find_basename stem)).
  { intros suff r' Hs Hr'. destruct (endswith it.2 suff) as [stem|] eqn:E; [|exact Hr'].
    cbn. intros Hx. apply elem_of_app in Hx as [Hx|Hx]; [auto|].
    apply list_elem_of_singleton in Hx. right. eauto. }
  intros H.
  eapply Hstep in H; [exact H|unfold suffs; set_solver|]. clear H. intros H.
  eapply Hstep in H; [exact H|unfold suffs; set_solver|]. clear H. intros H.
  eapply Hstep in H; [exact H|unfold suffs; set_solver|]. clear H. intros H.
  eapply Hstep in H; [exact H|unfold suffs; set_solver|]. clear H. intros H.
  now left.
Qed.

Lemma rip_out_paths_from envs vfm x :
  x ∈ env2 (rip_out_paths envs vfm) ->
  exists path stem suff, (x.1, path) ∈ envs /\ suff ∈ suffs /\
    endswith path suff = Some stem /\ x.2 = find_basename stem.
Proof.
  unfold rip_out_paths.
  assert (G : forall r, x ∈ env2 (fold_left (fun r it => rip_suffixes it r) envs r) ->
    x ∈ env2 r \/ exists path stem suff, (x.1, path) ∈ envs /\ suff ∈ suffs /\
      endswith path suff = Some stem /\ x.2 = find_basename stem).
  { induction envs as [|it envs IH]; intros r H; cbn in H; [now left|].
    apply IH in H as [H|(path & stem & suff & H1 & H2)].
    - apply rip_suffixes_from in H as [H|(stem & suff & H1 & H2 & ->)]; [now left|].
      right. exists it.2, stem, suff. destruct it. cbn. split; [left|done].
    - right. exists path, stem, suff. split; [now right|done]. }
  intros H. apply G in H as [H|H]; [cbn in H; inversion H|exact H].
Qed.

Lemma installable_inv fs path :
  installable fs path = true ->
  exists f, fs !! path = Some f /\ i_readable f = true /\ S_ISREG f = true /\
            (500 <= st_size f)%Z.
Proof.
  unfold installable. destruct (fs !! path) as [f|]; [|discriminate].
  intros H. apply andb_prop in H as [H H3]. apply andb_prop in H as [H1 H2].
  exists f. repeat split; try done. now apply Z.leb_le.
Qed.

(** C8 (amended): every entry of the catalog comes from an archive that is
    readable, a regular file for [lstat], at least 500 bytes long and named
    with one of the four suffixes.  Among the couples that pass the prefix
    selection and name one platform, the first whose file passes the three
    file checks is the one [parse_icecc_version] keeps, whether or not its
    name has a recognised suffix, and every later one is dropped with a log
    line. *)
Theorem catalog_checked cfg target prefix icecc W :
  getenv cfg "ICECC_VERSION" = Some icecc -> icecc ≠ "" ->
  exists envs evs,
    parse_icecc_version cfg target prefix W = (Ret envs, emits evs W) /\
    catalog cfg target prefix W = (Ret (rip_out_paths envs ∅), emits evs W) /\
    (forall plat ver, (plat, ver) ∈ env2 (rip_out_paths envs ∅) ->
       exists path stem suff f,
         (plat, path) ∈ envs /\
         w_fs W !! path = Some f /\ i_readable f = true /\ S_ISREG f = true /\
         (500 <= st_size f)%Z /\
         suff ∈ suffs /\ path = stem +:+ suff /\ ver = find_basename stem) /\
    NoDup (envs.*1) /\
    (forall pre plat path post,
       selected_entries icecc target prefix = pre ++ (plat, path) :: post ->
       installable (w_fs W) path = true ->
       (forall path', (plat, path') ∈ pre -> installable (w_fs W) path' = false) ->
       (plat, path) ∈ envs /\
       forall path'', (plat, path'') ∈ post ->
         EvLog Error (two_environments plat path'') ∈ evs).
Proof.
  intros Henv Hne.
  set (entries := selected_entries icecc target prefix).
  exists (scan_envs (w_fs W) entries []), (scan_log (w_fs W) entries []).
  assert (Hparse : parse_icecc_version cfg target prefix W
                   = (Ret (scan_envs (w_fs W) entries []),
                      emits (scan_log (w_fs W) entries []) W)).
  { unfold parse_icecc_version. rewrite Henv.
    destruct (String.eqb_spec icecc ""); [done|].
    apply (parse_loop_run _ _ _ _ _ _ _ []).
    unfold tok_inv. destruct (find_first_not_of "," (Some 0) icecc) as [lp|] eqn:E.
    - unfold find_first_not_of in E. apply find_char_from_bounds in E.
      repeat split; lia.
    - split; [reflexivity|lia]. }
  split; [exact Hparse|]. split.
  { unfold catalog. change (mbind ?k ?m) with (bind m k). unfold bind.
    now rewrite Hparse. }
  split; [|split].
  - intros plat ver Hin.
    apply rip_out_paths_from in Hin as (path & stem & suff & H1 & H2 & H3 & H4).
    cbn in H1, H4. pose proof H1 as H1'.
    apply scan_envs_from in H1' as [H1'|[_ Hi]]; [inversion H1'|].
    apply installable_inv in Hi as (f & Hf & Hr & Hreg & Hsz).
    exists path, stem, suff, f. repeat split; try done.
    now apply endswith_Some.
  - apply scan_envs_NoDup. constructor.
  - intros pre plat path post Hent Hi Hpre. fold entries in Hent. rewrite Hent.
    apply scan_first_installable; [|done|done]. cbn. apply not_elem_of_nil.
Qed.

Lemma catalog_checked_witness :
  exists envs evs,
    parse_icecc_version (example_cfg "x86:/tmp/b.tar.bz2,x86:/tmp/a.zip" false)
      "x86_64" "" (example_world two_archives [] [] [])
    = (Ret envs, emits evs (example_world two_archives [] [] [])) /\
    env2 (rip_out_paths envs ∅) = [("x86", "b")] /\
    EvLog Error (two_environments "x86" "/tmp/a.zip") ∈ evs.
Proof.
  destruct (catalog_checked (example_cfg "x86:/tmp/b.tar.bz2,x86:/tmp/a.zip" false)
              "x86_64" "" "x86:/tmp/b.tar.bz2,x86:/tmp/a.zip"
              (example_world two_archives [] [] []))
    as (envs & evs & Hparse & _ & _ & _ & Hfirst); [reflexivity|discriminate|].
  exists envs, evs. split; [exact Hparse|].
  destruct (Hfirst [] "x86" "/tmp/b.tar.bz2" [("x86", "/tmp/a.zip")]) as [_ Hlog];
    [reflexivity|reflexivity|intros ? H; inversion H|].
  split; [|apply Hlog; left].
  vm_compute in Hparse. injection Hparse as <- _. reflexivity.
Defined.

(** C8 as stated fails: both couples name platform x86, the file of the
    second is readable, regular, 500 bytes long and ends in [.tar.bz2], the
    name of the first ends in no recognised suffix; the first is the one
    kept by the duplicate check, the suffix check then drops it, and the
    catalog has no entry for x86. *)
Lemma catalog_first_accepted_counterexample :
  selected_entries "x86:/tmp/a.zip,x86:/tmp/b.tar.bz2" "x86_64" ""
  = [("x86", "/tmp/a.zip"); ("x86", "/tmp/b.tar.bz2")] /\
  installable two_archives "/tmp/b.tar.bz2" = true /\
  endswith "/tmp/b.tar.bz2" ".tar.bz2" = Some "/tmp/b" /\
  omap (endswith "/tmp/a.zip") suffs = [] /\
  fst (catalog (example_cfg "x86:/tmp/a.zip,x86:/tmp/b.tar.bz2" false) "x86_64" ""
         (example_world two_archives [] [] []))
  = Ret (mk_ripped [] ∅ ∅) /\
  w_trace (snd (catalog (example_cfg "x86:/tmp/a.zip,x86:/tmp/b.tar.bz2" false)
                  "x86_64" "" (example_world two_archives [] [] [])))
  = [EvLog Error (two_environments "x86" "/tmp/b.tar.bz2")].
Proof. repeat split; vm_compute; reflexivity. Qed.

End Catalog.

(** ** The replication driver: reconciliation *)

Section Reconcile.

Variables (jobs : list CompileJob) (umsgs : list UseCSMsg).
Variables (preproc : string) (has_split_dwarf : bool).

Abbreviation out i := (outputFile (jobs !!! i)).

Lemma unlinked_paths_app l1 l2 :
  unlinked_paths (l1 ++ l2) = unlinked_paths l1 ++ unlinked_paths l2.
Proof. apply omap_app. Qed.

Lemma renames_app l1 l2 : renames (l1 ++ l2) = renames l1 ++ renames l2.
Proof. apply omap_app. Qed.

(** What [unlink_output] does to the file system and the trace. *)
Lemma unlink_output_run output W :
  exists W',
    unlink_output has_split_dwarf output W = (Ret tt, W') /\
    w_fs W' = (if has_split_dwarf then delete (dwo_name output) else id)
                (delete output (w_fs W)) /\
    w_trace W' = w_trace W ++ EvUnlink output ::
                   (if has_split_dwarf then [EvUnlink (dwo_name output)] else []).
Proof.
  unfold unlink_output, unlink. munfold. destruct has_split_dwarf; cbn.
  - eexists. split; [reflexivity|]. cbn. split; [reflexivity|].
    now rewrite <- app_assoc.
  - eexists. split; [reflexivity|]. cbn. auto.
Qed.

Lemma rename_run old new W :
  exists ok z W',
    rename old new W = (Ret z, W') /\
    w_trace W' = w_trace W ++ [EvRename old new ok].
Proof.
  unfold rename, pop_fault. munfold.
  destruct (w_faults W) as [|f l]; cbn;
    destruct (w_fs W !! old); cbn; try destruct (is_ok f); cbn;
    do 3 eexists; (split; [reflexivity|]); cbn; reflexivity.
Qed.

(** The branch taken on an MD5 mismatch at slot [i]. *)
Lemma md5_mismatch_run (m : string) (exit_codes : list Z) W :
  exists oks W' evs,
    (log_error m;;
     rename (out 0) (out 0 +:+ ".caught");;
     rename preproc (preproc +:+ ".caught");;
     when has_split_dwarf
       (rename (dwo_name (out 0)) (dwo_name (out 0) +:+ ".caught");; mret tt);;
     mret (<[0 := (-1)%Z]> exit_codes)) W
    = (Ret (<[0 := (-1)%Z]> exit_codes), W') /\
    w_trace W' = w_trace W ++ evs /\
    renames evs = caught_renames (out 0) preproc has_split_dwarf oks /\
    unlinked_paths evs = [].
Proof.
  rewrite bind_run. unfold log_error. rewrite log_run.
  rewrite bind_run.
  destruct (rename_run (out 0) (out 0 +:+ ".caught") (emit (EvLog Error m) W))
    as (ok1 & z1 & W1 & -> & T1).
  rewrite bind_run.
  destruct (rename_run preproc (preproc +:+ ".caught") W1) as (ok2 & z2 & W2 & -> & T2).
  unfold caught_renames, when. destruct has_split_dwarf.
  - rewrite bind_run. rewrite bind_run.
    destruct (rename_run (dwo_name (out 0)) (dwo_name (out 0) +:+ ".caught") W2)
      as (ok3 & z3 & W3 & -> & T3).
    exists (ok1, ok2, ok3), W3. eexists. split; [reflexivity|].
    rewrite T3, T2, T1. cbn. rewrite <- !app_assoc. split; [reflexivity|]. done.
  - exists (ok1, ok2, false), W2. eexists. split; [reflexivity|].
    rewrite T2, T1. cbn. rewrite <- !app_assoc. split; [reflexivity|]. done.
Qed.

Lemma md5_for_file_delete fs p q :
  p ≠ q -> md5_for_file (delete p fs) q = md5_for_file fs q.
Proof. intros H. unfold md5_for_file, fopen. now rewrite lookup_delete_ne. Qed.

(** If the loop reaches a slot whose digest differs from slot 0's, or one
    before it, it ends with the three renames and the overwritten exit code. *)
Lemma reconcile_loop_mismatch n i first_md5 (exit_codes : list Z) W k :
  exit_codes !!! 0 = 0%Z -> i <= k < i + n -> exit_codes !!! k = 0%Z ->
  (forall j, i <= j < k -> exit_codes !!! j = 0%Z \/ exit_codes !!! j = 42%Z) ->
  md5_for_file (w_fs W) (out k) ≠ first_md5 ->
  (forall j, i <= j < k ->
     out j ≠ out k /\ (has_split_dwarf = true -> dwo_name (out j) ≠ out k)) ->
  exists oks W' evs,
    reconcile_loop n i jobs umsgs preproc has_split_dwarf first_md5 exit_codes W
    = (Ret (<[0 := (-1)%Z]> exit_codes), W') /\
    w_trace W' = w_trace W ++ evs /\
    renames evs = caught_renames (out 0) preproc has_split_dwarf oks.
Proof.
  revert i W. induction n as [|n IH]; intros i W H0 Hk Hck Hbefore Hmd5 Hfresh; [lia|].
  cbn [reconcile_loop]. rewrite H0. cbn [Z.eqb].
  destruct (decide (i = k)) as [->|Hne].
  - rewrite Hck. cbn [Z.eqb negb].
    rewrite bind_run, gets_run.
    destruct (String.eqb_spec (md5_for_file (w_fs W) (out k)) first_md5); [done|].
    cbn [negb].
    destruct (md5_mismatch_run
                (md5_mismatch jobs umsgs (md5_for_file (w_fs W) (out k)) first_md5 k)
                exit_codes W) as (oks & W' & evs & Hrun & Ht & Hr & _).
    exists oks, W', evs. auto.
  - destruct (Hbefore i) as [Hi|Hi]; [lia| |].
    + rewrite Hi. cbn [Z.eqb negb].
      rewrite bind_run, gets_run.
      destruct (String.eqb_spec (md5_for_file (w_fs W) (out i)) first_md5); cbn [negb].
      * rewrite bind_run.
        destruct (unlink_output_run (out i) W) as (W1 & -> & Hfs & Ht).
        destruct (IH (S i) W1) as (oks & W' & evs & Hrun & Ht' & Hr); try done; try lia.
        { intros j Hj. apply Hbefore. lia. }
        { rewrite Hfs. destruct (Hfresh i) as [F1 F2]; [lia|].
          destruct has_split_dwarf; cbn.
          - rewrite !md5_for_file_delete; auto.
          - rewrite md5_for_file_delete; auto. }
        { intros j Hj. apply Hfresh. lia. }
        exists oks, W'. eexists. split; [exact Hrun|]. rewrite Ht', Ht.
        rewrite <- app_assoc. split; [reflexivity|].
        rewrite renames_app, <- Hr. destruct has_split_dwarf; reflexivity.
      * destruct (md5_mismatch_run
                    (md5_mismatch jobs umsgs (md5_for_file (w_fs W) (out i)) first_md5 i)
                    exit_codes W) as (oks & W' & evs & Hrun & Ht & Hr & _).
        exists oks, W', evs. auto.
    + rewrite Hi. cbn [Z.eqb].
      destruct (IH (S i) W) as (oks & W' & evs & Hrun & Ht' & Hr); try done; try lia.
      { intros j Hj. apply Hbefore. lia. }
      { intros j Hj. apply Hfresh. lia. }
      exists oks, W', evs. auto.
Qed.

Lemma insert_head_total (codes : list Z) c0 z :
  codes !! 0 = Some c0 -> <[0 := z]> codes !!! 0 = z.
Proof. destruct codes; [discriminate|reflexivity]. Qed.

Lemma unlink_run path W :
  unlink path W = (Ret tt, emit (EvUnlink path) (set_fs (delete path) W)).
Proof. reflexivity. Qed.

Lemma md5_for_file_unopened fs file :
  fopen fs file = None -> md5_for_file fs file = "".
Proof. unfold md5_for_file. now intros ->. Qed.

Lemma md5_for_file_opened fs file :
  fopen fs file ≠ None -> String.length (md5_for_file fs file) = 32.
Proof.
  unfold md5_for_file. destruct (fopen fs file) as [f|]; [intros _|done].
  reflexivity.
Qed.

(** C3 (amended): [md5_for_file] returns the empty string when the file
    cannot be opened and 32 characters otherwise; the reconciliation
    compares the two digests as strings, so when exactly one of the two
    output files cannot be opened for hashing (slot [i] being reached as in
    C1) the outputs are classified as disagreeing: the renames happen and
    the driver returns -1. *)
Theorem unopened_output_disagrees torepeat (exit_codes : list Z) W i :
  exit_codes !! 0 = Some 0%Z -> exit_codes !! i = Some 0%Z -> 1 <= i < torepeat ->
  (forall j, 1 <= j < i -> exit_codes !! j = Some 0%Z \/ exit_codes !! j = Some 42%Z) ->
  (forall j, 1 <= j < i ->
     out j ≠ out i /\ (has_split_dwarf = true -> dwo_name (out j) ≠ out i)) ->
  (fopen (w_fs W) (out i) = None /\ fopen (w_fs W) (out 0) ≠ None) \/
  (fopen (w_fs W) (out i) ≠ None /\ fopen (w_fs W) (out 0) = None) ->
  (forall fs file, fopen fs file = None -> md5_for_file fs file = "") /\
  (forall fs file, fopen fs file ≠ None -> String.length (md5_for_file fs file) = 32) /\
  exists oks W' evs,
    reconcile torepeat jobs umsgs preproc has_split_dwarf false exit_codes W
    = (Ret (-1)%Z, W') /\
    w_trace W' = w_trace W ++ evs /\
    renames evs = caught_renames (out 0) preproc has_split_dwarf oks.
Proof.
  intros H0 Hi Hrange Hbefore Hfresh Hone.
  split; [exact md5_for_file_unopened|]. split; [exact md5_for_file_opened|].
  assert (Hmd5 : md5_for_file (w_fs W) (out i) ≠ md5_for_file (w_fs W) (out 0)).
  { destruct Hone as [[Hn Hs]|[Hs Hn]];
      apply md5_for_file_unopened in Hn; apply md5_for_file_opened in Hs;
      rewrite Hn; intros E; [rewrite <- E in Hs|rewrite E in Hs]; discriminate. }
  pose proof (list_lookup_total_correct _ _ _ H0) as H0'.
  pose proof (list_lookup_total_correct _ _ _ Hi) as Hi'.
  destruct (reconcile_loop_mismatch (torepeat - 1) 1
              (md5_for_file (w_fs W) (out 0)) exit_codes W i)
    as (oks & W1 & evs & Hrun & Ht & Hr); try done; try lia.
  { intros j Hj. destruct (Hbefore j Hj) as [H|H];
      [left|right]; now apply list_lookup_total_correct. }
  unfold reconcile. cbn [negb]. rewrite bind_run, bind_run, gets_run, Hrun.
  rewrite bind_run, unlink_run, mret_run, (insert_head_total _ _ _ H0).
  exists oks. eexists. exists (evs ++ [EvUnlink preproc]).
  split; [reflexivity|]. cbn [emit set_fs w_trace]. rewrite Ht, <- app_assoc.
  split; [reflexivity|]. rewrite renames_app. cbn. now rewrite app_nil_r.
Qed.

Abbreviation cleaned j evs W' := (slot_cleaned jobs has_split_dwarf j evs W').

Lemma unlink_output_spec output W :
  exists W' evs,
    unlink_output has_split_dwarf output W = (Ret tt, W') /\
    w_trace W' = w_trace W ++ evs /\ renames evs = [] /\ stays_gone W W' /\
    output ∈ unlinked_paths evs /\ w_fs W' !! output = None /\
    (has_split_dwarf = true ->
     dwo_name output ∈ unlinked_paths evs /\ w_fs W' !! dwo_name output = None).
Proof.
  destruct (unlink_output_run output W) as (W' & Hrun & Hfs & Ht).
  exists W'. eexists. split; [exact Hrun|]. split; [exact Ht|].
  unfold stays_gone. rewrite Hfs. destruct has_split_dwarf; cbn.
  - split; [done|]. split.
    { intros p Hp. apply lookup_delete_None. right. apply lookup_delete_None. now right. }
    split; [left|]. split.
    { apply lookup_delete_None. right. apply lookup_delete_None. now left. }
    intros _. split; [right; left|]. apply lookup_delete_None. now left.
  - split; [done|]. split.
    { intros p Hp. apply lookup_delete_None. now right. }
    split; [left|]. split; [|done]. apply lookup_delete_None. now left.
Qed.

Lemma cleaned_later j evs1 evs2 W1 W2 :
  cleaned j evs1 W1 -> stays_gone W1 W2 -> cleaned j (evs1 ++ evs2) W2.
Proof.
  unfold slot_cleaned. intros (H1 & H2 & H3) Hg. rewrite unlinked_paths_app.
  split; [apply elem_of_app; now left|]. split; [auto|].
  intros Hd. destruct (H3 Hd). split; [apply elem_of_app; now left|auto].
Qed.

Lemma cleaned_earlier j evs1 evs2 W2 :
  cleaned j evs2 W2 -> cleaned j (evs1 ++ evs2) W2.
Proof.
  unfold slot_cleaned. intros (H1 & H2 & H3). rewrite unlinked_paths_app.
  split; [apply elem_of_app; now right|]. split; [auto|].
  intros Hd. destruct (H3 Hd). split; [apply elem_of_app; now right|auto].
Qed.

(** The loop either stops at a mismatch, overwriting the exit code of slot
    0, or runs through: then it renamed nothing and cleaned every slot it
    did not skip. *)
Lemma reconcile_loop_through n i first_md5 (exit_codes : list Z) W :
  exists W',
    (exit_codes !!! 0 = 0%Z /\
     reconcile_loop n i jobs umsgs preproc has_split_dwarf first_md5 exit_codes W
     = (Ret (<[0 := (-1)%Z]> exit_codes), W')) \/
    (reconcile_loop n i jobs umsgs preproc has_split_dwarf first_md5 exit_codes W
     = (Ret exit_codes, W') /\
     exists evs, w_trace W' = w_trace W ++ evs /\ renames evs = [] /\
       stays_gone W W' /\
       forall j, i <= j < i + n ->
         (exit_codes !!! 0 = 0%Z -> exit_codes !!! j ≠ 42%Z) -> cleaned j evs W').
Proof.
  revert i W. induction n as [|n IH]; intros i W.
  - exists W. right. split; [reflexivity|]. exists []. rewrite app_nil_r.
    split; [reflexivity|]. split; [reflexivity|]. split; [intros p Hp; exact Hp|].
    intros j Hj. lia.
  - assert (Hunlink :
      exists W',
        (exit_codes !!! 0 = 0%Z /\
         (unlink_output has_split_dwarf (out i);;
          reconcile_loop n (S i) jobs umsgs preproc has_split_dwarf first_md5 exit_codes) W
         = (Ret (<[0 := (-1)%Z]> exit_codes), W')) \/
        ((unlink_output has_split_dwarf (out i);;
          reconcile_loop n (S i) jobs umsgs preproc has_split_dwarf first_md5 exit_codes) W
         = (Ret exit_codes, W') /\
         exists evs, w_trace W' = w_trace W ++ evs /\ renames evs = [] /\
           stays_gone W W' /\
           forall j, i <= j < i + S n ->
             j = i \/ (exit_codes !!! 0 = 0%Z -> exit_codes !!! j ≠ 42%Z) ->
             cleaned j evs W')).
    { rewrite bind_run.
      destruct (unlink_output_spec (out i) W)
        as (W1 & evs1 & -> & Ht1 & Hr1 & Hg1 & Hc1).
      destruct (IH (S i) W1) as (W' & [[H0 Hrun]|(Hrun & evs & Ht & Hr & Hg & Hc)]).
      - exists W'. left. auto.
      - exists W'. right. split; [exact Hrun|]. exists (evs1 ++ evs).
        rewrite Ht, Ht1, <- app_assoc. split; [reflexivity|].
        rewrite renames_app, Hr1, Hr. split; [reflexivity|].
        split; [intros p Hp; auto|].
        intros j Hj Hcode. destruct (decide (j = i)) as [->|].
        + now apply (cleaned_later i evs1 evs W1 W').
        + apply cleaned_earlier. apply Hc; [lia|]. now destruct Hcode. }
    cbn [reconcile_loop].
    destruct (Z.eqb_spec (exit_codes !!! 0) 0) as [H0|H0].
    + destruct (Z.eqb_spec (exit_codes !!! i) 42) as [H42|H42].
      * destruct (IH (S i) W) as (W' & [[? Hrun]|(Hrun & evs & Ht & Hr & Hg & Hc)]).
        -- exists W'. left. auto.
        -- exists W'. right. split; [exact Hrun|]. exists evs.
           split; [done|]. split; [done|]. split; [done|]. intros j Hj Hcode.
           destruct (decide (j = i)) as [->|]; [now specialize (Hcode H0)|].
           apply Hc; [lia|done].
      * destruct (Z.eqb_spec (exit_codes !!! i) 0) as [Hz|Hz]; cbn [negb].
        -- rewrite bind_run, gets_run.
           destruct (String.eqb_spec (md5_for_file (w_fs W) (out i)) first_md5); cbn [negb].
           ++ destruct Hunlink as (W' & [H|(Hrun & evs & Ht & Hr & Hg & Hc)]).
              ** exists W'. now left.
              ** exists W'. right. split; [exact Hrun|]. exists evs.
                 split; [done|]. split; [done|]. split; [done|].
                 intros j Hj Hcode. apply Hc; auto.
           ++ destruct (md5_mismatch_run
                (md5_mismatch jobs umsgs (md5_for_file (w_fs W) (out i)) first_md5 i)
                exit_codes W) as (oks & W' & evs & Hrun & _).
              exists W'. left. auto.
        -- rewrite bind_run. unfold log_error. rewrite log_run. rewrite bind_run.
           destruct (unlink_output_run (out 0) (emit (EvLog Error
                       (exit_code_mismatch umsgs exit_codes i)) W)) as (W' & -> & _).
           exists W'. left. auto.
    + destruct Hunlink as (W' & [[H _]|(Hrun & evs & Ht & Hr & Hg & Hc)]); [done|].
      exists W'. right. split; [exact Hrun|]. exists evs.
      split; [done|]. split; [done|]. split; [done|].
      intros j Hj Hcode. apply Hc; auto.
Qed.

Lemma misc_cleanup_loop_spec n i W :
  exists W' evs,
    misc_cleanup_loop n i jobs has_split_dwarf W = (Ret tt, W') /\
    w_trace W' = w_trace W ++ evs /\ stays_gone W W' /\
    forall j, i <= j < i + n -> cleaned j evs W'.
Proof.
  revert i W. induction n as [|n IH]; intros i W.
  - exists W, []. rewrite app_nil_r. split; [reflexivity|]. split; [reflexivity|].
    split; [intros p Hp; exact Hp|]. intros j Hj. lia.
  - cbn [misc_cleanup_loop]. rewrite bind_run.
    destruct (unlink_output_spec (out i) W) as (W1 & evs1 & -> & Ht1 & _ & Hg1 & Hc1).
    destruct (IH (S i) W1) as (W' & evs & Hrun & Ht & Hg & Hc).
    exists W', (evs1 ++ evs). split; [exact Hrun|].
    rewrite Ht, Ht1, <- app_assoc. split; [reflexivity|].
    split; [intros p Hp; auto|].
    intros j Hj. destruct (decide (j = i)) as [->|].
    + now apply (cleaned_later i evs1 evs W1 W').
    + apply cleaned_earlier. apply Hc. lia.
Qed.

Lemma stays_gone_unlink path W : stays_gone W (emit (EvUnlink path) (set_fs (delete path) W)).
Proof. intros p Hp. cbn. apply lookup_delete_None. now right. Qed.

(** C2 (amended): in replication mode the output of a replica slot
    [i >= 1] (and its [.dwo] under dwarf fission) has been unlinked, and is
    absent, when [build_remote] returns on the misc-error path, on every
    path where slot 0 did not finish with exit code 0, and on normal
    agreement (the driver returns 0) unless the slot carries the sentinel
    42. *)
Theorem replica_output_unlinked torepeat (exit_codes : list Z) misc_error W i c0 :
  exit_codes !! 0 = Some c0 -> 1 <= i < torepeat ->
  misc_error = true \/ c0 ≠ 0%Z \/
  (fst (reconcile torepeat jobs umsgs preproc has_split_dwarf misc_error exit_codes W)
   = Ret 0%Z /\ exit_codes !!! i ≠ 42%Z) ->
  exists evs,
    w_trace (snd (reconcile torepeat jobs umsgs preproc has_split_dwarf misc_error
                    exit_codes W))
    = w_trace W ++ evs /\
    cleaned i evs
      (snd (reconcile torepeat jobs umsgs preproc has_split_dwarf misc_error exit_codes W)).
Proof.
  intros H0 Hi Hcase. pose proof (list_lookup_total_correct _ _ _ H0) as H0'.
  unfold reconcile in *. destruct misc_error; cbn [negb] in *.
  - clear Hcase. rewrite !bind_run.
    destruct (unlink_output_spec (out 0) W) as (W0 & evs0 & -> & Ht0 & _ & Hg0 & _).
    rewrite bind_run.
    destruct (misc_cleanup_loop_spec (torepeat - 1) 1 W0) as (W1 & evs1 & -> & Ht1 & Hg1 & Hc1).
    unfold mret, M_ret, ret. rewrite bind_run, unlink_run. cbn [snd throw].
    exists (evs0 ++ evs1 ++ [EvUnlink preproc]). cbn [emit set_fs w_trace].
    rewrite Ht1, Ht0, <- !app_assoc. split; [reflexivity|].
    apply cleaned_earlier. apply (cleaned_later i evs1 _ W1); [apply Hc1; lia|].
    apply stays_gone_unlink.
  - rewrite bind_run, bind_run, gets_run in *.
    destruct (reconcile_loop_through (torepeat - 1) 1 (md5_for_file (w_fs W) (out 0))
                exit_codes W) as (W1 & [[Hz Hrun]|(Hrun & evs & Ht & Hr & Hg & Hc)]);
      rewrite Hrun in *; rewrite bind_run, unlink_run, mret_run in *; cbn [fst snd] in *.
    + exfalso. rewrite (insert_head_total _ _ _ H0) in Hcase.
      destruct Hcase as [?|[?|[[=] _]]]; [done|congruence].
    + exists (evs ++ [EvUnlink preproc]). cbn [emit set_fs w_trace].
      rewrite Ht, <- app_assoc. split; [reflexivity|].
      apply (cleaned_later i evs _ W1); [|apply stays_gone_unlink].
      apply Hc; [lia|]. intros Hz. destruct Hcase as [?|[?|[_ ?]]]; [done|congruence|done].
Qed.

End Reconcile.

(** ** The replication driver: what a divergence keeps *)

(** A path and its [.caught] name differ. *)
Lemma caught_fresh p : p ≠ p +:+ ".caught".
Proof.
  induction p as [|c p IH]; [rewrite append_Empty; discriminate|].
  rewrite append_String. intros [= H]. now apply IH.
Qed.

Lemma pop_fault_head W :
  pop_fault W = (Ret (hd Fok (w_faults W)), set_faults (tl (w_faults W)) W).
Proof.
  unfold pop_fault. destruct W as [? ? ? ? ? ? faults ? ? ? ? ? ?]; cbn.
  destruct faults; reflexivity.
Qed.

(** What [rename] does: it succeeds when the file is there and the call
    does not fail; then the file moves, otherwise nothing changes. *)
Lemma rename_effect old new W :
  old ≠ new ->
  exists z W',
    rename old new W = (Ret z, W') /\
    w_trace W' = w_trace W ++ [EvRename old new (rename_ok W 0 old)] /\
    w_faults W' = tl (w_faults W) /\
    (forall p, p ≠ old -> p ≠ new -> w_fs W' !! p = w_fs W !! p) /\
    (rename_ok W 0 old = true -> moved W W' old new) /\
    (rename_ok W 0 old = false -> w_fs W' = w_fs W).
Proof.
  intros Hne. unfold rename, rename_ok, succeeds, moved.
  rewrite bind_run, pop_fault_head, bind_run, gets_run. cbn [w_fs set_faults].
  replace (nth 0 (w_faults W) Fok) with (hd Fok (w_faults W)) by now destruct (w_faults W).
  destruct (w_fs W !! old) as [f|] eqn:Hold.
  - rewrite bool_decide_eq_true_2 by eauto. cbn [andb].
    destruct (is_ok (hd Fok (w_faults W))); rewrite bind_run; unfold modify; rewrite mret_run;
      do 2 eexists; (split; [reflexivity|]); cbn [emit set_fs set_faults w_trace w_fs w_faults];
      (split; [reflexivity|]); (split; [reflexivity|]).
    + split; [intros p H1 H2; now rewrite lookup_insert_ne, lookup_delete_ne by done|].
      split; [|discriminate]. intros _. split; [eauto|].
      split; [apply lookup_insert_eq|]. rewrite lookup_insert_ne by done. apply lookup_delete_eq.
    + split; [reflexivity|]. split; [discriminate|reflexivity].
  - rewrite bool_decide_eq_false_2 by (intros [? ?]; discriminate). cbn [andb].
    rewrite bind_run. unfold modify. rewrite mret_run.
    do 2 eexists. split; [reflexivity|]. cbn [emit set_fs set_faults w_trace w_fs w_faults].
    split; [reflexivity|]. split; [reflexivity|]. split; [reflexivity|].
    split; [discriminate|reflexivity].
Qed.

Lemma rename_ok_shift W W1 n p :
  w_faults W1 = tl (w_faults W) -> w_fs W1 !! p = w_fs W !! p ->
  rename_ok W1 n p = rename_ok W (S n) p.
Proof.
  intros Hf Hp. unfold rename_ok, succeeds. rewrite Hf, Hp. f_equal.
  destruct (w_faults W); [now destruct n|reflexivity].
Qed.

Lemma rename_ok_same W W1 n p :
  w_faults W1 = w_faults W -> w_fs W1 !! p = w_fs W !! p ->
  rename_ok W1 n p = rename_ok W n p.
Proof. intros Hf Hp. unfold rename_ok, succeeds. now rewrite Hf, Hp. Qed.

Lemma moved_from W W0 W' old new :
  w_fs W0 !! old = w_fs W !! old -> moved W0 W' old new -> moved W W' old new.
Proof. unfold moved. intros <-. auto. Qed.

Lemma moved_on W W1 W' old new :
  w_fs W' !! new = w_fs W1 !! new -> w_fs W' !! old = w_fs W1 !! old ->
  moved W W1 old new -> moved W W' old new.
Proof. unfold moved. intros -> ->. auto. Qed.

Lemma unlink_output_faults d output W :
  w_faults (unlink_output d output W).2 = w_faults W.
Proof. unfold unlink_output, unlink, when. destruct d; reflexivity. Qed.

Section Caught.

Variables (jobs : list CompileJob) (umsgs : list UseCSMsg).
Variables (preproc : string) (has_split_dwarf : bool).

Abbreviation out i := (outputFile (jobs !!! i)).

(** The branch of the loop that an MD5 mismatch takes. *)
Abbreviation caught_branch m exit_codes :=
  (log_error m;;
   rename (out 0) (out 0 +:+ ".caught");;
   rename preproc (preproc +:+ ".caught");;
   when has_split_dwarf
     (rename (dwo_name (out 0)) (dwo_name (out 0) +:+ ".caught");; mret tt);;
   mret (<[0 := (-1)%Z]> exit_codes)).

Abbreviation sources := (caught_sources jobs preproc has_split_dwarf).

(** The three renames of the branch, and where they leave the files when
    the paths are apart. *)
Lemma caught_branch_effect (m : string) (exit_codes : list Z) W :
  exists oks W' evs,
    caught_branch m exit_codes W = (Ret (<[0 := (-1)%Z]> exit_codes), W') /\
    w_trace W' = w_trace W ++ evs /\
    renames evs = caught_renames (out 0) preproc has_split_dwarf oks /\
    (NoDup (sources ++ ((fun p => p +:+ ".caught") <$> sources)) ->
     oks = (rename_ok W 0 (out 0), rename_ok W 1 preproc,
            has_split_dwarf && rename_ok W 2 (dwo_name (out 0))) /\
     (oks.1.1 = true -> moved W W' (out 0) (out 0 +:+ ".caught")) /\
     (oks.1.1 = false -> w_fs W' !! out 0 = w_fs W !! out 0) /\
     (oks.1.2 = true -> moved W W' preproc (preproc +:+ ".caught")) /\
     (oks.2 = true -> moved W W' (dwo_name (out 0)) (dwo_name (out 0) +:+ ".caught"))).
Proof.
  rewrite bind_run. unfold log_error. rewrite log_run. rewrite bind_run.
  set (W0 := emit (EvLog Error m) W).
  destruct (rename_effect (out 0) (out 0 +:+ ".caught") W0 (caught_fresh _))
    as (z1 & W1 & -> & T1 & F1 & Fr1 & M1 & K1).
  rewrite bind_run.
  destruct (rename_effect preproc (preproc +:+ ".caught") W1 (caught_fresh _))
    as (z2 & W2 & -> & T2 & F2 & Fr2 & M2 & _).
  change (rename_ok W0 0 (out 0)) with (rename_ok W 0 (out 0)) in *.
  assert (M1' : rename_ok W 0 (out 0) = true -> moved W W1 (out 0) (out 0 +:+ ".caught"))
    by exact M1.
  assert (Fr1' : forall p, p ≠ out 0 -> p ≠ out 0 +:+ ".caught" ->
                 w_fs W1 !! p = w_fs W !! p) by exact Fr1.
  assert (F1' : w_faults W1 = tl (w_faults W)) by exact F1.
  assert (K1' : rename_ok W 0 (out 0) = false -> w_fs W1 = w_fs W) by exact K1.
  assert (T0 : w_trace W0 = w_trace W ++ [EvLog Error m]) by reflexivity.
  clear M1 Fr1 F1 K1. clearbody W0.
  unfold caught_renames, caught_sources, when. destruct has_split_dwarf.
  - rewrite bind_run. rewrite bind_run.
    destruct (rename_effect (dwo_name (out 0)) (dwo_name (out 0) +:+ ".caught") W2
                (caught_fresh _)) as (z3 & W3 & -> & T3 & F3 & Fr3 & M3 & _).
    exists (rename_ok W 0 (out 0), rename_ok W1 0 preproc, rename_ok W2 0 (dwo_name (out 0))),
      W3.
    eexists. split; [reflexivity|].
    rewrite T3, T2, T1, T0, <- !app_assoc.
    split; [reflexivity|]. split; [reflexivity|].
    cbn [app fmap list_fmap fst snd andb]. intros Hnd.
    repeat (apply NoDup_cons in Hnd as [?Hn Hnd]).
    rewrite !not_elem_of_cons in *.
    assert (E2 : rename_ok W1 0 preproc = rename_ok W 1 preproc).
    { apply rename_ok_shift; [exact F1'|]. apply Fr1'; intuition congruence. }
    assert (E3 : rename_ok W2 0 (dwo_name (out 0)) = rename_ok W 2 (dwo_name (out 0))).
    { rewrite (rename_ok_shift W1 W2 0) by (try exact F2; apply Fr2; intuition congruence).
      apply rename_ok_shift; [exact F1'|]. apply Fr1'; intuition congruence. }
    rewrite E2, E3 in *. split; [reflexivity|]. split; [|split; [|split]].
    + intros Hok. apply M1' in Hok.
      apply (moved_on W W1); [| |exact Hok].
      * rewrite Fr3, Fr2 by intuition congruence. reflexivity.
      * rewrite Fr3, Fr2 by intuition congruence. reflexivity.
    + intros Hok. rewrite Fr3, Fr2 by intuition congruence. now rewrite K1'.
    + intros Hok. apply M2 in Hok.
      apply (moved_from W W1); [apply Fr1'; intuition congruence|].
      apply (moved_on W1 W2); [| |exact Hok]; (rewrite Fr3 by intuition congruence); reflexivity.
    + intros Hok. apply M3 in Hok.
      apply (moved_from W W2); [|exact Hok].
      rewrite Fr2, Fr1' by intuition congruence. reflexivity.
  - exists (rename_ok W 0 (out 0), rename_ok W1 0 preproc, false), W2.
    eexists. split; [reflexivity|].
    rewrite T2, T1, T0, <- !app_assoc.
    split; [reflexivity|]. split; [reflexivity|].
    cbn [app fmap list_fmap fst snd andb]. intros Hnd.
    repeat (apply NoDup_cons in Hnd as [?Hn Hnd]).
    rewrite !not_elem_of_cons in *.
    assert (E2 : rename_ok W1 0 preproc = rename_ok W 1 preproc).
    { apply rename_ok_shift; [exact F1'|]. apply Fr1'; intuition congruence. }
    rewrite E2 in *. split; [reflexivity|]. split; [|split; [|split; [|discriminate]]].
    + intros Hok. apply M1' in Hok.
      apply (moved_on W W1); [| |exact Hok]; (rewrite Fr2 by intuition congruence); reflexivity.
    + intros Hok. rewrite Fr2 by intuition congruence. now rewrite K1'.
    + intros Hok. apply M2 in Hok.
      apply (moved_from W W1); [apply Fr1'; intuition congruence|exact Hok].
Qed.

(** The loop reaches the branch of a mismatch in a world where only
    outputs of the slots before it were unlinked. *)
Lemma reconcile_loop_reaches n i first_md5 (exit_codes : list Z) W k :
  exit_codes !!! 0 = 0%Z -> i <= k < i + n -> exit_codes !!! k = 0%Z ->
  (forall j, i <= j < k -> exit_codes !!! j = 0%Z \/ exit_codes !!! j = 42%Z) ->
  md5_for_file (w_fs W) (out k) ≠ first_md5 ->
  (forall j, i <= j < k ->
     out j ≠ out k /\ (has_split_dwarf = true -> dwo_name (out j) ≠ out k)) ->
  exists m W0 evs0,
    reconcile_loop n i jobs umsgs preproc has_split_dwarf first_md5 exit_codes W
    = caught_branch m exit_codes W0 /\
    w_trace W0 = w_trace W ++ evs0 /\ renames evs0 = [] /\
    w_faults W0 = w_faults W /\
    forall p,
      (forall j, i <= j < k ->
         out j ≠ p /\ (has_split_dwarf = true -> dwo_name (out j) ≠ p)) ->
      w_fs W0 !! p = w_fs W !! p.
Proof.
  revert i W. induction n as [|n IH]; intros i W H0 Hk Hck Hbefore Hmd5 Hfresh; [lia|].
  cbn [reconcile_loop]. rewrite H0. cbn [Z.eqb].
  assert (Hhere : forall m, exists m' W0 evs0,
            caught_branch m exit_codes W = caught_branch m' exit_codes W0 /\
            w_trace W0 = w_trace W ++ evs0 /\ renames evs0 = [] /\
            w_faults W0 = w_faults W /\
            forall p,
              (forall j, i <= j < k ->
                 out j ≠ p /\ (has_split_dwarf = true -> dwo_name (out j) ≠ p)) ->
              w_fs W0 !! p = w_fs W !! p).
  { intros m. exists m, W, []. rewrite app_nil_r. auto. }
  destruct (decide (i = k)) as [->|Hne].
  - rewrite Hck. cbn [Z.eqb negb]. rewrite bind_run, gets_run.
    destruct (String.eqb_spec (md5_for_file (w_fs W) (out k)) first_md5); [done|].
    cbn [negb]. apply Hhere.
  - destruct (Hbefore i) as [Hi|Hi]; [lia| |].
    + rewrite Hi. cbn [Z.eqb negb]. rewrite bind_run, gets_run.
      destruct (String.eqb_spec (md5_for_file (w_fs W) (out i)) first_md5); cbn [negb];
        [|apply Hhere].
      rewrite bind_run.
      pose proof (unlink_output_faults has_split_dwarf (out i) W) as Hf1.
      destruct (unlink_output_run has_split_dwarf (out i) W) as (W1 & Hrun1 & Hfs & Ht).
      rewrite Hrun1 in Hf1 |- *. cbn [snd] in Hf1.
      destruct (IH (S i) W1) as (m & W0 & evs0 & Hrun & Ht0 & Hr0 & Hf0 & Hfr0);
        try done; try lia.
      { intros j Hj. apply Hbefore. lia. }
      { rewrite Hfs. destruct (Hfresh i) as [F1 F2]; [lia|].
        destruct has_split_dwarf; cbn.
        - rewrite !md5_for_file_delete; auto.
        - rewrite md5_for_file_delete; auto. }
      { intros j Hj. apply Hfresh. lia. }
      exists m, W0. eexists. split; [exact Hrun|]. rewrite Ht0, Ht, <- app_assoc.
      split; [reflexivity|]. split.
      { rewrite renames_app, Hr0. destruct has_split_dwarf; reflexivity. }
      split; [now rewrite Hf0|].
      intros p Hp. rewrite Hfr0 by (intros j Hj; apply Hp; lia).
      rewrite Hfs. destruct (Hp i) as [P1 P2]; [lia|].
      destruct has_split_dwarf; cbn.
      * rewrite !lookup_delete_ne; auto.
      * rewrite lookup_delete_ne; auto.
    + rewrite Hi. cbn [Z.eqb].
      destruct (IH (S i) W) as (m & W0 & evs0 & Hrun & Ht0 & Hr0 & Hf0 & Hfr0);
        try done; try lia.
      { intros j Hj. apply Hbefore. lia. }
      { intros j Hj. apply Hfresh. lia. }
      exists m, W0, evs0. split; [exact Hrun|]. split; [exact Ht0|]. split; [exact Hr0|].
      split; [exact Hf0|]. intros p Hp. apply Hfr0. intros j Hj. apply Hp. lia.
Qed.

Lemma moved_unlinked W W1 old new q :
  new ≠ q -> moved W W1 old new ->
  moved W (emit (EvUnlink q) (set_fs (delete q) W1)) old new.
Proof.
  unfold moved. intros Hq (Hs & Hnew & Hold). cbn [emit set_fs w_fs].
  split; [exact Hs|]. split; [now rewrite lookup_delete_ne by done|].
  apply lookup_delete_None. now right.
Qed.

(** C1 (amended): in replication mode, when no child was killed by a
    signal and every replica slot before slot [i] finished with exit code 0
    or with the sentinel 42, a slot [i] that finished with exit code 0 like
    slot 0 but whose output has another MD5 digest makes the driver call
    [rename] on slot 0's output, on the preprocessed file and, under dwarf
    fission, on slot 0's [.dwo], each to its name with [.caught] appended,
    in this order and with no other rename, and return -1; the
    preprocessed file is no longer at its own path.  The outputs of the
    earlier slots are taken to be other files than slot [i]'s.  Where the
    three files and their [.caught] names are different paths and no
    earlier slot's output is one of the files, each rename succeeds exactly
    when its file is there and the call does not fail; a file whose rename
    succeeds is at its [.caught] name afterwards, as it was, and no longer
    at its own; slot 0's output stays where it is when its rename fails. *)
Theorem md5_mismatch_caught torepeat (exit_codes : list Z) W i :
  exit_codes !! 0 = Some 0%Z -> exit_codes !! i = Some 0%Z -> 1 <= i < torepeat ->
  (forall j, 1 <= j < i -> exit_codes !! j = Some 0%Z \/ exit_codes !! j = Some 42%Z) ->
  md5_for_file (w_fs W) (out i) ≠ md5_for_file (w_fs W) (out 0) ->
  (forall j, 1 <= j < i ->
     out j ≠ out i /\ (has_split_dwarf = true -> dwo_name (out j) ≠ out i)) ->
  exists oks W' evs,
    reconcile torepeat jobs umsgs preproc has_split_dwarf false exit_codes W
    = (Ret (-1)%Z, W') /\
    w_trace W' = w_trace W ++ evs /\
    renames evs = caught_renames (out 0) preproc has_split_dwarf oks /\
    w_fs W' !! preproc = None /\
    (caught_apart jobs preproc has_split_dwarf i ->
     oks = (rename_ok W 0 (out 0), rename_ok W 1 preproc,
            has_split_dwarf && rename_ok W 2 (dwo_name (out 0))) /\
     (oks.1.1 = true -> moved W W' (out 0) (out 0 +:+ ".caught")) /\
     (oks.1.1 = false -> w_fs W' !! out 0 = w_fs W !! out 0) /\
     (oks.1.2 = true -> moved W W' preproc (preproc +:+ ".caught")) /\
     (oks.2 = true ->
      moved W W' (dwo_name (out 0)) (dwo_name (out 0) +:+ ".caught"))).
Proof.
  intros H0 Hi Hrange Hbefore Hmd5 Hfresh.
  destruct (reconcile_loop_reaches (torepeat - 1) 1
              (md5_for_file (w_fs W) (out 0)) exit_codes W i)
    as (m & W0 & evs0 & Hloop & Ht0 & Hr0 & Hf0 & Hfr0); try done; try lia.
  { now apply list_lookup_total_correct. }
  { now apply list_lookup_total_correct. }
  { intros j Hj. destruct (Hbefore j Hj) as [H|H];
      [left|right]; now apply list_lookup_total_correct. }
  destruct (caught_branch_effect m exit_codes W0)
    as (oks & W1 & evs & Hrun & Ht & Hr & Heffect).
  unfold reconcile. cbn [negb]. rewrite bind_run, bind_run, gets_run, Hloop, Hrun.
  rewrite bind_run, unlink_run, (insert_head_total _ _ _ H0).
  exists oks. eexists. exists (evs0 ++ evs ++ [EvUnlink preproc]).
  split; [reflexivity|]. cbn [emit set_fs w_trace w_fs].
  split; [now rewrite Ht, Ht0, <- !app_assoc|].
  split; [rewrite !renames_app, Hr0, Hr; cbn; now rewrite app_nil_r|].
  split; [apply lookup_delete_eq|].
  intros [Hnd Hslots]. destruct (Heffect Hnd) as (Hoks & M1 & K1 & M2 & M3).
  assert (Hsame : forall p n, p ∈ caught_sources jobs preproc has_split_dwarf ->
            w_fs W0 !! p = w_fs W !! p /\ rename_ok W0 n p = rename_ok W n p).
  { intros p n Hp.
    assert (Hfs : w_fs W0 !! p = w_fs W !! p) by (apply Hfr0; intros j Hj; now apply Hslots).
    split; [exact Hfs|]. now apply rename_ok_same. }
  assert (Hin0 : out 0 ∈ caught_sources jobs preproc has_split_dwarf) by left.
  assert (Hinp : preproc ∈ caught_sources jobs preproc has_split_dwarf) by (right; left).
  destruct (Hsame _ 0 Hin0) as [S0 R0]. destruct (Hsame _ 1 Hinp) as [Sp Rp].
  assert (Hne : out 0 +:+ ".caught" ≠ preproc /\ preproc +:+ ".caught" ≠ preproc /\
                out 0 ≠ preproc /\
                (has_split_dwarf = true ->
                 dwo_name (out 0) +:+ ".caught" ≠ preproc)).
  { clear -Hnd. unfold caught_sources in Hnd. destruct has_split_dwarf;
      cbn [app fmap list_fmap] in Hnd;
      repeat (apply NoDup_cons in Hnd as [?Hn Hnd]);
      rewrite !not_elem_of_cons in *; intuition congruence. }
  destruct Hne as (N0 & Np & N0p & Nd).
  split.
  { rewrite Hoks, R0, Rp. destruct has_split_dwarf; cbn [andb]; [|reflexivity].
    assert (Hind : dwo_name (out 0) ∈ caught_sources jobs preproc true)
      by (right; right; left).
    destruct (Hsame _ 2 Hind) as [_ ->]. reflexivity. }
  split.
  { intros Hok. apply moved_unlinked; [exact N0|].
    apply (moved_from W W0); [exact S0|]. now apply M1. }
  split.
  { intros Hok. rewrite lookup_delete_ne by congruence. rewrite K1 by exact Hok. exact S0. }
  split.
  { intros Hok. apply moved_unlinked; [exact Np|].
    apply (moved_from W W0); [exact Sp|]. now apply M2. }
  intros Hok.
  assert (Hd : has_split_dwarf = true).
  { rewrite Hoks in Hok. cbn [snd] in Hok. now apply andb_prop in Hok as [-> _]. }
  assert (Hind : dwo_name (out 0) ∈ caught_sources jobs preproc has_split_dwarf)
    by (rewrite Hd; right; right; left).
  destruct (Hsame _ 2 Hind) as [Sd _].
  apply moved_unlinked; [now apply Nd|].
  apply (moved_from W W0); [exact Sd|]. now apply M3.
Qed.

End Caught.

Lemma md5_mismatch_caught_witness :
  exists W' evs,
    reconcile_example divergent_objects [0; 0; 0]%Z = (Ret (-1)%Z, W') /\
    w_trace W' = w_trace (example_world divergent_objects [] [] []) ++ evs /\
    renames evs = caught_renames "out.o" "/tmp/icecc.ix" false (true, true, false) /\
    w_fs W' !! "out.o.caught" = Some (object "A") /\
    w_fs W' !! "out.o" = None /\
    w_fs W' !! "/tmp/icecc.ix.caught" = Some (object "int main;") /\
    w_fs W' !! "/tmp/icecc.ix" = None.
Proof.
  destruct (md5_mismatch_caught example_jobs example_umsgs "/tmp/icecc.ix" false 3
              [0; 0; 0]%Z (example_world divergent_objects [] [] []) 2)
    as (oks & W' & evs & Hrun & Ht & Hr & Hgone & Hkept).
  - reflexivity.
  - reflexivity.
  - lia.
  - intros j Hj. assert (j = 1) as -> by lia. now left.
  - intros H. vm_compute in H. discriminate.
  - intros j Hj. assert (j = 1) as -> by lia. split; [|discriminate].
    intros H. vm_compute in H. discriminate.
  - destruct Hkept as (Hoks & M0 & _ & Mp & _).
    { split; [apply (bool_decide_unpack _); vm_compute; exact I|].
      intros j p Hj Hp. assert (j = 1) as -> by lia. split; [|discriminate].
      apply list_elem_of_In in Hp. cbn in Hp.
      destruct Hp as [<-|[<-|[]]]; intros H; vm_compute in H; discriminate. }
    vm_compute in Hoks. subst oks.
    destruct (M0 eq_refl) as (_ & M01 & M02). destruct (Mp eq_refl) as (_ & Mp1 & _).
    exists W', evs. split; [exact Hrun|]. split; [exact Ht|]. split; [exact Hr|].
    split; [exact M01|]. split; [exact M02|]. split; [exact Mp1|exact Hgone].
Defined.

(** C1 as stated fails: slots 0 and 2 finished with exit code 0 and their
    digests differ, but slot 1 finished with exit code 1; the loop stops at
    slot 1, slot 0's output is unlinked, nothing is renamed. *)
Lemma md5_mismatch_caught_counterexample :
  [0; 1; 0]%Z !! 0 = Some 0%Z /\ [0; 1; 0]%Z !! 2 = Some 0%Z /\
  String.eqb (md5_for_file divergent_objects "/tmp/icecc2.o")
             (md5_for_file divergent_objects "out.o") = false /\
  fst (reconcile_example divergent_objects [0; 1; 0]%Z) = Ret (-1)%Z /\
  renames (w_trace (snd (reconcile_example divergent_objects [0; 1; 0]%Z))) = [] /\
  unlinked_paths (w_trace (snd (reconcile_example divergent_objects [0; 1; 0]%Z)))
  = ["out.o"; "/tmp/icecc.ix"] /\
  w_fs (snd (reconcile_example divergent_objects [0; 1; 0]%Z)) !! "out.o.caught" = None.
Proof. repeat split; vm_compute; reflexivity. Qed.

Lemma replica_output_unlinked_witness :
  exists evs,
    w_trace (snd (reconcile_example agreeing_objects [0; 0; 0]%Z))
    = w_trace (example_world agreeing_objects [] [] []) ++ evs /\
    slot_cleaned example_jobs false 2 evs
      (snd (reconcile_example agreeing_objects [0; 0; 0]%Z)).
Proof.
  apply (replica_output_unlinked example_jobs example_umsgs "/tmp/icecc.ix" false 3
           [0; 0; 0]%Z false (example_world agreeing_objects [] [] []) 2 0%Z).
  - reflexivity.
  - lia.
  - right. right. split; [vm_compute; reflexivity|].
    intros H. vm_compute in H. discriminate.
Defined.

(** C2 as stated fails: on an MD5 mismatch at slot 2 the loop stops before
    the [unlink] of that slot; its output is still there when the driver
    returns -1. *)
Lemma replica_output_unlinked_counterexample :
  fst (reconcile_example divergent_objects [0; 0; 0]%Z) = Ret (-1)%Z /\
  unlinked_paths (w_trace (snd (reconcile_example divergent_objects [0; 0; 0]%Z)))
  = ["/tmp/icecc1.o"; "/tmp/icecc.ix"] /\
  w_fs (snd (reconcile_example divergent_objects [0; 0; 0]%Z)) !! "/tmp/icecc2.o"
  = Some (object "B").
Proof. repeat split; vm_compute; reflexivity. Qed.

Lemma unopened_output_disagrees_witness :
  exists oks W' evs,
    reconcile_example lone_object [0; 0; 0]%Z = (Ret (-1)%Z, W') /\
    w_trace W' = w_trace (example_world lone_object [] [] []) ++ evs /\
    renames evs = caught_renames "out.o" "/tmp/icecc.ix" false oks.
Proof.
  apply (unopened_output_disagrees example_jobs example_umsgs "/tmp/icecc.ix" false 3
           [0; 0; 0]%Z (example_world lone_object [] [] []) 1).
  - reflexivity.
  - reflexivity.
  - lia.
  - intros j Hj. lia.
  - intros j Hj. lia.
  - left. split; [reflexivity|discriminate].
Defined.

(** C3 as stated fails: neither output file can be opened, both digests
    are the empty string, the comparison finds them equal and the driver
    returns 0 without a rename. *)
Lemma unopened_output_disagrees_counterexample :
  fopen ∅ "out.o" = None /\ fopen ∅ "/tmp/icecc1.o" = None /\
  md5_for_file ∅ "out.o" = "" /\ md5_for_file ∅ "/tmp/icecc1.o" = "" /\
  fst (reconcile_example ∅ [0; 0; 0]%Z) = Ret 0%Z /\
  renames (w_trace (snd (reconcile_example ∅ [0; 0; 0]%Z))) = [].
Proof. repeat split; vm_compute; reflexivity. Qed.

(** ** The artifact receiver *)

Section Receiver.




Lemma append_length s t : String.length (s +:+ t) = String.length s + String.length t.
Proof.
  induction s as [|c s IH]; rewrite ?append_Empty, ?append_String; cbn; [reflexivity|].
  now rewrite IH.
Qed.


Lemma pop_fault_run W :
  pop_fault W = (Ret (hd Fok (w_faults W)), set_faults (tl (w_faults W)) W).
Proof.
  unfold pop_fault. destruct W as [? ? ? ? ? ? faults ? ? ? ? ? ?]; cbn.
  destruct faults; reflexivity.
Qed.






End Receiver.


(** ** The single-job executor: what reaches the local daemon *)

Section QuietRules.

Context {A B : Type}.

Lemma Quiet_ret (a : A) : Quiet (mret a : M A).
Proof. intros W. exists []. cbn. now rewrite app_nil_r. Qed.

Lemma Quiet_bind (m : M A) (k : A -> M B) :
  Quiet m -> (forall a, Quiet (k a)) -> Quiet (m ≫= k).
Proof.
  intros Hm Hk W. rewrite bind_run. destruct (Hm W) as (evs & Ht & Hq & H24).
  destruct (m W) as [[a|e|h] W1]; cbn [fst snd] in *.
  - destruct (Hk a W1) as (evs' & Ht' & Hq' & H24').
    exists (evs ++ evs'). rewrite Ht', Ht, <- app_assoc, forallb_app, Hq, Hq'. auto.
  - exists evs. auto.
  - exists evs. auto.
Qed.

Lemma Quiet_throw (e : exn) : is_24 (Throw e : Outcome A) = false -> Quiet (throw e : M A).
Proof. intros H W. exists []. cbn [throw fst snd]. now rewrite app_nil_r. Qed.

Lemma Quiet_stop (h : halt) : Quiet (stop h : M A).
Proof. intros W. exists []. cbn. now rewrite app_nil_r. Qed.

Lemma Quiet_try_catch (body : M A) (handler : exn -> M A) :
  Quiet body ->
  (forall e, is_24 (Throw e : Outcome A) = false -> Quiet (handler e)) ->
  Quiet (try_catch body handler).
Proof.
  intros Hb Hh W. unfold try_catch. destruct (Hb W) as (evs & Ht & Hq & H24).
  destruct (body W) as [[a|e|h] W1]; cbn [fst snd] in *.
  - exists evs. auto.
  - destruct (Hh e H24 W1) as (evs' & Ht' & Hq' & H24').
    exists (evs ++ evs'). rewrite Ht', Ht, <- app_assoc, forallb_app, Hq, Hq'. auto.
  - exists evs. auto.
Qed.

Lemma Quiet_gets (f : World -> A) : Quiet (gets f).
Proof. intros W. exists []. cbn. now rewrite app_nil_r. Qed.

End QuietRules.

Lemma is_24_retype {A B} (e : exn) :
  is_24 (Throw e : Outcome A) = false -> is_24 (Throw e : Outcome B) = false.
Proof. exact (fun H => H). Qed.

Lemma Quiet_modify (f : World -> World) evs :
  (forall W, w_trace (f W) = w_trace W ++ evs) -> forallb quiet evs = true ->
  Quiet (modify f).
Proof. intros Hf Hq W. exists evs. cbn. auto. Qed.

Lemma Quiet_silent (f : World -> World) :
  (forall W, w_trace (f W) = w_trace W) -> Quiet (modify f).
Proof. intros Hf. apply (Quiet_modify f []); [|reflexivity]. intros W. now rewrite app_nil_r. Qed.

Lemma Quiet_emit e : quiet e = true -> Quiet (modify (emit e)).
Proof. intros H. apply (Quiet_modify _ [e]); [reflexivity|]. cbn. now rewrite H. Qed.

Lemma Quiet_log lvl text : Quiet (log lvl text).
Proof. now apply Quiet_emit. Qed.

Lemma Quiet_pop_fault : Quiet pop_fault.
Proof. intros W. rewrite pop_fault_run. exists []. cbn. now rewrite app_nil_r. Qed.

Lemma Quiet_send_cserver m : Quiet (send_msg cserver m).
Proof.
  intros W. unfold send_msg. rewrite bind_run, pop_fault_run, bind_run. unfold modify.
  rewrite mret_run. eexists. cbn. split; [reflexivity|]. auto.
Qed.

Lemma Quiet_get_msg c t : (t =? 60)%Z = false -> Quiet (get_msg c t).
Proof.
  intros Ht W. unfold get_msg.
  assert (Hq : forall m, quiet (EvRecv c t m) = true).
  { intros m. cbn. destruct t as [|p|p]; try reflexivity.
    destruct (Pos.eqb_spec p 60) as [->|Hp]; [discriminate|].
    do 6 (destruct p as [p|p|]; try reflexivity). now destruct Hp. }
  destruct (chan_inbox (get_chan c W)) as [|m rest]; eexists;
    (split; [destruct c; cbn; reflexivity|]); cbn [forallb]; rewrite Hq; auto.
Qed.

Lemma Quiet_createChannel host port t : Quiet (createChannel host port t).
Proof.
  intros W. unfold createChannel. rewrite bind_run, pop_fault_run, bind_run. unfold modify.
  rewrite mret_run. eexists. cbn. split; [reflexivity|]. auto.
Qed.

Lemma Quiet_unlink path : Quiet (unlink path).
Proof. apply (Quiet_modify _ [EvUnlink path]); reflexivity. Qed.

Lemma Quiet_read_cpp cpp_fd room : Quiet (read_cpp cpp_fd room).
Proof.
  intros W. unfold read_cpp. destruct (read_retry _ _ _). exists []. cbn.
  now rewrite app_nil_r.
Qed.

Lemma Quiet_rand : Quiet rand.
Proof.
  intros W. unfold rand. destruct (w_rand W); exists []; cbn; now rewrite app_nil_r.
Qed.

Ltac quiet :=
  repeat (cbv beta; lazymatch goal with
    | |- forall _, _ => intro
    | |- Quiet (mbind _ _) => apply Quiet_bind
    | |- Quiet (mret _) => apply Quiet_ret
    | |- Quiet (ret _) => apply Quiet_ret
    | |- Quiet (throw _) => apply Quiet_throw; first [reflexivity|assumption]
    | |- Quiet (stop _) => apply Quiet_stop
    | |- Quiet (gets _) => apply Quiet_gets
    | |- Quiet (chan_name_of _) => apply Quiet_gets
    | |- Quiet (stat _) => apply Quiet_gets
    | |- Quiet (lstat _) => apply Quiet_gets
    | |- Quiet (access_R_OK _) => apply Quiet_gets
    | |- Quiet (open_rdonly _) => apply Quiet_gets
    | |- Quiet pop_fault => apply Quiet_pop_fault
    | |- Quiet (log _ _) => apply Quiet_log
    | |- Quiet (log_error _) => apply Quiet_log
    | |- Quiet (log_warning _) => apply Quiet_log
    | |- Quiet (log_info _) => apply Quiet_log
    | |- Quiet (log_perror _) => apply Quiet_log
    | |- Quiet (send_msg cserver _) => apply Quiet_send_cserver
    | |- Quiet (get_msg _ _) => apply Quiet_get_msg; reflexivity
    | |- Quiet (createChannel _ _ _) => apply Quiet_createChannel
    | |- Quiet (delete_channel _) => apply Quiet_emit; reflexivity
    | |- Quiet (kill _ _) => apply Quiet_emit; reflexivity
    | |- Quiet (unlink _) => apply Quiet_unlink
    | |- Quiet (read_cpp _ _) => apply Quiet_read_cpp
    | |- Quiet (modify (emit _)) => apply Quiet_emit; reflexivity
    | |- Quiet (modify _) =>
        first [ apply Quiet_silent; reflexivity
              | eapply Quiet_modify; [intros; cbn; reflexivity|reflexivity] ]
    | |- Quiet (when ?b _) => destruct b; unfold when
    | |- Quiet (try_catch _ _) => apply Quiet_try_catch
    | |- Quiet (if ?b then _ else _) => destruct b
    | |- Quiet (match ?x with _ => _ end) => destruct x
    | |- Quiet (let _ := _ in _) => cbv zeta
    end).

Section QuietDriver.

Variable cfg : Config.

Lemma Quiet_check_for_failure msg c : Quiet (check_for_failure msg c).
Proof. unfold check_for_failure. quiet. Qed.

Lemma Quiet_write_server_cpp_loop fuel cpp_fd buffer :
  Quiet (write_server_cpp_loop fuel cpp_fd buffer).
Proof.
  revert cpp_fd buffer. induction fuel as [|fuel IH]; intros cpp_fd buffer;
    cbn [write_server_cpp_loop]; quiet; try apply Quiet_check_for_failure; try apply IH.
Qed.

Lemma Quiet_write_server_cpp cpp_fd : Quiet (write_server_cpp cpp_fd).
Proof. apply Quiet_write_server_cpp_loop. Qed.

Lemma Quiet_write d data : Quiet (write d data).
Proof. unfold write, write_bytes. quiet. Qed.

Lemma Quiet_close d : Quiet (close d).
Proof. unfold close. quiet. Qed.

Lemma Quiet_rename old new : Quiet (rename old new).
Proof. unfold rename. quiet. Qed.

Lemma Quiet_open_create path : Quiet (open_create path).
Proof. unfold open_create. quiet. Qed.

Lemma Quiet_receive_fd_loop fuel obj_fd : Quiet (receive_fd_loop fuel obj_fd).
Proof.
  induction fuel as [|fuel IH]; cbn [receive_fd_loop]; quiet;
    try apply Quiet_check_for_failure; try apply Quiet_write; try apply IH.
Qed.

Lemma Quiet_receive_fd obj_fd : Quiet (receive_fd obj_fd).
Proof. unfold receive_fd. quiet. apply Quiet_receive_fd_loop. Qed.

Lemma Quiet_receive_file output_file : Quiet (receive_file output_file).
Proof.
  unfold receive_file. quiet;
    try apply Quiet_open_create; try apply Quiet_receive_fd; try apply Quiet_close;
    try apply Quiet_rename.
Qed.

Lemma Quiet_drain_loop fuel : Quiet (drain_loop fuel).
Proof. induction fuel as [|fuel IH]; cbn [drain_loop]; quiet; apply IH. Qed.

Lemma Quiet_drain_status : Quiet drain_status.
Proof. unfold drain_status. quiet. apply Quiet_drain_loop. Qed.

Lemma Quiet_send_source job preproc_file : Quiet (send_source cfg job preproc_file).
Proof. unfold send_source. quiet; apply Quiet_write_server_cpp. Qed.

Lemma Quiet_await_result job hostname output :
  Quiet (await_result cfg job hostname output).
Proof. unfold await_result. quiet; apply Quiet_check_for_failure. Qed.

Lemma Quiet_receive_artifacts job have_dwo :
  Quiet (receive_artifacts job have_dwo).
Proof.
  unfold receive_artifacts. quiet; try apply Quiet_receive_fd; apply Quiet_receive_file.
Qed.

Section VerifyingRules.

Context {A B : Type} (blacklist : Msg) (what : string).

Lemma Verifying_quiet (m : M A) : Quiet m -> Verifying blacklist what m.
Proof. intros H W. destruct (H W) as (evs & Ht & Hq). exists evs. auto. Qed.

Lemma refused_after (pre0 evs : list Event) (o : Outcome A) :
  forallb quiet pre0 = true -> refused blacklist what evs o ->
  refused blacklist what (pre0 ++ evs) o.
Proof.
  intros Hq (pre & mid & ok & post & -> & H1 & H2 & H3 & ->).
  exists (pre0 ++ pre), mid, ok, post. rewrite <- app_assoc, forallb_app, Hq, H1. auto.
Qed.

Lemma refused_before (evs post0 : list Event) (o : Outcome A) :
  forallb quiet post0 = true -> refused blacklist what evs o ->
  refused blacklist what (evs ++ post0) o.
Proof.
  intros Hq (pre & mid & ok & post & -> & H1 & H2 & H3 & ->).
  exists pre, mid, ok, (post ++ post0).
  rewrite forallb_app, Hq, H3. repeat split; auto.
  rewrite <- !app_assoc. cbn. rewrite <- !app_assoc. reflexivity.
Qed.

Lemma Verifying_bind (m : M A) (k : A -> M B) :
  Quiet m -> (forall a, Verifying blacklist what (k a)) ->
  Verifying blacklist what (m ≫= k).
Proof.
  intros Hm Hk W. rewrite bind_run. destruct (Hm W) as (evs & Ht & Hq & H24).
  destruct (m W) as [[a|e|h] W1]; cbn [fst snd] in *.
  - destruct (Hk a W1) as (evs' & Ht' & [Hr|[Hq' H24']]);
      exists (evs ++ evs'); rewrite Ht', Ht, <- app_assoc; (split; [reflexivity|]).
    + left. revert Hr. generalize ((k a W1).1). intros o Hr.
      destruct Hr as (pre & mid & ok & post & -> & H1 & H2 & H3 & ->).
      exists (evs ++ pre), mid, ok, post. rewrite <- app_assoc, forallb_app, Hq, H1. auto.
    + right. rewrite forallb_app, Hq, Hq'. auto.
  - exists evs. auto.
  - exists evs. auto.
Qed.

Lemma Verifying_then (m : M A) (k : A -> M B) :
  Verifying blacklist what m -> (forall a, Quiet (k a)) ->
  Verifying blacklist what (m ≫= k).
Proof.
  intros Hm Hk W. rewrite bind_run. destruct (Hm W) as (evs & Ht & Hcase).
  destruct (m W) as [[a|e|h] W1]; cbn [fst snd] in *.
  - destruct Hcase as [(? & ? & ? & ? & _ & _ & _ & _ & [=])|[Hq _]].
    destruct (Hk a W1) as (evs' & Ht' & Hq' & H24').
    exists (evs ++ evs'). rewrite Ht', Ht, <- app_assoc, forallb_app, Hq, Hq'. auto.
  - exists evs. split; [exact Ht|]. destruct Hcase as [Hr|Hq]; [left|right; exact Hq].
    destruct Hr as (pre & mid & ok & post & -> & H1 & H2 & H3 & [= ->]).
    exists pre, mid, ok, post. auto.
  - exists evs. split; [exact Ht|]. right.
    destruct Hcase as [(? & ? & ? & ? & _ & _ & _ & _ & [=])|Hq]. exact Hq.
Qed.

End VerifyingRules.

(** The catch handler of [build_remote_int] drains the channel within its
    fuel, closes it and rethrows. *)
Lemma drain_loop_run fuel W :
  length (chan_inbox (w_server W)) < fuel ->
  exists evs, (drain_loop fuel W).1 = Ret tt /\
    w_trace (drain_loop fuel W).2 = w_trace W ++ evs /\ forallb quiet evs = true.
Proof.
  revert W. induction fuel as [|fuel IH]; intros W Hfuel; [lia|].
  cbn [drain_loop]. rewrite bind_run. unfold get_msg. cbn [get_chan].
  destruct (chan_inbox (w_server W)) as [|[m|] rest] eqn:Hin.
  - eexists. rewrite mret_run. cbn. split; [reflexivity|]. split; reflexivity.
  - rewrite bind_run.
    set (W1 := emit (EvRecv cserver 0 (Some m)) _).
    assert (Hstep : exists evs1 W2,
      (match m with
       | M_STATUS_TEXT text =>
           name ← chan_name_of cserver;
           log_error ("Remote status (compiled on " +:+ name +:+ "): " +:+ text)
       | _ => mret ()
       end) W1 = (Ret tt, W2) /\ w_trace W2 = w_trace W1 ++ evs1 /\
      forallb quiet evs1 = true /\ w_server W2 = w_server W1).
    { destruct m; try (exists [], W1; rewrite mret_run, app_nil_r; auto).
      rewrite bind_run. unfold chan_name_of. rewrite gets_run. unfold log_error.
      rewrite log_run. eexists. eexists. split; [reflexivity|]. cbn. auto. }
    destruct Hstep as (evs1 & W2 & -> & Ht2 & Hq2 & Hs2).
    destruct (IH W2) as (evs & Hret & Ht & Hq).
    { rewrite Hs2. cbn in *. lia. }
    exists (EvRecv cserver 0 (Some m) :: evs1 ++ evs). split; [exact Hret|].
    rewrite Ht, Ht2. cbn. rewrite <- !app_assoc. split; [reflexivity|].
    rewrite forallb_app, Hq2, Hq. reflexivity.
  - eexists. rewrite mret_run. cbn. split; [reflexivity|]. split; reflexivity.
Qed.

Lemma handler_rethrows {A} (e : exn) W :
  exists evs,
    (((drain_status;; delete_channel cserver;; throw e) : M A) W).1 = Throw e /\
    w_trace (((drain_status;; delete_channel cserver;; throw e) : M A) W).2
    = w_trace W ++ evs /\
    forallb quiet evs = true.
Proof.
  rewrite bind_run. unfold drain_status. rewrite bind_run, gets_run.
  destruct (drain_loop_run (S (length (chan_inbox (w_server W)))) W) as (evs & Hr & Ht & Hq);
    [lia|].
  destruct (drain_loop _ W) as [o W1]. cbn [fst snd] in *. subst o.
  rewrite bind_run. unfold delete_channel, modify, throw. cbn [fst snd].
  exists (evs ++ [EvDelete cserver]). split; [reflexivity|]. cbn. rewrite Ht.
  rewrite <- app_assoc. split; [reflexivity|]. rewrite forallb_app, Hq. reflexivity.
Qed.

Lemma send_msg_run c m W :
  send_msg c m W
  = (Ret (is_ok (hd Fok (w_faults W))),
     emit (EvSend c m (is_ok (hd Fok (w_faults W)))) (set_faults (tl (w_faults W)) W)).
Proof. unfold send_msg. rewrite bind_run, pop_fault_run. reflexivity. Qed.

Ltac verifying :=
  repeat (cbv beta; lazymatch goal with
    | |- forall _, _ => intro
    | |- Verifying _ _ (mbind _ (get_msg cserver 60)) => fail
    | |- Verifying _ _ (mbind _ _) =>
        apply Verifying_bind; [solve [quiet; auto using Quiet_write_server_cpp]|]
    | |- Verifying _ _ (if ?b then _ else _) => destruct b
    | |- Verifying _ _ (match ?x with _ => _ end) => destruct x
    | |- Verifying _ _ (when ?b _) => destruct b; unfold when
    | |- Verifying _ _ _ => apply Verifying_quiet; solve [quiet]
    end).

(** The environment shipper: the only step that is not quiet is the reply
    to the verification request. *)
Lemma Verifying_transfer_environment job hostname version_file :
  Verifying
    (M_BLACKLIST_HOST_ENV (targetPlatform job) (environmentVersion job) hostname)
    ("Error 24 - remote " +:+ hostname +:+ " unable to handle environment")
    (transfer_environment job hostname version_file).
Proof.
  unfold transfer_environment. verifying.
  intros W. rewrite bind_run. unfold get_msg. cbn [get_chan].
  destruct (chan_inbox (w_server W)) as [|reply rest].
  { eexists. split; [cbn; reflexivity|]. right. split; reflexivity. }
  assert (Hquiet : forall W1 (o : Outcome unit),
    quiet (EvRecv cserver 60 reply) = true -> is_24 o = false ->
    w_trace W1 = w_trace W ++ [EvRecv cserver 60 reply] ->
    exists evs, w_trace (o, W1).2 = w_trace W ++ evs /\
      (refused (M_BLACKLIST_HOST_ENV (targetPlatform job) (environmentVersion job) hostname)
         ("Error 24 - remote " +:+ hostname +:+ " unable to handle environment")
         evs (o, W1).1 \/
       (forallb quiet evs = true /\ is_24 (o, W1).1 = false))).
  { intros W1 o Hq Ho Ht. exists [EvRecv cserver 60 reply]. split; [exact Ht|].
    right. cbn [forallb fst]. rewrite Hq. auto. }
  destruct reply as [m|]; [|apply Hquiet; reflexivity].
  destruct m as [| | | | | | | | | | | ok |]; try (apply Hquiet; reflexivity).
  destruct ok; [apply Hquiet; reflexivity|]. clear Hquiet.
  cbn [negb]. rewrite bind_run. unfold log_info. rewrite log_run, bind_run, send_msg_run.
  unfold throw.
  exists [EvRecv cserver 60 (Some (M_VERIFY_ENV_RESULT false));
          EvLog Info ("Host " +:+ hostname +:+ " did not successfully verify environment.");
          EvSend local_daemon
            (M_BLACKLIST_HOST_ENV (targetPlatform job) (environmentVersion job) hostname)
            (is_ok (hd Fok (w_faults W)))].
  split; [cbn; rewrite <- !app_assoc; reflexivity|].
  left. exists [], [EvLog Info ("Host " +:+ hostname
                                +:+ " did not successfully verify environment.")],
    (is_ok (hd Fok (w_faults W))), []. cbn. auto.
Qed.

(** The guarded session of [build_remote_int] is quiet unless the
    verification is refused: the handler only drains and rethrows. *)
Lemma Verifying_session job hostname version_file got_env preproc_file output :
  Verifying
    (M_BLACKLIST_HOST_ENV (targetPlatform job) (environmentVersion job) hostname)
    ("Error 24 - remote " +:+ hostname +:+ " unable to handle environment")
    (try_catch (remote_session cfg job hostname version_file got_env preproc_file output)
               (fun e => drain_status;; delete_channel cserver;; throw e)).
Proof.
  set (body := remote_session _ _ _ _ _ _ _).
  assert (Hbody : Verifying
    (M_BLACKLIST_HOST_ENV (targetPlatform job) (environmentVersion job) hostname)
    ("Error 24 - remote " +:+ hostname +:+ " unable to handle environment") body).
  { unfold body, remote_session. apply Verifying_then.
    - destruct got_env; cbn [negb]; unfold when.
      + apply Verifying_quiet. quiet.
      + apply Verifying_transfer_environment.
    - intros []. quiet; auto using Quiet_send_source, Quiet_await_result,
        Quiet_receive_artifacts. }
  intros W. unfold try_catch. destruct (Hbody W) as (evs & Ht & Hcase).
  destruct (body W) as [[a|e|h] W1]; cbn [fst snd] in *.
  - exists evs. auto.
  - destruct (handler_rethrows (A:=Z) e W1) as (evs' & Ho & Ht' & Hq').
    exists (evs ++ evs'). rewrite Ht', Ht, <- app_assoc. split; [reflexivity|].
    rewrite Ho. destruct Hcase as [Hr|[Hq H24]].
    + left. apply refused_before; assumption.
    + right. rewrite forallb_app, Hq, Hq'. auto.
  - exists evs. auto.
Qed.


(** [build_remote_int] starts by dialling the assigned host. *)
Lemma build_remote_int_dials job usecs environment version_file preproc_file output W :
  exists evs,
    w_trace (build_remote_int cfg job usecs environment version_file preproc_file output W).2
    = w_trace W ++ EvConnect (hostname usecs) (port usecs) 10 (is_ok (hd Fok (w_faults W)))
                   :: evs.
Proof.
  unfold build_remote_int. rewrite bind_run. unfold createChannel.
  rewrite bind_run, pop_fault_run, bind_run. unfold modify at 1. rewrite mret_run.
  destruct (is_ok (hd Fok (w_faults W))); cbn [negb].
  - match goal with |- context [try_catch ?b ?h ?W1] =>
      destruct (Verifying_session
                  (setEnvironmentVersion environment (setJobID (job_id usecs) job))
                  (hostname usecs) version_file (got_env usecs) preproc_file output W1)
        as (evs & Ht & _)
    end.
    exists evs. rewrite Ht. cbn. rewrite <- app_assoc. reflexivity.
  - eexists. rewrite bind_run. unfold log_error. rewrite log_run. unfold throw. cbn.
    rewrite <- app_assoc. reflexivity.
Qed.

End QuietDriver.





(** A refusal, with the daemon reachable and with the blacklist send
    failing (the eighth fallible call of the run). *)
Example verify_refusal_blacklisted :
  (build_remote_int plain_cfg example_job refusing_usecs "b" "/tmp/b.tar.bz2" None true
     (refusing_world [])).1
  = Throw (client_error 24 "Error 24 - remote 10.0.0.2 unable to handle environment") /\
  daemon_sends (w_trace (build_remote_int plain_cfg example_job refusing_usecs "b"
                           "/tmp/b.tar.bz2" None true (refusing_world [])).2)
  = [M_BLACKLIST_HOST_ENV "x86_64" "b" "10.0.0.2"] /\
  (build_remote_int plain_cfg example_job refusing_usecs "b" "/tmp/b.tar.bz2" None true
     (refusing_world [Fok; Fok; Fok; Fok; Fok; Fok; Fok; Ffail])).1
  = Throw (client_error 24 "Error 24 - remote 10.0.0.2 unable to handle environment").
Proof. vm_compute. repeat split. Qed.

(** ** Loopback and the scheduler dialogue *)

Section Loopback.

Variable cfg : Config.

Lemma rand_run W : rand W = (Ret (hd 0%Z (w_rand W)), set_rand (tl (w_rand W)) W).
Proof.
  unfold rand. destruct W as [? ? ? ? ? ? ? r ? ? ? ? ?]; cbn. destruct r; reflexivity.
Qed.

Lemma get_server_run usecs rest W :
  chan_inbox (w_daemon W) = Some (M_USE_CS usecs) :: rest ->
  get_server W
  = (Ret usecs,
     emit (EvRecv local_daemon (4 * 60) (Some (M_USE_CS usecs)))
       (set_chan local_daemon
          (mk_chan (chan_name (w_daemon W)) (chan_protocol (w_daemon W)) rest) W)).
Proof.
  intros Hin. unfold get_server. rewrite bind_run. unfold get_msg. cbn [get_chan].
  rewrite Hin. reflexivity.
Qed.

Lemma succeeds_0 W : succeeds 0 W = is_ok (hd Fok (w_faults W)).
Proof. unfold succeeds. now destruct (w_faults W). Qed.

Lemma succeeds_S n W : succeeds (S n) W = succeeds n (set_faults (tl (w_faults W)) W).
Proof.
  unfold succeeds. cbn [set_faults w_faults].
  destruct (w_faults W); [now destruct n|reflexivity].
Qed.

Lemma test_remotebuild_on usecs :
  port usecs ≠ 0%Z -> is_Some (getenv cfg "ICECC_TEST_REMOTEBUILD") ->
  test_remotebuild cfg usecs = true.
Proof.
  intros Hport Hset. unfold test_remotebuild. rewrite bool_decide_eq_true_2 by exact Hset.
  cbn [andb]. apply negb_true_iff, Z.eqb_neq, Hport.
Qed.

(** The three ways through [maybe_build_local] for an assignment to
    127.0.0.1: the local build, the job that does not reach the daemon, and
    the test-mode override. *)
Lemma maybe_build_local_run usecs job ret W :
  hostname usecs = "127.0.0.1" ->
  test_remotebuild cfg usecs = false ->
  succeeds 0 W = true ->
  exists msg W',
    maybe_build_local cfg usecs job ret W
    = (Ret (succeeds 1 W, local_job usecs job, lr_ret (build_local cfg (local_job usecs job))),
       W') /\
    w_trace W'
    = w_trace W ++ [EvSend local_daemon (M_COMPILE_FILE (local_job usecs job)) true;
                    EvBuildLocal (local_job usecs job)
                      (lr_ret (build_local cfg (local_job usecs job)));
                    EvSend local_daemon (M_JOB_DONE msg) (succeeds 1 W)] /\
    w_faults W' = drop 2 (w_faults W) /\
    w_fs W' = lr_fs (build_local cfg (local_job usecs job)) (w_fs W) /\
    jd_job_id msg = job_id usecs /\
    jd_exitcode msg = lr_ret (build_local cfg (local_job usecs job)) /\
    jd_flags msg = FROM_SUBMITTER.
Proof.
  intros Hhost Hover Hsend. unfold maybe_build_local. rewrite bind_run. unfold modify at 1.
  rewrite Hhost. cbn [String.eqb Ascii.eqb Bool.eqb].
  change (bool_decide _ && negb _) with (test_remotebuild cfg usecs). rewrite Hover.
  fold (local_job usecs job). rewrite bind_run, send_msg_run.
  rewrite succeeds_S, succeeds_0. rewrite succeeds_0 in Hsend.
  wsimpl. rewrite Hsend. cbn [negb].
  rewrite bind_run. unfold modify at 1. rewrite bind_run. unfold stat at 1. rewrite gets_run.
  rewrite bind_run. unfold stat at 1. rewrite gets_run. rewrite bind_run, send_msg_run.
  rewrite mret_run. wsimpl.
  eexists. eexists. split; [reflexivity|].
  wsimpl. rewrite <- !app_assoc. split; [reflexivity|]. split.
  { destruct (w_faults W) as [|? [|? ?]]; reflexivity. }
  split; [reflexivity|]. split; [reflexivity|]. split; reflexivity.
Qed.

Lemma maybe_build_local_unsent usecs job ret W :
  hostname usecs = "127.0.0.1" ->
  test_remotebuild cfg usecs = false ->
  succeeds 0 W = false ->
  exists W',
    maybe_build_local cfg usecs job ret W
    = (Throw (client_error 29 "Error 29 - write of job failed"), W') /\
    w_trace W'
    = w_trace W ++ [EvSend local_daemon (M_COMPILE_FILE (local_job usecs job)) false;
                    EvLog Info "write of job failed"].
Proof.
  intros Hhost Hover Hsend. unfold maybe_build_local. rewrite bind_run. unfold modify at 1.
  rewrite Hhost. cbn [String.eqb Ascii.eqb Bool.eqb].
  change (bool_decide _ && negb _) with (test_remotebuild cfg usecs). rewrite Hover.
  fold (local_job usecs job). rewrite bind_run, send_msg_run.
  rewrite succeeds_0 in Hsend. wsimpl. rewrite Hsend. cbn [negb].
  rewrite bind_run. unfold log_info. rewrite log_run. unfold throw.
  eexists. split; [reflexivity|]. wsimpl. rewrite <- app_assoc. reflexivity.
Qed.

Lemma maybe_build_local_override usecs job ret W :
  hostname usecs = "127.0.0.1" ->
  test_remotebuild cfg usecs = true ->
  maybe_build_local cfg usecs job ret W
  = (Ret (false, job, ret), set_remote_daemon (hostname usecs) W).
Proof.
  intros Hhost Hover. unfold maybe_build_local. rewrite bind_run. unfold modify at 1.
  rewrite Hhost. cbn [String.eqb Ascii.eqb Bool.eqb].
  change (bool_decide _ && negb _) with (test_remotebuild cfg usecs). rewrite Hover.
  reflexivity.
Qed.

(** The single-job path of [build_remote] up to the scheduler's reply. *)
Lemma build_remote_single job _envs permill usecs rest W :
  single_job cfg job permill W = true ->
  is_nil (env2 (rip_out_paths _envs ∅)) = false ->
  succeeds 0 W = true ->
  chan_inbox (w_daemon W) = Some (M_USE_CS usecs) :: rest ->
  exists getcs W1,
    build_remote cfg job _envs permill W
    = ('(done, job, ret) ← maybe_build_local cfg usecs job 0;
       if negb (done : bool) then
         build_remote_int cfg job usecs
           (map_at (version_map (rip_out_paths _envs ∅)) (host_platform usecs))
           (map_at (versionfile_map (rip_out_paths _envs ∅)) (host_platform usecs))
           None true
       else mret ret) W1 /\
    w_trace W1 = w_trace W ++ [EvSend local_daemon (M_GET_CS getcs) true;
                               EvRecv local_daemon (4 * 60) (Some (M_USE_CS usecs))] /\
    w_faults W1 = tl (w_faults W) /\
    w_fs W1 = w_fs W.
Proof.
  intros Hsingle Henvs Hsend Hin. unfold build_remote. rewrite bind_run.
  assert (Hdraw : exists W0,
    (if gnuc_at_least_3_3 cfg && negb (compiler_is_clang cfg job) && negb (streaming job)
     then r ← rand; mret (if (Z.rem r 1000 <? permill)%Z then 3 else 1)
     else mret 1) W = (Ret 1, W0) /\
    w_trace W0 = w_trace W /\ w_faults W0 = w_faults W /\ w_fs W0 = w_fs W /\
    w_daemon W0 = w_daemon W).
  { unfold single_job in Hsingle.
    destruct (gnuc_at_least_3_3 cfg && negb (compiler_is_clang cfg job)
              && negb (streaming job)); cbn [negb orb] in Hsingle.
    - rewrite bind_run, rand_run, mret_run.
      apply negb_true_iff in Hsingle. rewrite Hsingle. eexists. split; [reflexivity|].
      wsimpl. auto.
    - exists W. auto. }
  destruct Hdraw as (W0 & -> & Ht0 & Hf0 & Hfs0 & Hd0).
  cbv zeta. rewrite Henvs. cbn [bool_decide decide_rel].
  rewrite bool_decide_eq_true_2 by reflexivity.
  rewrite bind_run, send_msg_run. rewrite succeeds_0, <- Hf0 in Hsend. rewrite Hsend.
  cbn [negb]. rewrite bind_run.
  rewrite (get_server_run usecs rest) by (wsimpl; rewrite Hd0; exact Hin).
  eexists. eexists. split; [reflexivity|]. wsimpl.
  rewrite Ht0, Hf0, Hfs0, <- app_assoc. auto.
Qed.

End Loopback.

(** C6: when the GetCS request cannot be sent to the local daemon, the
    single-job path of [build_remote] raises the error numbered 24, and the
    replication path, once the preprocessor has run, raises the error
    numbered 0 with the same text: the number of the ask-for-CS error is
    not 24 on both paths. *)
Theorem get_cs_failure_codes (cfg : Config) (job : CompileJob) (_envs : Environments)
    (permill : Z) (W : World) :
  is_nil (env2 (rip_out_paths _envs ∅)) = false ->
  succeeds 0 W = false ->
  (single_job cfg job permill W = true ->
   (build_remote cfg job _envs permill W).1
   = Throw (client_error 24 "Error 24 - asked for CS")) /\
  (single_job cfg job permill W = false ->
   (cpp_pid (call_cpp cfg job) =? -1)%Z = false ->
   shell_exit_status (cpp_status (call_cpp cfg job)) = 0%Z ->
   (build_remote cfg job _envs permill W).1
   = Throw (client_error 0 "Error 0 - asked for CS")).
Proof.
  intros Henvs Hsend. rewrite succeeds_0 in Hsend. unfold build_remote, single_job.
  rewrite bind_run.
  destruct (gnuc_at_least_3_3 cfg && negb (compiler_is_clang cfg job)
            && negb (streaming job)); cbn [negb orb].
  - rewrite bind_run, rand_run, mret_run.
    destruct (Z.rem (hd 0%Z (w_rand W)) 1000 <? permill)%Z; cbn [negb];
      (split; [intros Hs|intros Hs Hpid Hst]; try discriminate Hs); cbv zeta; rewrite Henvs.
    + rewrite bool_decide_eq_false_2 by discriminate.
      rewrite bind_run. unfold dcc_make_tmpnam at 1. rewrite bind_run. unfold modify at 1.
      rewrite Hpid. rewrite bind_run. unfold modify at 1. rewrite Hst. cbn [Z.eqb negb].
      rewrite bind_run, rand_run, bind_run, send_msg_run. wsimpl. rewrite Hsend.
      reflexivity.
    + rewrite bool_decide_eq_true_2 by reflexivity.
      rewrite bind_run, send_msg_run. wsimpl. rewrite Hsend. reflexivity.
  - rewrite mret_run. split; [intros _|intros Hs; discriminate Hs].
    cbv zeta. rewrite Henvs. rewrite bool_decide_eq_true_2 by reflexivity.
    rewrite bind_run, send_msg_run. rewrite Hsend. reflexivity.
Qed.

Lemma get_cs_failure_codes_witness :
  (build_remote plain_cfg example_job example_envs 0 (example_world ∅ [] [] [Ffail])).1
  = Throw (client_error 24 "Error 24 - asked for CS") /\
  (build_remote plain_cfg example_job example_envs 1000 (example_world ∅ [] [] [Ffail])).1
  = Throw (client_error 0 "Error 0 - asked for CS").
Proof.
  split.
  - apply (get_cs_failure_codes plain_cfg example_job example_envs 0 (example_world ∅ [] [] [Ffail]));
      reflexivity.
  - apply (get_cs_failure_codes plain_cfg example_job example_envs 1000
             (example_world ∅ [] [] [Ffail])); reflexivity.
Defined.

(** C10: for an assignment to 127.0.0.1 to which the test-mode override
    does not apply, once the job was sent to the daemon, [maybe_build_local]
    runs [build_local] and returns whether the JobDone message could be
    sent; [build_remote] returns the local exit code when it could, and
    otherwise goes on with [build_remote_int] for the same job, in the
    world the local build has left, and dials 127.0.0.1. *)
Theorem jobdone_send_decides (cfg : Config) (job : CompileJob) (_envs : Environments)
    (permill : Z) (usecs : UseCSMsg) (rest : list (option Msg)) (W : World) :
  single_job cfg job permill W = true ->
  is_nil (env2 (rip_out_paths _envs ∅)) = false ->
  succeeds 0 W = true ->
  chan_inbox (w_daemon W) = Some (M_USE_CS usecs) :: rest ->
  hostname usecs = "127.0.0.1" ->
  test_remotebuild cfg usecs = false ->
  succeeds 1 W = true ->
  exists getcs msg W1 W2,
    w_trace W1 = w_trace W ++ [EvSend local_daemon (M_GET_CS getcs) true;
                               EvRecv local_daemon (4 * 60) (Some (M_USE_CS usecs))] /\
    maybe_build_local cfg usecs job 0 W1
    = (Ret (succeeds 2 W, local_job usecs job,
            lr_ret (build_local cfg (local_job usecs job))), W2) /\
    w_trace W2
    = w_trace W1 ++ [EvSend local_daemon (M_COMPILE_FILE (local_job usecs job)) true;
                     EvBuildLocal (local_job usecs job)
                       (lr_ret (build_local cfg (local_job usecs job)));
                     EvSend local_daemon (M_JOB_DONE msg) (succeeds 2 W)] /\
    w_fs W2 = lr_fs (build_local cfg (local_job usecs job)) (w_fs W) /\
    build_remote cfg job _envs permill W
    = (if succeeds 2 W
       then (Ret (lr_ret (build_local cfg (local_job usecs job))), W2)
       else build_remote_int cfg (local_job usecs job) usecs
              (map_at (version_map (rip_out_paths _envs ∅)) (host_platform usecs))
              (map_at (versionfile_map (rip_out_paths _envs ∅)) (host_platform usecs))
              None true W2) /\
    (succeeds 2 W = false ->
     exists evs,
       w_trace (build_remote cfg job _envs permill W).2
       = w_trace W2 ++ EvConnect "127.0.0.1" (port usecs) 10 (succeeds 3 W) :: evs).
Proof.
  intros Hsingle Henvs Hgetcs Hin Hhost Hover Hcompile.
  destruct (build_remote_single cfg job _envs permill usecs rest W Hsingle Henvs Hgetcs Hin)
    as (getcs & W1 & Hrun & Ht1 & Hf1 & Hfs1).
  assert (Hnext : forall n, succeeds n W1 = succeeds (S n) W).
  { intros n. rewrite succeeds_S. unfold succeeds. cbn [set_faults w_faults].
    now rewrite Hf1. }
  destruct (maybe_build_local_run cfg usecs job 0 W1 Hhost Hover) as
    (msg & W2 & Hlocal & Ht2 & Hf2 & Hfs2 & _ & _ & _).
  { rewrite Hnext. exact Hcompile. }
  rewrite Hnext in Hlocal, Ht2.
  exists getcs, msg, W1, W2. split; [exact Ht1|]. split; [exact Hlocal|].
  split; [exact Ht2|]. split; [now rewrite Hfs2, Hfs1|].
  assert (Hbuild : build_remote cfg job _envs permill W
    = (if succeeds 2 W
       then (Ret (lr_ret (build_local cfg (local_job usecs job))), W2)
       else build_remote_int cfg (local_job usecs job) usecs
              (map_at (version_map (rip_out_paths _envs ∅)) (host_platform usecs))
              (map_at (versionfile_map (rip_out_paths _envs ∅)) (host_platform usecs))
              None true W2)).
  { rewrite Hrun, bind_run, Hlocal. destruct (succeeds 2 W); reflexivity. }
  split; [exact Hbuild|]. intros Hdone. rewrite Hbuild, Hdone.
  destruct (build_remote_int_dials cfg (local_job usecs job) usecs
              (map_at (version_map (rip_out_paths _envs ∅)) (host_platform usecs))
              (map_at (versionfile_map (rip_out_paths _envs ∅)) (host_platform usecs))
              None true W2) as (evs & Hdial).
  exists evs. rewrite Hdial, Hhost.
  replace (is_ok (hd Fok (w_faults W2))) with (succeeds 3 W); [reflexivity|].
  unfold succeeds. rewrite Hf2, Hf1. destruct (w_faults W) as [|? [|? [|? [|? ?]]]]; reflexivity.
Qed.

(** C5 (amended): for an assignment to 127.0.0.1 on the single-job path,
    with port 0: when the CompileFile and JobDone messages both reach the
    daemon, the job is built locally, JobDone(FROM_SUBMITTER) is reported
    and nothing is dialled; when CompileFile cannot be sent, error 29 is
    raised with no build and no dial.  With a non-zero port and
    ICECC_TEST_REMOTEBUILD set, the run is that of [build_remote_int],
    which dials 127.0.0.1 at that port. *)
Theorem loopback_dispatch (cfg : Config) (job : CompileJob) (_envs : Environments)
    (permill : Z) (usecs : UseCSMsg) (rest : list (option Msg)) (W : World) :
  single_job cfg job permill W = true ->
  is_nil (env2 (rip_out_paths _envs ∅)) = false ->
  succeeds 0 W = true ->
  chan_inbox (w_daemon W) = Some (M_USE_CS usecs) :: rest ->
  hostname usecs = "127.0.0.1" ->
  exists evs,
    w_trace (build_remote cfg job _envs permill W).2 = w_trace W ++ evs /\
    (port usecs = 0%Z -> succeeds 1 W = true -> succeeds 2 W = true ->
     (build_remote cfg job _envs permill W).1
     = Ret (lr_ret (build_local cfg (local_job usecs job))) /\
     local_builds evs = [local_job usecs job] /\
     dials evs = [] /\
     exists getcs msg,
       daemon_sends evs = [M_GET_CS getcs; M_COMPILE_FILE (local_job usecs job);
                           M_JOB_DONE msg] /\
       jd_job_id msg = job_id usecs /\
       jd_exitcode msg = lr_ret (build_local cfg (local_job usecs job)) /\
       jd_flags msg = FROM_SUBMITTER) /\
    (port usecs = 0%Z -> succeeds 1 W = false ->
     (build_remote cfg job _envs permill W).1
     = Throw (client_error 29 "Error 29 - write of job failed") /\
     local_builds evs = [] /\
     dials evs = []) /\
    (port usecs ≠ 0%Z -> is_Some (getenv cfg "ICECC_TEST_REMOTEBUILD") ->
     exists getcs W1 post,
       w_trace W1 = w_trace W ++ [EvSend local_daemon (M_GET_CS getcs) true;
                                  EvRecv local_daemon (4 * 60) (Some (M_USE_CS usecs))] /\
       build_remote cfg job _envs permill W
       = build_remote_int cfg job usecs
           (map_at (version_map (rip_out_paths _envs ∅)) (host_platform usecs))
           (map_at (versionfile_map (rip_out_paths _envs ∅)) (host_platform usecs))
           None true W1 /\
       evs = [EvSend local_daemon (M_GET_CS getcs) true;
              EvRecv local_daemon (4 * 60) (Some (M_USE_CS usecs));
              EvConnect "127.0.0.1" (port usecs) 10 (succeeds 1 W)] ++ post).
Proof.
  intros Hsingle Henvs Hgetcs Hin Hhost.
  destruct (build_remote_single cfg job _envs permill usecs rest W Hsingle Henvs Hgetcs Hin)
    as (getcs & W1 & Hrun & Ht1 & Hf1 & Hfs1).
  assert (Hnext : forall n, succeeds n W1 = succeeds (S n) W).
  { intros n. rewrite succeeds_S. unfold succeeds. cbn [set_faults w_faults].
    now rewrite Hf1. }
  assert (Hport : port usecs = 0%Z -> test_remotebuild cfg usecs = false).
  { intros Hp. unfold test_remotebuild. rewrite Hp. apply andb_false_r. }
  destruct (test_remotebuild cfg usecs) eqn:Hover.
  - (* the override: the remote path *)
    rewrite Hrun, bind_run, (maybe_build_local_override cfg usecs job 0 W1 Hhost Hover).
    cbn [negb].
    destruct (build_remote_int_dials cfg job usecs
                (map_at (version_map (rip_out_paths _envs ∅)) (host_platform usecs))
                (map_at (versionfile_map (rip_out_paths _envs ∅)) (host_platform usecs))
                None true (set_remote_daemon (hostname usecs) W1)) as (post & Hdial).
    eexists. split.
    { rewrite Hdial. cbn [set_remote_daemon w_trace w_faults]. rewrite Ht1, <- app_assoc.
      reflexivity. }
    split; [intros Hp; discriminate (Hport Hp)|].
    split; [intros Hp; discriminate (Hport Hp)|].
    intros _ _. exists getcs, (set_remote_daemon (hostname usecs) W1), post.
    split; [exact Ht1|]. split; [reflexivity|].
    cbn [app]. rewrite Hhost.
    replace (is_ok (hd Fok (w_faults W1))) with (succeeds 1 W); [reflexivity|].
    rewrite <- Hnext. apply succeeds_0.
  - destruct (succeeds 1 W) eqn:Hcompile.
    + (* the local build *)
      destruct (maybe_build_local_run cfg usecs job 0 W1 Hhost Hover) as
        (msg & W2 & Hlocal & Ht2 & Hf2 & Hfs2 & Hid & Hcode & Hflags).
      { rewrite Hnext. exact Hcompile. }
      rewrite Hnext in Hlocal, Ht2.
      destruct (succeeds 2 W) eqn:Hdone.
      * exists [EvSend local_daemon (M_GET_CS getcs) true;
                EvRecv local_daemon (4 * 60) (Some (M_USE_CS usecs));
                EvSend local_daemon (M_COMPILE_FILE (local_job usecs job)) true;
                EvBuildLocal (local_job usecs job)
                  (lr_ret (build_local cfg (local_job usecs job)));
                EvSend local_daemon (M_JOB_DONE msg) true].
        rewrite Hrun, bind_run, Hlocal. cbn [negb]. rewrite mret_run. cbn [fst snd].
        split; [rewrite Ht2, Ht1, <- app_assoc; reflexivity|].
        split; [|split; [intros _ Hfalse; discriminate Hfalse|]].
        -- intros _ _ _. split; [reflexivity|]. split; [reflexivity|].
           split; [reflexivity|]. exists getcs, msg. auto.
        -- intros Hp Hset. rewrite (test_remotebuild_on cfg usecs Hp Hset) in Hover.
           discriminate Hover.
      * rewrite Hrun, bind_run, Hlocal. cbn [negb].
        destruct (build_remote_int_dials cfg (local_job usecs job) usecs
                (map_at (version_map (rip_out_paths _envs ∅)) (host_platform usecs))
                (map_at (versionfile_map (rip_out_paths _envs ∅)) (host_platform usecs))
                None true W2) as (post & Hdial).
        eexists. split; [rewrite Hdial, Ht2, Ht1, <- !app_assoc; reflexivity|].
        split; [intros _ _ Hfalse; discriminate Hfalse|].
        split; [intros _ Hfalse; discriminate Hfalse|].
        intros Hp Hset. rewrite (test_remotebuild_on cfg usecs Hp Hset) in Hover.
        discriminate Hover.
    + (* the job did not reach the daemon *)
      destruct (maybe_build_local_unsent cfg usecs job 0 W1 Hhost Hover) as (W2 & Hlocal & Ht2).
      { rewrite Hnext. exact Hcompile. }
      exists [EvSend local_daemon (M_GET_CS getcs) true;
              EvRecv local_daemon (4 * 60) (Some (M_USE_CS usecs));
              EvSend local_daemon (M_COMPILE_FILE (local_job usecs job)) false;
              EvLog Info "write of job failed"].
      rewrite Hrun, bind_run, Hlocal. cbn [fst snd].
      split; [rewrite Ht2, Ht1, <- app_assoc; reflexivity|].
      split; [intros _ Hfalse; discriminate Hfalse|].
      split; [intros _ _; auto|].
      intros Hp Hset. rewrite (test_remotebuild_on cfg usecs Hp Hset) in Hover.
      discriminate Hover.
Qed.

Lemma loopback_dispatch_witness :
  (exists evs,
     w_trace (build_remote plain_cfg example_job example_envs 0 (loopback_world [])).2 = evs /\
     (build_remote plain_cfg example_job example_envs 0 (loopback_world [])).1 = Ret 0%Z /\
     local_builds evs = [local_job (example_usecs "127.0.0.1" 0) example_job] /\
     dials evs = []) /\
  (exists evs,
     w_trace (build_remote override_cfg example_job example_envs 0
                override_world).2 = evs /\
     dials (take 3 evs) = [("127.0.0.1", 10245%Z)]).
Proof.
  split.
  - destruct (loopback_dispatch plain_cfg example_job example_envs 0 (example_usecs "127.0.0.1" 0) []
                (loopback_world []) eq_refl eq_refl eq_refl eq_refl eq_refl)
      as (evs & Ht & Hlocal & _).
    exists evs. split; [exact Ht|].
    destruct (Hlocal eq_refl eq_refl eq_refl) as (Hret & Hbuilds & Hdials & _).
    split; [exact Hret|]. split; [exact Hbuilds|exact Hdials].
  - destruct (loopback_dispatch override_cfg example_job example_envs
                0 (example_usecs "127.0.0.1" 10245) [] override_world
                eq_refl eq_refl eq_refl eq_refl eq_refl)
      as (evs & Ht & _ & _ & Hremote).
    exists evs. split; [exact Ht|].
    destruct Hremote as (getcs & W1 & post & _ & _ & ->); [discriminate|eexists; reflexivity|].
    reflexivity.
Defined.

Lemma loopback_port0_counterexample :
  hostname (example_usecs "127.0.0.1" 0) = "127.0.0.1" /\
  port (example_usecs "127.0.0.1" 0) = 0%Z /\
  dials (w_trace (build_remote plain_cfg example_job example_envs 0
                    (loopback_world [Fok; Fok; Ffail])).2)
  = [("127.0.0.1", 0%Z)] /\
  (build_remote plain_cfg example_job example_envs 0 (loopback_world [Fok; Ffail])).1
  = Throw (client_error 29 "Error 29 - write of job failed") /\
  local_builds (w_trace (build_remote plain_cfg example_job example_envs 0
                           (loopback_world [Fok; Ffail])).2) = [].
Proof. vm_compute. repeat split. Qed.

Lemma jobdone_send_decides_witness :
  exists W2 evs,
    local_builds (w_trace W2) = [local_job (example_usecs "127.0.0.1" 0) example_job] /\
    dials (w_trace W2) = [] /\
    w_trace (build_remote plain_cfg example_job example_envs 0
               (loopback_world [Fok; Fok; Ffail])).2
    = w_trace W2 ++ EvConnect "127.0.0.1" 0 10 true :: evs.
Proof.
  destruct (jobdone_send_decides plain_cfg example_job example_envs 0
              (example_usecs "127.0.0.1" 0) [] (loopback_world [Fok; Fok; Ffail])
              eq_refl eq_refl eq_refl eq_refl eq_refl eq_refl eq_refl)
    as (getcs & msg & W1 & W2 & Ht1 & _ & Ht2 & _ & _ & Hdial).
  destruct (Hdial eq_refl) as (evs & Ht).
  exists W2, evs. rewrite Ht2, Ht1. split; [reflexivity|]. split; [reflexivity|].
  rewrite Ht, Ht2, Ht1. reflexivity.
Defined.

(** ** The path canonicaliser, continued *)

(** The three passes of [get_absfilename] on [file0]. *)
Lemma passes_free file0 :
  let file1 := rewrite_while (String.length file0) "/.." 3 file0 in
  let file2 := rewrite_while (String.length file1) "/./" 3 file1 in
  let file3 := rewrite_while (String.length file2) "//" 2 file2 in
  find "/.." file3 = None /\ find "/./" file3 = None /\ find "//" file3 = None.
Proof.
  intros file1 file2 file3.
  assert (F1 : find "/.." file1 = None)
    by (apply (rewrite_while_done "/.."); cbn; lia).
  assert (F2 : find "/./" file2 = None)
    by (apply (rewrite_while_done "/./"); cbn; lia).
  assert (F3 : find "//" file3 = None)
    by (apply (rewrite_while_done "//"); cbn; lia).
  assert (G2 : find "/.." file2 = None)
    by (apply (rewrite_while_keeps (fun s => find "/.." s = None));
        [apply dotdot_free_after_dot|exact F1]).
  split; [|split; [|exact F3]].
  - apply (rewrite_while_keeps (fun s => find "/.." s = None));
      [apply dotdot_free_after_slash|exact G2].
  - apply (rewrite_while_keeps (fun s => find "/./" s = None));
      [apply dot_free_after_slash|exact F2].
Qed.

Lemma passes_absolute file0 :
  absolute file0 ->
  absolute (rewrite_while
              (String.length (rewrite_while
                 (String.length (rewrite_while (String.length file0) "/.." 3 file0))
                 "/./" 3 (rewrite_while (String.length file0) "/.." 3 file0)))
              "//" 2
              (rewrite_while
                 (String.length (rewrite_while (String.length file0) "/.." 3 file0))
                 "/./" 3 (rewrite_while (String.length file0) "/.." 3 file0))).
Proof.
  intros H0.
  repeat (apply rewrite_while_keeps;
          [intros ? ? Hf Hs; apply (replace_absolute _ _ _ _) with (2 := Hf) (3 := Hs);
           reflexivity|]).
  exact H0.
Qed.

Lemma relative_start cwd c p :
  absolute cwd -> absolute (cwd +:+ "/" +:+ String c p).
Proof. unfold absolute. destruct cwd as [|a cwd]; [discriminate|]. intros H. exact H. Qed.

(** X1: whatever the working directory and the path, the result of
    [get_absfilename] contains none of [/..], [/./] and [//]. *)
Theorem get_absfilename_canonical cwd p :
  find "/.." (get_absfilename cwd p) = None /\
  find "/./" (get_absfilename cwd p) = None /\
  find "//" (get_absfilename cwd p) = None.
Proof.
  destruct p as [|c0 p]; [repeat split; reflexivity|].
  cbn [get_absfilename]. apply passes_free.
Qed.

(** X2: with an absolute working directory, [get_absfilename] turns every
    path but the empty one into an absolute path. *)
Theorem get_absfilename_absolute cwd p :
  absolute cwd -> p ≠ "" -> absolute (get_absfilename cwd p).
Proof.
  intros Hcwd Hp. destruct p as [|c0 p]; [congruence|].
  cbn [get_absfilename]. apply passes_absolute.
  destruct (Ascii.eqb_spec c0 "/") as [->|Hc].
  - reflexivity.
  - now apply relative_start.
Qed.

Lemma get_absfilename_absolute_witness :
  absolute (get_absfilename "/home/u" "a/../b").
Proof. apply (get_absfilename_absolute "/home/u" "a/../b"); [reflexivity|discriminate]. Defined.

(** X3: with an absolute working directory, the paths that
    [get_absfilename] returns as they are, are the empty path and the
    absolute paths that contain none of [/..], [/./] and [//]. *)
Theorem get_absfilename_fixed_points cwd s :
  absolute cwd ->
  get_absfilename cwd s = s <->
  s = "" \/ (absolute s /\ find "/.." s = None /\ find "/./" s = None /\ find "//" s = None).
Proof.
  intros Hcwd. split.
  - intros Hfix. destruct s as [|c0 s]; [now left|right].
    rewrite <- Hfix. split.
    + cbn [get_absfilename]. apply passes_absolute.
      destruct (Ascii.eqb_spec c0 "/") as [->|Hc]; [reflexivity|now apply relative_start].
    + cbn [get_absfilename]. apply passes_free.
  - intros [->|(Ha & H1 & H2 & H3)]; [reflexivity|].
    now apply canonical_fixed.
Qed.

Lemma get_absfilename_fixed_points_witness :
  get_absfilename "/home/u" "/usr/lib/x.c" = "/usr/lib/x.c" /\
  get_absfilename "/home/u" "x.c" <> "x.c".
Proof.
  split.
  - apply (get_absfilename_fixed_points "/home/u" "/usr/lib/x.c"); [reflexivity|].
    right. repeat split; reflexivity.
  - intros H. apply (get_absfilename_fixed_points "/home/u" "x.c") in H; [|reflexivity].
    destruct H as [H|[H _]]; discriminate H.
Defined.

(** ** The archives of the catalog *)

Lemma drop_str_app s t : drop_str (String.length s) (s +:+ t) = t.
Proof. induction s as [|c s IH]; [now destruct t|exact IH]. Qed.

Lemma take_str_app s t : take_str (String.length s) (s +:+ t) = s.
Proof.
  induction s as [|c s IH]; [now destruct t|]. cbn [String.length take_str].
  change (String c s +:+ t) with (String c (s +:+ t)). cbn. now rewrite IH.
Qed.

Lemma drop_str_drop a b s : drop_str a (drop_str b s) = drop_str (a + b) s.
Proof.
  revert s. induction b as [|b IH]; intros s.
  - now rewrite Nat.add_0_r.
  - rewrite Nat.add_succ_r. destruct s as [|c s]; [now destruct a|]. cbn. apply IH.
Qed.

(** X4: [endswith(orig, suff, ret)] succeeds exactly when [orig] is a stem
    followed by [suff] and the stem is not empty; [ret] is the stem.  So a
    string that is only the suffix does not end with it. *)
Theorem endswith_iff orig suff stem :
  endswith orig suff = Some stem <-> orig = stem +:+ suff /\ stem ≠ "".
Proof.
  split.
  - intros H. split; [now apply endswith_Some|].
    unfold endswith in H.
    destruct (Nat.ltb_spec (String.length suff) (String.length orig)) as [Hlt|];
      [|discriminate].
    cbn [andb] in H. destruct (String.eqb _ suff); [|discriminate].
    injection H as <-. unfold substr. cbn [drop_str].
    destruct orig as [|c orig]; [cbn in Hlt; lia|].
    destruct (String.length (String c orig) - String.length suff) eqn:E;
      [cbn in Hlt, E; lia|discriminate].
  - intros [-> Hstem]. unfold endswith.
    rewrite append_length.
    replace (String.length stem + String.length suff - String.length suff)
      with (String.length stem) by lia.
    unfold substr. cbn [drop_str]. rewrite drop_str_app, take_str_app, String.eqb_refl.
    destruct (Nat.ltb_spec (String.length suff) (String.length stem + String.length suff))
      as [|Hge]; [reflexivity|].
    destruct stem; [congruence|cbn in Hge; lia].
Qed.

(** Two suffixes of the same string: the shorter is a suffix of the longer. *)
Lemma endswith_nested orig s1 s2 st1 st2 :
  endswith orig s1 = Some st1 -> endswith orig s2 = Some st2 ->
  String.length s1 <= String.length s2 ->
  s1 = drop_str (String.length s2 - String.length s1) s2.
Proof.
  intros H1%endswith_Some H2%endswith_Some Hle.
  assert (Hlen : String.length st1 = String.length st2 + (String.length s2 - String.length s1)).
  { apply (f_equal String.length) in H1, H2. rewrite append_length in H1, H2. lia. }
  remember (String.length s2 - String.length s1) as n eqn:Hn.
  assert (E1 : drop_str (String.length st1) orig = s1) by (rewrite H1; apply drop_str_app).
  assert (E2 : drop_str (String.length st2) orig = s2) by (rewrite H2; apply drop_str_app).
  rewrite <- E1, <- E2, drop_str_drop. f_equal. lia.
Qed.

(** No path ends in two of the archive suffixes. *)
Lemma suffs_exclusive orig s1 s2 st1 st2 :
  s1 ∈ suffs -> s2 ∈ suffs ->
  endswith orig s1 = Some st1 -> endswith orig s2 = Some st2 -> s1 = s2.
Proof.
  intros Hs1 Hs2 H1 H2.
  assert (Hn : s1 = drop_str (String.length s2 - String.length s1) s2 \/
               s2 = drop_str (String.length s1 - String.length s2) s1).
  { destruct (Nat.le_ge_cases (String.length s1) (String.length s2)) as [Hle|Hle].
    - left. exact (endswith_nested _ _ _ _ _ H1 H2 Hle).
    - right. exact (endswith_nested _ _ _ _ _ H2 H1 Hle). }
  unfold suffs in Hs1, Hs2.
  repeat (apply elem_of_cons in Hs1 as [->|Hs1]); [..|now apply elem_of_nil in Hs1];
    (repeat (apply elem_of_cons in Hs2 as [->|Hs2]); [..|now apply elem_of_nil in Hs2]);
    try reflexivity; destruct Hn as [Hn|Hn]; vm_compute in Hn; discriminate Hn.
Qed.

(** So the inner loop of [rip_out_paths], which tries every suffix and has
    no [break], adds at most one entry. *)
Lemma rip_suffixes_run it r :
  rip_suffixes it r
  = match archive_version it.2 with
    | Some v => mk_ripped (env2 r ++ [(it.1, v)]) (<[it.1 := v]> (version_map r))
                          (<[it.1 := it.2]> (versionfile_map r))
    | None => r
    end.
Proof.
  unfold rip_suffixes, archive_version, suffs. cbn.
  destruct (endswith it.2 ".tar.bz2") as [a|] eqn:Ea;
  destruct (endswith it.2 ".tar.gz") as [b|] eqn:Eb;
  destruct (endswith it.2 ".tar") as [c|] eqn:Ec;
  destruct (endswith it.2 ".tgz") as [d|] eqn:Ed;
  cbn; try reflexivity; exfalso;
  match goal with
  | H1 : endswith ?o ?s1 = Some _, H2 : endswith ?o ?s2 = Some _ |- _ =>
      assert (s1 = s2) as Heq
        by (eapply suffs_exclusive; [| |exact H1|exact H2]; unfold suffs; set_solver);
      discriminate Heq
  end.
Qed.

(** X5: the list that [rip_out_paths] builds holds, in the order of the
    input, one entry for every path that ends in [.tar.bz2], [.tar.gz],
    [.tar] or [.tgz] behind a non-empty stem: the platform and the basename
    of the stem.  The other paths are dropped, and although the inner loop
    tries every suffix without leaving, no path is entered twice. *)
Theorem rip_out_paths_entries envs vfm :
  env2 (rip_out_paths envs vfm)
  = omap (fun it => (it.1,.) <$> archive_version it.2) envs.
Proof.
  unfold rip_out_paths.
  induction envs as [|it envs IH] using rev_ind; [reflexivity|].
  rewrite fold_left_app, omap_app, <- IH.
  remember (fold_left _ envs _) as R eqn:HR. clear HR IH.
  change (fold_left _ [it] R) with (rip_suffixes it R). rewrite rip_suffixes_run.
  destruct (archive_version it.2) as [v|] eqn:E; cbn; rewrite E; cbn;
    [reflexivity|now rewrite app_nil_r].
Qed.

(** The entries that the outer loop appends to the catalog. *)
Lemma rip_fold_env2 envs r :
  env2 (fold_left (fun r it => rip_suffixes it r) envs r)
  = env2 r ++ omap (fun it => (it.1,.) <$> archive_version it.2) envs.
Proof.
  revert r. induction envs as [|it envs IH]; intros r; [now rewrite app_nil_r|].
  cbn [fold_left]. rewrite IH, rip_suffixes_run. cbn [omap list_omap].
  destruct (archive_version it.2) as [v|]; cbn; [now rewrite <- app_assoc|reflexivity].
Qed.

Lemma rip_fold_maps envs r plat :
  NoDup (envs.*1) ->
  let R := fold_left (fun r it => rip_suffixes it r) envs r in
  (forall path, (plat, path) ∈ envs ->
     version_map R !! plat
     = (match archive_version path with Some v => Some v | None => version_map r !! plat end)
     /\ versionfile_map R !! plat
        = (match archive_version path with
           | Some _ => Some path
           | None => versionfile_map r !! plat
           end)) /\
  (plat ∉ envs.*1 ->
     version_map R !! plat = version_map r !! plat /\
     versionfile_map R !! plat = versionfile_map r !! plat).
Proof.
  revert r. induction envs as [|[p q] envs IH]; intros r Hnd R.
  - split; [intros path Hin; now apply elem_of_nil in Hin|auto].
  - cbn [fmap list_fmap] in Hnd. apply NoDup_cons in Hnd as [Hp Hnd]. cbn [fst] in Hp.
    subst R. cbn [fold_left]. rewrite rip_suffixes_run. cbn [fst snd].
    set (r1 := match archive_version q with Some v => _ | None => r end).
    destruct (IH r1 Hnd) as [Hin Hout]. split.
    + intros path [[= <- <-]|Hpath]%elem_of_cons.
      * destruct (Hout Hp) as [-> ->]. subst r1.
        destruct (archive_version path); cbn; [now rewrite !lookup_insert_eq|auto].
      * destruct (Hin path Hpath) as [-> ->].
        assert (Hne : p ≠ plat).
        { intros ->. apply Hp. apply list_elem_of_fmap. now exists (plat, path). }
        subst r1. destruct (archive_version q); cbn; rewrite ?lookup_insert_ne by exact Hne;
          auto.
    + intros Hnot. cbn [fmap list_fmap] in Hnot. apply not_elem_of_cons in Hnot as [Hne Hnot].
      cbn [fst] in Hne.
      destruct (Hout Hnot) as [-> ->]. subst r1.
      destruct (archive_version q); cbn; rewrite ?lookup_insert_ne by congruence; auto.
Qed.

Lemma NoDup_fst_functional (l : list (string * string)) a b b' :
  NoDup (l.*1) -> (a, b) ∈ l -> (a, b') ∈ l -> b = b'.
Proof.
  induction l as [|[x y] l IH]; intros Hnd H1 H2; [now apply elem_of_nil in H1|].
  cbn [fmap list_fmap] in Hnd. apply NoDup_cons in Hnd as [Hx Hnd]. cbn [fst] in Hx.
  apply elem_of_cons in H1 as [H1|H1]; apply elem_of_cons in H2 as [H2|H2]; simplify_eq.
  - reflexivity.
  - exfalso. apply Hx. apply list_elem_of_fmap. now exists (x, b').
  - exfalso. apply Hx. apply list_elem_of_fmap. now exists (x, b).
  - now apply IH.
Qed.

(** X6: when no platform occurs twice in the input of [rip_out_paths], the
    two maps agree with the list: [version_map] holds a version for a
    platform exactly when the list pairs them, [versionfile_map] holds a
    path exactly when the input pairs the platform with that path and the
    path is an archive, and the version is the one read off that path. *)
Theorem rip_out_paths_maps envs plat :
  NoDup (envs.*1) ->
  (forall v, (plat, v) ∈ env2 (rip_out_paths envs ∅)
             <-> version_map (rip_out_paths envs ∅) !! plat = Some v) /\
  (forall path, versionfile_map (rip_out_paths envs ∅) !! plat = Some path
                <-> (plat, path) ∈ envs /\ is_Some (archive_version path)) /\
  (forall path v, versionfile_map (rip_out_paths envs ∅) !! plat = Some path ->
                  version_map (rip_out_paths envs ∅) !! plat = Some v ->
                  archive_version path = Some v).
Proof.
  intros Hnd.
  destruct (rip_fold_maps envs (mk_ripped [] ∅ ∅) plat Hnd) as [Hin Hout].
  fold (rip_out_paths envs ∅) in Hin, Hout. cbn [version_map versionfile_map] in Hin, Hout.
  assert (Henv : env2 (rip_out_paths envs ∅)
                 = omap (fun it => (it.1,.) <$> archive_version it.2) envs)
    by (unfold rip_out_paths; rewrite rip_fold_env2; reflexivity).
  rewrite Henv. clear Henv.
  destruct (decide (plat ∈ envs.*1)) as [Hplat|Hplat].
  - apply list_elem_of_fmap in Hplat as ([p path] & -> & Hpath). cbn [fst] in *.
    destruct (Hin path Hpath) as [Hv Hf]. rewrite !lookup_empty in Hv, Hf.
    assert (Huniq : forall path', (p, path') ∈ envs -> path' = path)
      by (intros path' Hpath'; exact (NoDup_fst_functional _ _ _ _ Hnd Hpath' Hpath)).
    split; [|split].
    + intros v. rewrite Hv. split.
      * intros ([a b] & Hab & Hsome)%list_elem_of_omap. cbn [fst snd] in Hsome.
        destruct (archive_version b) as [w|] eqn:Eb; [|discriminate].
        injection Hsome as <- <-. rewrite (Huniq b Hab) in Eb. now rewrite Eb.
      * intros Hsome. apply list_elem_of_omap. exists (p, path). split; [exact Hpath|].
        cbn [fst snd]. destruct (archive_version path); [|discriminate].
        now injection Hsome as ->.
    + intros path'. rewrite Hf. split.
      * destruct (archive_version path) eqn:E; [|discriminate]. intros [= <-].
        split; [exact Hpath|]. rewrite E. eauto.
      * intros [Hpath' [w Hw]]. rewrite (Huniq path' Hpath') in Hw. now rewrite Hw, (Huniq path' Hpath').
    + intros path' v. rewrite Hf, Hv. destruct (archive_version path) eqn:E; [|discriminate].
      intros [= <-] [= <-]. exact E.
  - destruct (Hout Hplat) as [Hv Hf]. rewrite !lookup_empty in Hv, Hf.
    split; [|split].
    + intros v. rewrite Hv. split; [|discriminate].
      intros ([a b] & Hab & Hsome)%list_elem_of_omap. cbn [fst snd] in Hsome.
      destruct (archive_version b); [|discriminate]. injection Hsome as <- <-.
      exfalso. apply Hplat. apply list_elem_of_fmap. now exists (a, b).
    + intros path. rewrite Hf. split; [discriminate|].
      intros [Hpath _]. exfalso. apply Hplat. apply list_elem_of_fmap. now exists (plat, path).
    + intros path v. rewrite Hf. discriminate.
Qed.

(** ** The file hasher *)

Lemma fread_split n data :
  (fread n data).1 ++ (fread n data).2 = data.
Proof.
  revert n. induction data as [|b rest IH]; intros n; cbn [fread]; [reflexivity|].
  destruct (n <=? 0)%Z; [reflexivity|].
  specialize (IH (n - 1)%Z). destruct (fread (n - 1) rest) as [chunk rest']. cbn in *.
  now rewrite IH.
Qed.

Lemma fread_progress n b data : (0 < n)%Z -> (fread n (b :: data)).1 ≠ [].
Proof.
  intros Hn. cbn [fread]. destruct (Z.leb_spec n 0); [lia|].
  destruct (fread (n - 1) data). discriminate.
Qed.

(** The read loop of [md5_for_file] appends the whole stream, whatever the
    size of the buffer it reads with. *)
Lemma md5_read_loop_all fuel state f :
  length f < fuel -> md5_read_loop fuel state f = state ++ f.
Proof.
  revert state f. induction fuel as [|fuel IH]; intros state f Hfuel; [lia|].
  cbn [md5_read_loop].
  pose proof (fread_split 40000 f) as Hsplit.
  destruct (fread 40000 f) as [buffer f'] eqn:E. cbn [fst snd] in Hsplit.
  destruct buffer as [|b buffer].
  - destruct f as [|b f]; [now rewrite app_nil_r|].
    exfalso. apply (fread_progress 40000 b f); [lia|]. now rewrite E.
  - rewrite IH.
    + unfold md5_append. now rewrite <- app_assoc, Hsplit.
    + apply (f_equal (@length byte)) in Hsplit. rewrite length_app in Hsplit. cbn in Hsplit. lia.
Qed.

Lemma hex_digit_lower n : (0 <= n < 16)%Z -> lower_hex (hex_digit n) = true.
Proof.
  intros Hn. unfold hex_digit.
  assert (Hlt : Z.to_nat n < 16) by lia.
  generalize dependent (Z.to_nat n). intros m Hlt.
  do 16 (destruct m as [|m]; [reflexivity|]). lia.
Qed.

Lemma hex02_lower b : forallb lower_hex (list_ascii_of_string (hex02 b)) = true.
Proof.
  unfold hex02. cbn [list_ascii_of_string forallb].
  rewrite !hex_digit_lower; [reflexivity|apply Z.mod_pos_bound; lia..].
Qed.

Lemma list_ascii_app s t :
  list_ascii_of_string (s +:+ t) = list_ascii_of_string s ++ list_ascii_of_string t.
Proof. induction s as [|c s IH]; [now destruct t|]. cbn. now rewrite <- IH. Qed.

(** X7: for a file that can be opened, [md5_for_file] is the digest of
    the whole content, read in rounds of 40000 bytes, and is written in the
    digits 0-9 and a-f. *)
Theorem md5_for_file_whole fs file d :
  fopen fs file = Some d ->
  md5_for_file fs file = hexdigest d /\
  forallb lower_hex (list_ascii_of_string (md5_for_file fs file)) = true.
Proof.
  intros Hopen. unfold md5_for_file. rewrite Hopen. cbv zeta.
  rewrite md5_read_loop_all by lia. split; [reflexivity|].
  generalize (md5_finish (md5_init ++ d)). intros digest.
  induction (seq 0 16) as [|di l IH]; [reflexivity|].
  cbn [fold_right]. now rewrite list_ascii_app, forallb_app, hex02_lower, IH.
Qed.

(** ** The stream to the server *)

Lemma fread_length n data : (0 <= n)%Z -> (Z.of_nat (length (fread n data).1) <= n)%Z.
Proof.
  revert n. induction data as [|b rest IH]; intros n Hn; cbn [fread]; [cbn; lia|].
  destruct (Z.leb_spec n 0); [cbn; lia|].
  specialize (IH (n - 1)%Z). destruct (fread (n - 1) rest) as [chunk rest']. cbn in *. lia.
Qed.

(** A read that succeeds takes a prefix of the stream that fits the room
    left in the buffer, and takes nothing only at the end of the stream. *)
Lemma read_retry_spec faults d room :
  (0 < room)%Z ->
  match (read_retry faults d room).1 with
  | Some (bytes, rest) =>
      bytes ++ rest = d /\ (Z.of_nat (length bytes) <= room)%Z /\ (bytes = [] -> d = [])
  | None => True
  end.
Proof.
  intros Hroom.
  assert (Hread : forall n, (0 < n <= room)%Z ->
    match Some (fread n d) with
    | Some (bytes, rest) =>
        bytes ++ rest = d /\ (Z.of_nat (length bytes) <= room)%Z /\ (bytes = [] -> d = [])
    | None => True
    end).
  { intros n Hn. pose proof (fread_split n d) as Hs. pose proof (fread_length n d) as Hl.
    destruct d as [|b d].
    - cbn. split; [reflexivity|]. split; [lia|auto].
    - pose proof (fread_progress n b d) as Hp.
      destruct (fread n (b :: d)) as [bytes rest]. cbn [fst snd] in *.
      split; [exact Hs|]. split; [lia|]. intros ->. exfalso. apply Hp; [lia|reflexivity]. }
  induction faults as [|f faults IH]; cbn [read_retry]; [apply Hread; lia|].
  destruct f; cbn [fst]; try exact I; try exact IH; apply Hread; lia.
Qed.

Lemma sent_chunks_app evs evs' :
  sent_chunks (evs ++ evs') = sent_chunks evs ++ sent_chunks evs'.
Proof. apply omap_app. Qed.

Lemma streamed_after d W W1 evs1 r :
  w_trace W1 = w_trace W ++ evs1 -> forallb stream_event evs1 = true ->
  w_fs W1 = w_fs W -> sent_chunks evs1 = [] ->
  streamed d W1 r -> streamed d W r.
Proof.
  intros Ht Hev Hfs Hnone (evs & Ht' & Hev' & Hfs' & Hch & Hout).
  exists (evs1 ++ evs). rewrite Ht', Ht, <- app_assoc, forallb_app, Hev, Hev', Hfs', Hfs.
  rewrite sent_chunks_app, Hnone. auto.
Qed.

Lemma streamed_chunk buffer d W W1 evs1 r :
  w_trace W1 = w_trace W ++ evs1 -> forallb stream_event evs1 = true ->
  w_fs W1 = w_fs W -> sent_chunks evs1 = [buffer] ->
  buffer ≠ [] -> (Z.of_nat (length buffer) <= 100000)%Z ->
  streamed d W1 r -> streamed (buffer ++ d) W r.
Proof.
  intros Ht Hev Hfs Hone Hne Hlen (evs & Ht' & Hev' & Hfs' & Hch & Hout).
  exists (evs1 ++ evs). rewrite Ht', Ht, <- app_assoc, forallb_app, Hev, Hev', Hfs', Hfs.
  rewrite sent_chunks_app, Hone.
  split; [reflexivity|]. split; [reflexivity|]. split; [reflexivity|].
  split; [constructor; auto|].
  destruct r.1 as [[]|e|h]; cbn [concat app].
  - now rewrite Hout.
  - destruct Hout as [Hpre Hend]. split; [|exact Hend]. now apply prefix_app.
  - exact Hout.
Qed.

Lemma streamed_throw d W W1 evs e :
  w_trace W1 = w_trace W ++ evs -> forallb stream_event evs = true ->
  w_fs W1 = w_fs W -> sent_chunks evs = [] ->
  exn_ending e ∈ [throws_client 15; throws_client 16; throws_client 23] ->
  streamed d W (Throw e, W1).
Proof.
  intros Ht Hev Hfs Hnone He. exists evs. rewrite Hnone.
  split; [exact Ht|]. split; [exact Hev|]. split; [exact Hfs|]. split; [constructor|].
  split; [apply prefix_nil|exact He].
Qed.

(** The sender fails with error 23 when the server has left a status text,
    with error 15 otherwise. *)
Lemma send_failed_spec {A} W :
  exists e W1 evs,
    ((m ← get_msg cserver 2;
      check_for_failure m cserver;;
      name ← chan_name_of cserver;
      log_error ("write of source chunk to host " +:+ name);;
      log_perror "failed ";;
      throw (client_error 15 "Error 15 - write to host failed")) : M A) W
    = (Throw e, W1) /\
    w_trace W1 = w_trace W ++ evs /\ forallb stream_event evs = true /\
    w_fs W1 = w_fs W /\ sent_chunks evs = [] /\
    exn_ending e ∈ [throws_client 15; throws_client 23].
Proof.
  rewrite bind_run. unfold get_msg. cbn [get_chan].
  assert (Hplain : forall W1 r,
    w_trace W1 = w_trace W ++ [EvRecv cserver 2 r] -> w_fs W1 = w_fs W ->
    exists e W2 evs,
      ((name ← chan_name_of cserver;
        log_error ("write of source chunk to host " +:+ name);;
        log_perror "failed ";;
        throw (client_error 15 "Error 15 - write to host failed")) : M A) W1
      = (Throw e, W2) /\
      w_trace W2 = w_trace W ++ evs /\ forallb stream_event evs = true /\
      w_fs W2 = w_fs W /\ sent_chunks evs = [] /\
      exn_ending e ∈ [throws_client 15; throws_client 23]).
  { intros W1 r Ht Hfs. rewrite bind_run. unfold chan_name_of. rewrite gets_run, bind_run.
    unfold log_error. rewrite log_run, bind_run. unfold log_perror. rewrite log_run.
    unfold throw. eexists. eexists. eexists. split; [reflexivity|]. cbn.
    rewrite Ht, <- ?app_assoc. split; [reflexivity|].
    split; [reflexivity|]. split; [exact Hfs|]. split; [reflexivity|]. set_solver. }
  destruct (chan_inbox (w_server W)) as [|[m|] rest].
  - rewrite bind_run. cbn [check_for_failure]. rewrite mret_run. eapply Hplain; reflexivity.
  - rewrite bind_run.
    destruct m; cbn [check_for_failure]; rewrite ?mret_run;
      try (eapply Hplain; reflexivity).
    rewrite bind_run. unfold chan_name_of. rewrite gets_run, bind_run. unfold log_error.
    rewrite log_run. unfold throw. eexists. eexists. eexists. split; [reflexivity|]. cbn.
    rewrite <- ?app_assoc.
    split; [reflexivity|]. split; [reflexivity|]. split; [reflexivity|].
    split; [reflexivity|]. set_solver.
  - rewrite bind_run. cbn [check_for_failure]. rewrite mret_run. eapply Hplain; reflexivity.
Qed.

(** One round of the sender that has a full buffer or reached the end of
    the stream: the buffer leaves as one chunk. *)
Lemma flush_spec buffer W :
  buffer ≠ [] -> (Z.of_nat (length buffer) <= 100000)%Z ->
  (exists W1,
     (ok ← send_msg cserver (M_FILE_CHUNK buffer);
      if negb ok then
        m ← get_msg cserver 2;
        check_for_failure m cserver;;
        name ← chan_name_of cserver;
        log_error ("write of source chunk to host " +:+ name);;
        log_perror "failed ";;
        throw (client_error 15 "Error 15 - write to host failed")
      else mret ([] : list byte)) W = (Ret [], W1) /\
     w_trace W1 = w_trace W ++ [EvSend cserver (M_FILE_CHUNK buffer) true] /\
     w_fs W1 = w_fs W) \/
  (exists e W1 evs,
     (ok ← send_msg cserver (M_FILE_CHUNK buffer);
      if negb ok then
        m ← get_msg cserver 2;
        check_for_failure m cserver;;
        name ← chan_name_of cserver;
        log_error ("write of source chunk to host " +:+ name);;
        log_perror "failed ";;
        throw (client_error 15 "Error 15 - write to host failed")
      else mret ([] : list byte)) W = (Throw e, W1) /\
     w_trace W1 = w_trace W ++ evs /\ forallb stream_event evs = true /\
     w_fs W1 = w_fs W /\ sent_chunks evs = [] /\
     exn_ending e ∈ [throws_client 15; throws_client 23]).
Proof.
  intros Hne Hlen. rewrite bind_run, send_msg_run.
  destruct (is_ok (hd Fok (w_faults W))); cbn [negb].
  - left. rewrite mret_run. eexists. split; [reflexivity|]. split; reflexivity.
  - right.
    match goal with |- context [(_ ≫= _) ?W2] =>
      destruct (send_failed_spec (A:=list byte) W2) as (e & W1 & evs & -> & Ht & Hev & Hfs & Hnone & He)
    end.
    exists e, W1, (EvSend cserver (M_FILE_CHUNK buffer) false :: evs).
    split; [reflexivity|]. rewrite Ht. cbn. rewrite <- app_assoc.
    split; [reflexivity|]. split; [exact Hev|]. split; [exact Hfs|]. split; [exact Hnone|].
    exact He.
Qed.

Lemma flush_endings x :
  x ∈ [throws_client 15; throws_client 23] ->
  x ∈ [throws_client 15; throws_client 16; throws_client 23].
Proof. rewrite !elem_of_cons. intuition. Qed.

Lemma write_server_cpp_loop_spec fuel cpp_fd buffer W :
  length cpp_fd < fuel -> (Z.of_nat (length buffer) < 100000)%Z ->
  streamed (buffer ++ cpp_fd) W (write_server_cpp_loop fuel cpp_fd buffer W).
Proof.
  revert cpp_fd buffer W. induction fuel as [|fuel IH]; intros cpp_fd buffer W Hfuel Hbuf;
    [lia|].
  cbn [write_server_cpp_loop]. rewrite bind_run. unfold read_cpp.
  pose proof (read_retry_spec (w_faults W) cpp_fd (100000 - Z.of_nat (length buffer)))
    as Hread.
  destruct (read_retry (w_faults W) cpp_fd (100000 - Z.of_nat (length buffer)))
    as [[[bytes cpp_fd']|] l]; cbn [fst] in Hread.
  2: { (* the read failed *)
    rewrite bind_run. unfold log_perror. rewrite log_run. unfold throw.
    apply (streamed_throw _ _ _ [EvLog Error "reading from cpp_fd"]);
      [reflexivity..|set_solver]. }
  destruct Hread as (Hsplit & Hroom & Hend); [lia|]. subst cpp_fd.
  assert (Hlen : (Z.of_nat (length (buffer ++ bytes)) <= 100000)%Z)
    by (rewrite length_app; lia).
  assert (Hfaults : forall r, streamed (buffer ++ bytes ++ cpp_fd') (set_faults l W) r ->
                              streamed (buffer ++ bytes ++ cpp_fd') W r).
  { intros r. apply (streamed_after _ _ _ []); [cbn; now rewrite app_nil_r|reflexivity..]. }
  apply Hfaults. rewrite app_assoc. clear Hfaults.
  generalize (set_faults l W). clear W. intros W.
  destruct bytes as [|b bytes]; cbn [is_nil orb].
  - (* the end of the stream *)
    assert (cpp_fd' = []) as -> by exact (Hend eq_refl). clear Hend.
    rewrite !app_nil_r in *.
    rewrite bind_run. destruct buffer as [|b0 buffer]; cbn [is_nil negb].
    + rewrite mret_run, mret_run. exists []. cbn. rewrite app_nil_r.
      split; [reflexivity|]. split; [reflexivity|]. split; [reflexivity|].
      split; [constructor|reflexivity].
    + destruct (flush_spec (b0 :: buffer) W) as
        [(W1 & -> & Ht & Hfs)|(e & W1 & evs & -> & Ht & Hev & Hfs & Hnone & He)];
        [discriminate|lia|..].
      * rewrite mret_run. eexists. split; [exact Ht|]. cbn.
        split; [reflexivity|]. split; [exact Hfs|]. split; [|now rewrite app_nil_r].
        constructor; [|constructor]. split; [discriminate|exact Hlen].
      * apply (streamed_throw _ _ _ evs); auto using flush_endings.
  - (* some bytes were read *)
    assert (Hne : buffer ++ b :: bytes ≠ []) by (now destruct buffer).
    destruct (Z.eqb_spec (Z.of_nat (length (buffer ++ b :: bytes))) 100000) as [Hfull|Hroom'].
    + rewrite bind_run.
      replace (is_nil (buffer ++ b :: bytes)) with false by (now destruct buffer).
      cbn [negb].
      destruct (flush_spec (buffer ++ b :: bytes) W Hne Hlen) as
        [(W1 & -> & Ht & Hfs)|(e & W1 & evs & -> & Ht & Hev & Hfs & Hnone & He)].
      * apply (streamed_chunk _ _ _ W1 [EvSend cserver (M_FILE_CHUNK (buffer ++ b :: bytes)) true]);
          auto.
        apply (IH cpp_fd' [] W1); [|cbn; lia].
        rewrite length_app in Hfuel. cbn in Hfuel. lia.
      * apply (streamed_throw _ _ _ evs); auto using flush_endings.
    + apply IH.
      * rewrite length_app in Hfuel. cbn in Hfuel. lia.
      * lia.
Qed.

(** X8: [write_server_cpp] sends the stream in [FileChunk] messages that
    are not empty and hold at most 100000 bytes each; the chunks that
    reached the server are a prefix of the stream and, when the call
    returns, the whole stream; a call that does not return throws error 15,
    16 or 23; no file changes and the loop ends. *)
Theorem write_server_cpp_stream cpp_fd W :
  streamed cpp_fd W (write_server_cpp cpp_fd W).
Proof.
  unfold write_server_cpp.
  apply (write_server_cpp_loop_spec (S (length cpp_fd)) cpp_fd [] W); [lia|cbn; lia].
Qed.

(** ** The stream from the server *)

(** [write] emits nothing and appends what it has taken of the data to the
    descriptor; it returns the length of the data only if it has taken all. *)
Lemma write_spec d data W :
  exists n taken W1,
    write d data W = (Ret n, W1) /\
    w_trace W1 = w_trace W /\ w_server W1 = w_server W /\
    (forall p, d ≠ fd_of p -> w_fs W1 !! p = w_fs W !! p) /\
    (d ≠ STDOUT_FILENO -> w_stdout W1 = w_stdout W) /\
    fd_content d W1 = (fun c => c ++ taken) <$> fd_content d W /\
    (n = Z.of_nat (length data) -> taken = data).
Proof.
  assert (Hbytes : forall taken W0,
    w_trace W0 = w_trace W -> w_server W0 = w_server W -> w_fs W0 = w_fs W ->
    w_stdout W0 = w_stdout W ->
    exists W1, write_bytes d taken W0 = (Ret tt, W1) /\
      w_trace W1 = w_trace W /\ w_server W1 = w_server W /\
      (forall p, d ≠ fd_of p -> w_fs W1 !! p = w_fs W !! p) /\
      (d ≠ STDOUT_FILENO -> w_stdout W1 = w_stdout W) /\
      fd_content d W1 = (fun c => c ++ taken) <$> fd_content d W).
  { intros taken W0 Ht Hs Hfs Hout. destruct d as [|path]; cbn [write_bytes]; unfold modify;
      eexists; (split; [reflexivity|]); cbn; rewrite ?Ht, ?Hs, ?Hfs, ?Hout.
    - repeat split; auto. congruence.
    - split; [reflexivity|]. split; [reflexivity|]. split.
      + intros p Hp. apply lookup_alter_ne. congruence.
      + split; [auto|]. rewrite lookup_alter_eq. now destruct (w_fs W !! path). }
  assert (Hfail : exists n taken W1,
    (mret (-1)%Z : M Z) (set_faults (tl (w_faults W)) W) = (Ret n, W1) /\
    w_trace W1 = w_trace W /\ w_server W1 = w_server W /\
    (forall p, d ≠ fd_of p -> w_fs W1 !! p = w_fs W !! p) /\
    (d ≠ STDOUT_FILENO -> w_stdout W1 = w_stdout W) /\
    fd_content d W1 = (fun c => c ++ taken) <$> fd_content d W /\
    (n = Z.of_nat (length data) -> taken = data)).
  { exists (-1)%Z, [], (set_faults (tl (w_faults W)) W). rewrite mret_run.
    split; [reflexivity|]. split; [reflexivity|]. split; [reflexivity|].
    split; [auto|]. split; [auto|]. split; [|lia].
    destruct d as [|path]; cbn; [now rewrite app_nil_r|].
    destruct (w_fs W !! path); cbn; [now rewrite app_nil_r|reflexivity]. }
  unfold write. rewrite bind_run, pop_fault_run.
  destruct (hd Fok (w_faults W)); try exact Hfail.
  - destruct (Hbytes data (set_faults (tl (w_faults W)) W)) as (W1 & Hw & H); try reflexivity.
    rewrite bind_run, Hw, mret_run. exists (Z.of_nat (length data)), data, W1.
    split; [reflexivity|]. destruct H as (? & ? & ? & ? & ?). auto 10.
  - destruct (Hbytes (take (S n) data) (set_faults (tl (w_faults W)) W)) as (W1 & Hw & H);
      try reflexivity.
    rewrite bind_run, Hw, mret_run.
    exists (Z.of_nat (length (take (S n) data))), (take (S n) data), W1.
    split; [reflexivity|]. destruct H as (? & ? & ? & ? & ?).
    repeat (split; [assumption|]). intros Hlen. apply take_ge. rewrite length_take in Hlen. lia.
Qed.

Lemma delivered_throw obj_fd W W1 evs e :
  w_trace W1 = w_trace W ++ evs -> forallb stream_event evs = true ->
  w_fs W1 = w_fs W -> w_stdout W1 = w_stdout W ->
  exn_ending e ∈ [throws_client 19; throws_client 20; throws_client 21; throws_client 23] ->
  delivered obj_fd W (Throw e, W1).
Proof.
  intros Ht Hev Hfs Hout He. exists evs. cbn [fst snd]. rewrite Hfs, Hout. auto.
Qed.

Lemma receive_fd_loop_spec fuel obj_fd W :
  length (chan_inbox (w_server W)) < fuel ->
  delivered obj_fd W (receive_fd_loop fuel obj_fd W).
Proof.
  revert W. induction fuel as [|fuel IH]; intros W Hfuel; [lia|].
  cbn [receive_fd_loop]. rewrite bind_run. unfold get_msg. cbn [get_chan].
  destruct (chan_inbox (w_server W)) as [|[m|] rest] eqn:Hin.
  - unfold throw. apply (delivered_throw _ _ _ [EvRecv cserver 40 None]);
      [reflexivity..|]. rewrite !elem_of_cons. auto.
  - set (W1 := emit (EvRecv cserver 40 (Some m))
                 (set_chan cserver
                    (mk_chan (chan_name (w_server W)) (chan_protocol (w_server W)) rest) W)).
    assert (Hfuel1 : length (chan_inbox (w_server W1)) < fuel) by (cbn in *; lia).
    rewrite bind_run.
    destruct m; cbn [check_for_failure]; rewrite ?mret_run;
      try (unfold throw; eapply (delivered_throw _ _ W1);
           [cbn; reflexivity|reflexivity..|rewrite !elem_of_cons; auto]).
    + (* a file chunk *)
      rewrite bind_run.
      destruct (write_spec obj_fd buffer W1)
        as (n & taken & W2 & -> & Ht & Hs & Hfs & Hout & Hc & Hall).
      destruct (Z.eqb_spec n (Z.of_nat (length buffer))) as [Hn|Hn]; cbn [negb].
      * rewrite (Hall Hn) in Hc. clear Hall.
        destruct (IH W2) as (evs & Ht' & Hev & Hfs' & Hout' & Hres);
          [now rewrite Hs|].
        exists (EvRecv cserver 40 (Some (M_FILE_CHUNK buffer)) :: evs).
        split; [rewrite Ht', Ht; cbn; now rewrite <- app_assoc|].
        split; [exact Hev|].
        split; [intros p Hp; now rewrite Hfs', Hfs|].
        split; [intros Hp; now rewrite Hout', Hout|].
        destruct (receive_fd_loop fuel obj_fd W2).1 as [[]|e|h]; [|exact Hres..].
        destruct Hres as [Hc' Hin']. rewrite Hs in Hc', Hin'.
        change (chan_inbox (w_server W1)) with rest in Hc', Hin'. rewrite Hin.
        split.
        -- rewrite Hc', Hc. cbn [chunks_before_end].
           replace (fd_content obj_fd W1) with (fd_content obj_fd W) by now destruct obj_fd.
           destruct (fd_content obj_fd W); cbn; [now rewrite <- app_assoc|reflexivity].
        -- exact Hin'.
      * unfold throw. exists [EvRecv cserver 40 (Some (M_FILE_CHUNK buffer))].
        cbn [fst snd]. split; [rewrite Ht; reflexivity|]. split; [reflexivity|].
        split; [exact Hfs|]. split; [exact Hout|]. cbn. rewrite !elem_of_cons. auto.
    + (* the end of the file *)
      exists [EvRecv cserver 40 (Some M_END)]. cbn. rewrite Hin. cbn.
      split; [reflexivity|]. split; [reflexivity|]. split; [auto|]. split; [auto|].
      split; [|reflexivity].
      destruct obj_fd as [|path]; cbn; [now rewrite app_nil_r|].
      destruct (w_fs W !! path); cbn; [now rewrite app_nil_r|reflexivity].
    + (* a status text *)
      rewrite bind_run. unfold chan_name_of. rewrite gets_run, bind_run.
      unfold log_error. rewrite log_run. unfold throw.
      eapply delivered_throw; [cbn; rewrite <- app_assoc; reflexivity|reflexivity..|].
      rewrite !elem_of_cons. auto.
  - unfold throw. apply (delivered_throw _ _ _ [EvRecv cserver 40 None]);
      [reflexivity..|]. rewrite !elem_of_cons. auto.
Qed.

(** X9: [receive_fd] appends to its descriptor the chunks at the head of
    the channel and leaves the channel behind the message that ended them;
    a call that does not return throws error 19, 20, 21 or 23; no file but
    the one behind the descriptor changes and the loop ends. *)
Theorem receive_fd_delivers obj_fd W :
  delivered obj_fd W (receive_fd obj_fd W).
Proof.
  unfold receive_fd. rewrite bind_run, gets_run.
  apply receive_fd_loop_spec. lia.
Qed.

(** ** Rules for [Within] *)

Section WithinRules.

Context {A B : Type} (E : Event -> bool) (ends : list ending) (F : string -> Prop).

Lemma Within_ret (a : A) : Within E ends F (mret a : M A).
Proof.
  intros W. rewrite mret_run. split; [exists []; now rewrite app_nil_r|].
  split; [discriminate|reflexivity].
Qed.

Lemma Within_bind (m : M A) (k : A -> M B) :
  Within E ends F m -> (forall a, Within E ends F (k a)) -> Within E ends F (m ≫= k).
Proof.
  intros Hm Hk W. rewrite bind_run. destruct (Hm W) as ((evs & Ht & Hev) & Hend & Hfs).
  destruct (m W) as [[a|e|h] W1]; cbn [fst snd] in *.
  - destruct (Hk a W1) as ((evs' & Ht' & Hev') & Hend' & Hfs').
    split; [|split].
    + exists (evs ++ evs'). now rewrite Ht', Ht, <- app_assoc, forallb_app, Hev, Hev'.
    + exact Hend'.
    + intros p Hp. now rewrite Hfs', Hfs.
  - split; [exists evs; auto|]. split; assumption.
  - split; [exists evs; auto|]. split; assumption.
Qed.

Lemma Within_throw (e : exn) : exn_ending e ∈ ends -> Within E ends F (throw e : M A).
Proof.
  intros He W. unfold throw. split; [exists []; now rewrite app_nil_r|].
  split; [now intros x [= <-]|reflexivity].
Qed.

Lemma Within_stop (h : halt) : halt_ending h ∈ ends -> Within E ends F (stop h : M A).
Proof.
  intros He W. unfold stop. split; [exists []; now rewrite app_nil_r|].
  split; [now intros x [= <-]|reflexivity].
Qed.

Lemma Within_gets (f : World -> A) : Within E ends F (gets f).
Proof.
  intros W. rewrite gets_run. split; [exists []; now rewrite app_nil_r|].
  split; [discriminate|reflexivity].
Qed.

Lemma Within_try_catch (body : M A) (handler : exn -> M A) :
  Within E ends F body ->
  (forall e, exn_ending e ∈ ends -> Within E ends F (handler e)) ->
  Within E ends F (try_catch body handler).
Proof.
  intros Hb Hh W. unfold try_catch. destruct (Hb W) as ((evs & Ht & Hev) & Hend & Hfs).
  destruct (body W) as [[a|e|h] W1]; cbn [fst snd] in *.
  - split; [exists evs; auto|]. split; assumption.
  - destruct (Hh e (Hend _ eq_refl) W1) as ((evs' & Ht' & Hev') & Hend' & Hfs').
    split; [|split].
    + exists (evs ++ evs'). now rewrite Ht', Ht, <- app_assoc, forallb_app, Hev, Hev'.
    + exact Hend'.
    + intros p Hp. now rewrite Hfs', Hfs.
  - split; [exists evs; auto|]. split; assumption.
Qed.

End WithinRules.

Lemma Within_weaken {A} (E E' : Event -> bool) (ends ends' : list ending)
    (F F' : string -> Prop) (m : M A) :
  (forall e, E e = true -> E' e = true) -> ends ⊆ ends' -> (forall p, F p -> F' p) ->
  Within E ends F m -> Within E' ends' F' m.
Proof.
  intros HE Hends HF Hm W. destruct (Hm W) as ((evs & Ht & Hev) & Hend & Hfs).
  split; [|split].
  - exists evs. split; [exact Ht|]. rewrite forallb_forall in *. auto.
  - intros x Hx. apply Hends, Hend, Hx.
  - intros p Hp. apply Hfs. auto.
Qed.

Section WithinLeaves.

Context (E : Event -> bool) (ends : list ending) (F : string -> Prop).

Lemma Within_modify (f : World -> World) evs :
  (forall W, w_trace (f W) = w_trace W ++ evs) -> forallb E evs = true ->
  (forall W p, ~ F p -> w_fs (f W) !! p = w_fs W !! p) ->
  Within E ends F (modify f).
Proof.
  intros Ht Hev Hfs W. unfold modify. cbn [fst snd].
  split; [exists evs; auto|]. split; [discriminate|auto].
Qed.

Lemma Within_silent (f : World -> World) :
  (forall W, w_trace (f W) = w_trace W) -> (forall W, w_fs (f W) = w_fs W) ->
  Within E ends F (modify f).
Proof.
  intros Ht Hfs. apply (Within_modify f []).
  - intros W. now rewrite Ht, app_nil_r.
  - reflexivity.
  - intros W p _. now rewrite Hfs.
Qed.

Lemma Within_emit e : E e = true -> Within E ends F (modify (emit e)).
Proof.
  intros He. apply (Within_modify _ [e]); [reflexivity|cbn; now rewrite He|reflexivity].
Qed.

Lemma Within_log lvl text : E (EvLog lvl text) = true -> Within E ends F (log lvl text).
Proof. apply Within_emit. Qed.

Lemma Within_pop_fault : Within E ends F pop_fault.
Proof.
  intros W. rewrite pop_fault_run. cbn [fst snd].
  split; [exists []; cbn; now rewrite app_nil_r|]. split; [discriminate|reflexivity].
Qed.

Lemma Within_send_msg c m :
  (forall ok, E (EvSend c m ok) = true) -> Within E ends F (send_msg c m).
Proof.
  intros He W. rewrite send_msg_run. cbn [fst snd].
  split; [eexists; split; [reflexivity|cbn; now rewrite He]|].
  split; [discriminate|reflexivity].
Qed.

Lemma Within_get_msg c t :
  (forall r, E (EvRecv c t r) = true) -> Within E ends F (get_msg c t).
Proof.
  intros He W. unfold get_msg.
  destruct (chan_inbox (get_chan c W)) as [|r rest]; cbn [fst snd];
    (split; [eexists; split; [destruct c; reflexivity|cbn; now rewrite He]|]);
    (split; [discriminate|destruct c; reflexivity]).
Qed.

Lemma Within_createChannel host port t :
  (forall ok, E (EvConnect host port t ok) = true) ->
  Within E ends F (createChannel host port t).
Proof.
  intros He W. unfold createChannel. rewrite bind_run, pop_fault_run, bind_run.
  unfold modify. rewrite mret_run. cbn [fst snd].
  split; [eexists; split; [reflexivity|cbn; now rewrite He]|].
  split; [discriminate|reflexivity].
Qed.

Lemma Within_delete_channel c : E (EvDelete c) = true -> Within E ends F (delete_channel c).
Proof. apply Within_emit. Qed.

Lemma Within_kill pid sig : E (EvKill pid sig) = true -> Within E ends F (kill pid sig).
Proof. apply Within_emit. Qed.

Lemma Within_unlink path :
  E (EvUnlink path) = true -> F path -> Within E ends F (unlink path).
Proof.
  intros He HF. apply (Within_modify _ [EvUnlink path]); [reflexivity|cbn; now rewrite He|].
  intros W p Hp. cbn. apply lookup_delete_ne. now intros ->.
Qed.

Lemma Within_rename old new :
  (forall ok, E (EvRename old new ok) = true) -> F old -> F new ->
  Within E ends F (rename old new).
Proof.
  intros He Hold Hnew W. unfold rename. rewrite bind_run, pop_fault_run, bind_run, gets_run.
  cbn [w_fs set_faults].
  destruct (w_fs W !! old) as [i|]; [destruct (is_ok (hd Fok (w_faults W)))|];
    rewrite bind_run; unfold modify; rewrite mret_run; cbn [fst snd];
    (split; [eexists; split; [reflexivity|cbn; now rewrite He]|]);
    (split; [discriminate|]); try reflexivity.
  intros p Hp. cbn. rewrite lookup_insert_ne, lookup_delete_ne; [reflexivity|..];
    now intros ->.
Qed.

Lemma Within_open_create path :
  (forall ok, E (EvOpen path [O_CREAT; O_TRUNC; O_WRONLY; O_LARGEFILE] mode_0666 ok) = true) ->
  F path -> Within E ends F (open_create path).
Proof.
  intros He HF W. unfold open_create. rewrite bind_run, pop_fault_run, bind_run.
  unfold modify at 1. destruct (is_ok (hd Fok (w_faults W))).
  - rewrite bind_run. unfold modify. rewrite mret_run. cbn [fst snd].
    split; [eexists; split; [reflexivity|cbn; now rewrite He]|].
    split; [discriminate|]. intros p Hp. cbn. apply lookup_insert_ne. now intros ->.
  - rewrite mret_run. cbn [fst snd].
    split; [eexists; split; [reflexivity|cbn; now rewrite He]|].
    split; [discriminate|reflexivity].
Qed.

Lemma Within_close d : Within E ends F (close d).
Proof.
  intros W. unfold close. rewrite bind_run, pop_fault_run, mret_run. cbn [fst snd].
  split; [exists []; cbn; now rewrite app_nil_r|]. split; [discriminate|reflexivity].
Qed.

Lemma Within_rand : Within E ends F rand.
Proof.
  intros W. unfold rand. destruct (w_rand W); cbn [fst snd];
    (split; [exists []; cbn; now rewrite app_nil_r|]); (split; [discriminate|reflexivity]).
Qed.

End WithinLeaves.

(** Membership and inclusion of closed lists of endings, by computation. *)
Lemma ends_in_sound l l' : ends_in l l' = true -> l ⊆ l'.
Proof.
  unfold ends_in. rewrite forallb_forall. intros H x Hx.
  apply list_elem_of_In in Hx. apply H in Hx. apply existsb_exists in Hx as (y & Hy & Heq).
  apply bool_decide_eq_true in Heq as ->. now apply list_elem_of_In.
Qed.

Lemma end_in_sound x l : ends_in [x] l = true -> x ∈ l.
Proof. intros H. apply (ends_in_sound [x] l H). left. Qed.

Ltac in_list :=
  first [ assumption
        | exact I
        | apply end_in_sound; vm_compute; reflexivity
        | rewrite ?elem_of_cons; tauto ].

Ltac within :=
  repeat (cbv beta; lazymatch goal with
    | |- forall _, _ => intro
    | |- Within _ _ _ (mbind _ _) => apply Within_bind
    | |- Within _ _ _ (mret _) => apply Within_ret
    | |- Within _ _ _ (ret _) => apply Within_ret
    | |- Within _ _ _ (throw _) => apply Within_throw; in_list
    | |- Within _ _ _ (stop _) => apply Within_stop; in_list
    | |- Within _ _ _ (gets _) => apply Within_gets
    | |- Within _ _ _ (chan_name_of _) => apply Within_gets
    | |- Within _ _ _ (stat _) => apply Within_gets
    | |- Within _ _ _ (lstat _) => apply Within_gets
    | |- Within _ _ _ (access_R_OK _) => apply Within_gets
    | |- Within _ _ _ (open_rdonly _) => apply Within_gets
    | |- Within _ _ _ pop_fault => apply Within_pop_fault
    | |- Within _ _ _ (log _ _) => apply Within_log; reflexivity
    | |- Within _ _ _ (log_error _) => apply Within_log; reflexivity
    | |- Within _ _ _ (log_warning _) => apply Within_log; reflexivity
    | |- Within _ _ _ (log_info _) => apply Within_log; reflexivity
    | |- Within _ _ _ (log_perror _) => apply Within_log; reflexivity
    | |- Within _ _ _ (send_msg _ _) => apply Within_send_msg; intro; reflexivity
    | |- Within _ _ _ (get_msg _ _) => apply Within_get_msg; intro; reflexivity
    | |- Within _ _ _ (createChannel _ _ _) => apply Within_createChannel; intro; reflexivity
    | |- Within _ _ _ (delete_channel _) => apply Within_delete_channel; reflexivity
    | |- Within _ _ _ (kill _ _) => apply Within_kill; reflexivity
    | |- Within _ _ _ (unlink _) => apply Within_unlink; [reflexivity|in_list]
    | |- Within _ _ _ (rename _ _) => apply Within_rename; [intro; reflexivity|in_list..]
    | |- Within _ _ _ (open_create _) => apply Within_open_create; [intro; reflexivity|in_list]
    | |- Within _ _ _ (close _) => apply Within_close
    | |- Within _ _ _ rand => apply Within_rand
    | |- Within _ _ _ (modify (emit _)) => apply Within_emit; reflexivity
    | |- Within _ _ _ (modify _) => apply Within_silent; reflexivity
    | |- Within _ _ _ (when ?b _) => destruct b; unfold when
    | |- Within _ _ _ (try_catch _ _) => apply Within_try_catch
    | |- Within _ _ _ (if ?b then _ else _) => destruct b
    | |- Within _ _ _ (match ?x with _ => _ end) => destruct x
    | |- Within _ _ _ (let _ := _ in _) => cbv zeta
    end).

(** Narrower bounds on the left, wider on the right. *)
Tactic Notation "widen" uconstr(lemma) :=
  eapply Within_weaken; [| | |eapply lemma];
  [ first [ intros ? He; exact He | intros ? _; reflexivity
          | intros ? He; unfold session_event; rewrite He; reflexivity
          | intros [] He; first [exact He|discriminate He|reflexivity]
          | let e := fresh in intros e He; destruct e as [| |[] []| | | | | | | | |];
            first [reflexivity|discriminate He] ]
  | apply ends_in_sound; vm_compute; reflexivity
  | first [ intros ? Hp; exact Hp | intros ? Hp; solve [destruct Hp] | intros ? _; exact I
          | intros ? Hp; discriminate Hp
          | intros ? Hp; injection Hp as <-; rewrite ?elem_of_cons; tauto
          | intros ?; rewrite ?elem_of_cons; tauto ] ].

(** ** The streams to and from the server stay within their bounds *)

Lemma Within_check_for_failure msg c :
  Within stream_event [throws_client 23] no_file (check_for_failure msg c).
Proof. unfold check_for_failure. within. Qed.

Lemma Within_write_server_cpp cpp_fd :
  Within stream_event [throws_client 15; throws_client 16; throws_client 23] no_file
         (write_server_cpp cpp_fd).
Proof.
  intros W. unfold write_server_cpp.
  destruct (write_server_cpp_loop_spec (S (length cpp_fd)) cpp_fd [] W)
    as (evs & Ht & Hev & Hfs & _ & Hout); [lia|cbn; lia|].
  split; [exists evs; auto|]. split; [|intros p _; now rewrite Hfs].
  destruct (write_server_cpp_loop _ _ _ W).1 as [[]|e|h]; cbn [ending_of];
    [discriminate| |destruct Hout].
  intros x [= <-]. apply Hout.
Qed.

Lemma Within_receive_fd obj_fd :
  Within stream_event
    [throws_client 19; throws_client 20; throws_client 21; throws_client 23]
    (fun p => obj_fd = fd_of p) (receive_fd obj_fd).
Proof.
  intros W.
  assert (H : delivered obj_fd W (receive_fd obj_fd W)).
  { unfold receive_fd. rewrite bind_run, gets_run. apply receive_fd_loop_spec. lia. }
  destruct H as (evs & Ht & Hev & Hfs & _ & Hout).
  split; [exists evs; auto|]. split; [|exact Hfs].
  destruct (receive_fd obj_fd W).1 as [[]|e|h]; cbn [ending_of];
    [discriminate| |destruct Hout].
  intros x [= <-]. apply Hout.
Qed.

(** ** The single-job executor within its bounds *)

Lemma Within_bind_ret {A B} E ends F (P : A -> Prop) (m : M A) (k : A -> M B) :
  Within E ends F m -> (forall W a, (m W).1 = Ret a -> P a) ->
  (forall a, P a -> Within E ends F (k a)) -> Within E ends F (m ≫= k).
Proof.
  intros Hm HP Hk W. rewrite bind_run. destruct (Hm W) as ((evs & Ht & Hev) & Hend & Hfs).
  specialize (HP W). destruct (m W) as [[a|e|h] W1]; cbn [fst snd] in *.
  - destruct (Hk a (HP a eq_refl) W1) as ((evs' & Ht' & Hev') & Hend' & Hfs').
    split; [|split].
    + exists (evs ++ evs'). now rewrite Ht', Ht, <- app_assoc, forallb_app, Hev, Hev'.
    + exact Hend'.
    + intros p Hp. now rewrite Hfs', Hfs.
  - split; [exists evs; auto|]. split; assumption.
  - split; [exists evs; auto|]. split; assumption.
Qed.

Lemma open_create_fd path W a :
  (open_create path W).1 = Ret a -> a = None \/ a = Some (fd_of path).
Proof.
  unfold open_create. rewrite bind_run, pop_fault_run, bind_run. unfold modify at 1.
  destruct (is_ok _).
  - rewrite bind_run. unfold modify. rewrite mret_run. intros [= <-]. now right.
  - rewrite mret_run. intros [= <-]. now left.
Qed.

Lemma Within_receive_file output_file :
  Within stream_event
    [throws_client 19; throws_client 20; throws_client 21; throws_client 23;
     throws_client 30; throws_int 31]
    (fun p => p ∈ [output_file; output_file +:+ "_icetmp"])
    (receive_file output_file).
Proof.
  unfold receive_file. cbv zeta.
  apply (Within_bind_ret _ _ _ (fun a => a = None \/ a = Some (fd_of (output_file +:+ "_icetmp")))).
  - within.
  - apply open_create_fd.
  - intros a [->| ->]; within.
    widen (Within_receive_fd (fd_of (output_file +:+ "_icetmp"))).
Qed.

Section Session.

Variable cfg : Config.

Lemma Within_transfer_environment job hostname version_file :
  Within stream_event
    [throws_client 4; throws_client 5; throws_client 6; throws_client 8;
     throws_client 15; throws_client 16; throws_client 22; throws_client 23;
     throws_client 24; throws_client 25]
    no_file (transfer_environment job hostname version_file).
Proof.
  unfold transfer_environment. within. widen Within_write_server_cpp.
Qed.

Lemma Within_send_source job preproc_file :
  Within session_event
    [throws_client 11; throws_client 15; throws_client 16; throws_client 18;
     throws_client 23; exits]
    no_file (send_source cfg job preproc_file).
Proof.
  unfold send_source. within; widen Within_write_server_cpp.
Qed.

Lemma Within_await_result job hostname output :
  Within stream_event
    [throws_client 13; throws_client 14; throws_client 23; throws_remote 101;
     throws_remote 102]
    no_file (await_result cfg job hostname output).
Proof.
  unfold await_result. within; widen Within_check_for_failure.
Qed.

Lemma Within_receive_artifacts job have_dwo :
  Within stream_event
    [throws_client 19; throws_client 20; throws_client 21; throws_client 23;
     throws_client 30; throws_int 31; aborts]
    (fun p => p ∈ artifact_files job) (receive_artifacts job have_dwo).
Proof.
  unfold receive_artifacts, artifact_files. within.
  - widen (Within_receive_fd STDOUT_FILENO).
  - widen (Within_receive_file (outputFile job)).
  - widen (Within_receive_file (dwo_name (outputFile job))).
Qed.

End Session.

(** The drain of the catch handler ends when the channel is empty; it only
    reads and logs. *)
Lemma drain_loop_spec fuel W :
  length (chan_inbox (w_server W)) < fuel ->
  exists evs, (drain_loop fuel W).1 = Ret tt /\
    w_trace (drain_loop fuel W).2 = w_trace W ++ evs /\
    forallb stream_event evs = true /\ w_fs (drain_loop fuel W).2 = w_fs W.
Proof.
  revert W. induction fuel as [|fuel IH]; intros W Hfuel; [lia|].
  cbn [drain_loop]. rewrite bind_run. unfold get_msg. cbn [get_chan].
  destruct (chan_inbox (w_server W)) as [|[m|] rest] eqn:Hin.
  - eexists. rewrite mret_run. cbn. split; [reflexivity|]. split; [reflexivity|].
    split; reflexivity.
  - rewrite bind_run.
    set (W1 := emit (EvRecv cserver 0 (Some m)) _).
    assert (Hstep : exists evs1 W2,
      (match m with
       | M_STATUS_TEXT text =>
           name ← chan_name_of cserver;
           log_error ("Remote status (compiled on " +:+ name +:+ "): " +:+ text)
       | _ => mret ()
       end) W1 = (Ret tt, W2) /\ w_trace W2 = w_trace W1 ++ evs1 /\
      forallb stream_event evs1 = true /\ w_server W2 = w_server W1 /\
      w_fs W2 = w_fs W1).
    { destruct m; try (exists [], W1; rewrite mret_run, app_nil_r; auto).
      rewrite bind_run. unfold chan_name_of. rewrite gets_run. unfold log_error.
      rewrite log_run. eexists. eexists. split; [reflexivity|]. cbn. auto. }
    destruct Hstep as (evs1 & W2 & -> & Ht2 & Hq2 & Hs2 & Hfs2).
    destruct (IH W2) as (evs & Hret & Ht & Hq & Hfs).
    { rewrite Hs2. cbn in *. lia. }
    exists (EvRecv cserver 0 (Some m) :: evs1 ++ evs). split; [exact Hret|].
    rewrite Ht, Ht2, Hfs, Hfs2. cbn. rewrite <- !app_assoc. split; [reflexivity|].
    rewrite forallb_app, Hq2, Hq. split; reflexivity.
  - eexists. rewrite mret_run. cbn. split; [reflexivity|]. split; [reflexivity|].
    split; reflexivity.
Qed.

Lemma Within_drain_status : Within stream_event [] no_file drain_status.
Proof.
  intros W. unfold drain_status. rewrite bind_run, gets_run.
  destruct (drain_loop_spec (S (length (chan_inbox (w_server W)))) W)
    as (evs & Hret & Ht & Hev & Hfs); [lia|].
  split; [exists evs; auto|]. rewrite Hret. split; [discriminate|].
  intros p _. now rewrite Hfs.
Qed.

Section Executor.

Variable cfg : Config.

Lemma Within_remote_session job hostname version_file got_env preproc_file output :
  Within session_event session_ends (fun p => p ∈ artifact_files job)
    (remote_session cfg job hostname version_file got_env preproc_file output).
Proof.
  unfold remote_session, session_ends. within.
  - widen (Within_transfer_environment job hostname version_file).
  - widen (Within_send_source cfg job preproc_file).
  - widen (Within_await_result cfg job hostname output).
  - widen (Within_receive_artifacts job _).
Qed.

(** [build_remote_int] stays within the events of a session, ends in one
    of [session_ends] when it does not return, and changes no file but the
    artifacts of the job and their temporaries. *)
Lemma Within_build_remote_int job usecs environment version_file preproc_file output :
  Within session_event session_ends (fun p => p ∈ artifact_files job)
    (build_remote_int cfg job usecs environment version_file preproc_file output).
Proof.
  unfold build_remote_int. cbv zeta. within.
  - widen (Within_remote_session
             (setEnvironmentVersion environment (setJobID (job_id usecs) job))
             (hostname usecs) version_file (got_env usecs) preproc_file output).
  - widen Within_drain_status.
Qed.

End Executor.

(** X10: a call of [build_remote_int] that does not return ends in one of
    [session_ends]: a client error 2, 4, 5, 6, 8, 9, 11-16, 18-26 or 30, a
    remote error 101 or 102, the integer 31 thrown by [receive_file], an
    [exit] or a failed assertion.  It throws nothing else, and the loops of
    its streams and of its handler end. *)
Theorem build_remote_int_endings (cfg : Config) (job : CompileJob) (usecs : UseCSMsg)
    (environment version_file : string) (preproc_file : option string) (output : bool)
    (W : World) (x : ending) :
  ending_of (build_remote_int cfg job usecs environment version_file preproc_file output W).1
  = Some x ->
  x ∈ session_ends.
Proof.
  destruct (Within_build_remote_int cfg job usecs environment version_file preproc_file
              output W) as (_ & Hends & _).
  apply Hends.
Qed.

(** X11: [build_remote_int] changes no file but the output of the job, the
    [.dwo] beside it and the [_icetmp] file of each. *)
Theorem build_remote_int_files (cfg : Config) (job : CompileJob) (usecs : UseCSMsg)
    (environment version_file : string) (preproc_file : option string) (output : bool)
    (W : World) (p : string) :
  p ∉ artifact_files job ->
  w_fs (build_remote_int cfg job usecs environment version_file preproc_file output W).2 !! p
  = w_fs W !! p.
Proof.
  destruct (Within_build_remote_int cfg job usecs environment version_file preproc_file
              output W) as (_ & _ & Hfs).
  apply Hfs.
Qed.

(** A computation that leaves the file system as it was. *)
Lemma Within_no_file {A} E ends (m : M A) W :
  Within E ends no_file m -> w_fs (m W).2 = w_fs W.
Proof. intros Hm. apply map_eq. intros p. apply (Hm W). now intros []. Qed.

Lemma Idle_bind {A} E ends (m : M A) (k : A -> M Z) :
  Within E ends no_file m -> (forall a, Idle (k a)) -> Idle (m ≫= k).
Proof.
  intros Hm Hk W s. rewrite bind_run. pose proof (Within_no_file E ends m W Hm) as Hfs.
  destruct (m W) as [[a|e|h] W1]; cbn [fst snd] in *; try discriminate.
  intros Hs Hne. now rewrite (Hk a W1 s Hs Hne).
Qed.

Lemma Idle_throw e : Idle (throw e).
Proof. intros W s. discriminate. Qed.

Section Unchanged.

Variable cfg : Config.

Lemma Idle_remote_session job hostname version_file got_env preproc_file output :
  Idle (remote_session cfg job hostname version_file got_env preproc_file output).
Proof.
  unfold remote_session.
  apply (Idle_bind session_event session_ends).
  { destruct got_env; cbn [negb]; unfold when; [within|].
    widen (Within_transfer_environment job hostname version_file). }
  intros []. apply (Idle_bind session_event session_ends); [within|]. intros p31.
  destruct (negb p31 && ignore_unverified cfg).
  { apply (Idle_bind session_event session_ends); [within|]. intros []. apply Idle_throw. }
  apply (Idle_bind session_event session_ends); [within|].
  intros ok. destruct ok; cbn [negb].
  2: { apply (Idle_bind session_event session_ends); [within|]. intros []. apply Idle_throw. }
  apply (Idle_bind session_event session_ends);
    [widen (Within_send_source cfg job preproc_file)|].
  intros [code|].
  { intros W s [= <-] Hne. reflexivity. }
  apply (Idle_bind session_event session_ends); [within|].
  intros ok. destruct ok; cbn [negb].
  2: { apply (Idle_bind session_event session_ends); [within|]. intros []. apply Idle_throw. }
  apply (Idle_bind session_event session_ends);
    [widen (Within_await_result cfg job hostname output)|].
  intros [status have_dwo].
  destruct (Z.eqb_spec status 0) as [->|Hstatus]; unfold when.
  - intros W s. rewrite bind_run.
    destruct (receive_artifacts job have_dwo W) as [[[]|e|h] W1]; try discriminate.
    rewrite bind_run. unfold delete_channel, modify. rewrite mret_run. intros [= <-]. congruence.
  - intros W s _ _. reflexivity.
Qed.

(** X12: when [build_remote_int] returns a status other than 0, every
    file is as it was before the call: artifacts are received only after a
    status of 0. *)
Theorem failed_compile_changes_nothing (job : CompileJob) (usecs : UseCSMsg)
    (environment version_file : string) (preproc_file : option string) (output : bool)
    (W : World) (s : Z) :
  (build_remote_int cfg job usecs environment version_file preproc_file output W).1 = Ret s ->
  s ≠ 0%Z ->
  w_fs (build_remote_int cfg job usecs environment version_file preproc_file output W).2
  = w_fs W.
Proof.
  unfold build_remote_int. cbv zeta. rewrite bind_run.
  pose proof (Within_no_file session_event session_ends
                (createChannel (hostname usecs) (port usecs) 10) W) as Hconnect.
  destruct (createChannel (hostname usecs) (port usecs) 10 W) as [[c|e|h] W1];
    try discriminate.
  cbn [fst snd] in Hconnect. rewrite <- Hconnect by within. clear Hconnect.
  destruct c; cbn [negb].
  - unfold try_catch.
    pose proof (Idle_remote_session
                  (setEnvironmentVersion environment (setJobID (job_id usecs) job))
                  (hostname usecs) version_file (got_env usecs) preproc_file output W1 s)
      as Hidle.
    destruct (remote_session _ _ _ _ _ _ _ W1) as [[a|e|h] W2]; cbn [fst snd] in *.
    + exact Hidle.
    + rewrite bind_run. destruct (drain_status W2) as [[[]|e'|h'] W3]; discriminate.
    + discriminate.
  - rewrite bind_run. unfold log_error. rewrite log_run. unfold throw. discriminate.
Qed.

End Unchanged.

(** ** The protocol version of the channel *)

Section SteadyRules.

Context {A B : Type}.

Lemma Steady_ret (a : A) : Steady (mret a : M A).
Proof. intros W. reflexivity. Qed.

Lemma Steady_bind (m : M A) (k : A -> M B) :
  Steady m -> (forall a, Steady (k a)) -> Steady (m ≫= k).
Proof.
  intros Hm Hk W. rewrite bind_run. specialize (Hm W).
  destruct (m W) as [[a|e|h] W1]; cbn [fst snd] in *; [|exact Hm..].
  now rewrite Hk.
Qed.

Lemma Steady_throw (e : exn) : Steady (throw e : M A).
Proof. intros W. reflexivity. Qed.

Lemma Steady_stop (h : halt) : Steady (stop h : M A).
Proof. intros W. reflexivity. Qed.

Lemma Steady_gets (f : World -> A) : Steady (gets f).
Proof. intros W. reflexivity. Qed.

End SteadyRules.

Lemma Steady_modify (f : World -> World) :
  (forall W, w_server (f W) = w_server W) -> Steady (modify f).
Proof. intros Hf W. unfold modify. cbn. now rewrite Hf. Qed.

Lemma Steady_pop_fault : Steady pop_fault.
Proof. intros W. now rewrite pop_fault_run. Qed.

Lemma Steady_send_msg c m : Steady (send_msg c m).
Proof. intros W. now rewrite send_msg_run. Qed.

Lemma Steady_get_msg c t : Steady (get_msg c t).
Proof.
  intros W. unfold get_msg. destruct c; cbn [get_chan];
    destruct (chan_inbox _); reflexivity.
Qed.

Lemma Steady_read_cpp cpp_fd room : Steady (read_cpp cpp_fd room).
Proof. intros W. unfold read_cpp. now destruct (read_retry _ _ _). Qed.

Ltac steady :=
  repeat (cbv beta; lazymatch goal with
    | |- forall _, _ => intro
    | |- Steady (mbind _ _) => apply Steady_bind
    | |- Steady (mret _) => apply Steady_ret
    | |- Steady (ret _) => apply Steady_ret
    | |- Steady (throw _) => apply Steady_throw
    | |- Steady (stop _) => apply Steady_stop
    | |- Steady (gets _) => apply Steady_gets
    | |- Steady (chan_name_of _) => apply Steady_gets
    | |- Steady (stat _) => apply Steady_gets
    | |- Steady (open_rdonly _) => apply Steady_gets
    | |- Steady pop_fault => apply Steady_pop_fault
    | |- Steady (log _ _) => apply Steady_modify; reflexivity
    | |- Steady (log_error _) => apply Steady_modify; reflexivity
    | |- Steady (log_info _) => apply Steady_modify; reflexivity
    | |- Steady (log_perror _) => apply Steady_modify; reflexivity
    | |- Steady (send_msg _ _) => apply Steady_send_msg
    | |- Steady (get_msg _ _) => apply Steady_get_msg
    | |- Steady (read_cpp _ _) => apply Steady_read_cpp
    | |- Steady (modify _) => apply Steady_modify; reflexivity
    | |- Steady (when ?b _) => destruct b; unfold when
    | |- Steady (if ?b then _ else _) => destruct b
    | |- Steady (match ?x with _ => _ end) => destruct x
    | |- Steady (let _ := _ in _) => cbv zeta
    end).

Lemma Steady_check_for_failure msg c : Steady (check_for_failure msg c).
Proof. unfold check_for_failure. steady. Qed.

Lemma Steady_write_server_cpp_loop fuel cpp_fd buffer :
  Steady (write_server_cpp_loop fuel cpp_fd buffer).
Proof.
  revert cpp_fd buffer. induction fuel as [|fuel IH]; intros cpp_fd buffer;
    cbn [write_server_cpp_loop]; steady; try apply Steady_check_for_failure; apply IH.
Qed.

Lemma Steady_transfer_environment job hostname version_file :
  Steady (transfer_environment job hostname version_file).
Proof.
  unfold transfer_environment. steady. apply Steady_write_server_cpp_loop.
Qed.

Lemma jobs_sent_app evs evs' : jobs_sent (evs ++ evs') = jobs_sent evs ++ jobs_sent evs'.
Proof. apply omap_app. Qed.

Lemma stream_jobs_sent evs : forallb stream_event evs = true -> jobs_sent evs = [].
Proof.
  induction evs as [|e evs IH]; [reflexivity|]. cbn [forallb]. intros [He Hq]%andb_true_iff.
  specialize (IH Hq).
  destruct e as [| |[|] []| | | | | | | | |]; try exact IH; discriminate He.
Qed.

(** The catch handler of [build_remote_int]: it drains the channel, deletes
    it and throws the exception again. *)
Lemma handler_spec {A} (e : exn) W :
  exists evs W',
    ((drain_status;; delete_channel cserver;; throw e) : M A) W = (Throw e, W') /\
    w_trace W' = w_trace W ++ evs ++ [EvDelete cserver] /\
    forallb stream_event evs = true /\ w_fs W' = w_fs W.
Proof.
  rewrite bind_run. unfold drain_status. rewrite bind_run, gets_run.
  destruct (drain_loop_spec (S (length (chan_inbox (w_server W)))) W)
    as (evs & Hr & Ht & Hev & Hfs); [lia|].
  destruct (drain_loop _ W) as [o W1]. cbn [fst snd] in *. subst o.
  rewrite bind_run. unfold delete_channel, modify, throw.
  exists evs. eexists. split; [reflexivity|]. cbn. rewrite Ht, Hfs, <- app_assoc. auto.
Qed.

Section Unverified.

Variable cfg : Config.

(** X13: under [ignore_unverified], a server that speaks a protocol older
    than 31 is not sent the job: [build_remote_int] sends no
    [CompileFile] message and ends with a client error, 26 unless the
    connection or the transfer of the environment failed before. *)
Theorem unverified_host_gets_no_job (job : CompileJob) (usecs : UseCSMsg)
    (environment version_file : string) (preproc_file : option string) (output : bool)
    (W : World) :
  IS_PROTOCOL_31 (w_server W) = false -> ignore_unverified cfg = true ->
  exists evs x,
    w_trace (build_remote_int cfg job usecs environment version_file preproc_file output W).2
    = w_trace W ++ evs /\
    jobs_sent evs = [] /\
    ending_of (build_remote_int cfg job usecs environment version_file preproc_file
                 output W).1 = Some x /\
    x ∈ [throws_client 2; throws_client 4; throws_client 5; throws_client 6;
         throws_client 8; throws_client 15; throws_client 16; throws_client 22;
         throws_client 23; throws_client 24; throws_client 25; throws_client 26].
Proof.
  intros Hp31 Hignore.
  assert (Hrun : exists evs e W',
    build_remote_int cfg job usecs environment version_file preproc_file output W
    = (Throw e, W') /\
    w_trace W' = w_trace W ++ evs /\ jobs_sent evs = [] /\
    exn_ending e
    ∈ [throws_client 2; throws_client 4; throws_client 5; throws_client 6;
       throws_client 8; throws_client 15; throws_client 16; throws_client 22;
       throws_client 23; throws_client 24; throws_client 25; throws_client 26]).
  2: { destruct Hrun as (evs & e & W' & -> & Ht & Hjobs & He).
       exists evs, (exn_ending e). auto. }
  unfold build_remote_int. cbv zeta.
  rewrite bind_run. unfold createChannel. rewrite bind_run, pop_fault_run, bind_run.
  unfold modify at 1. rewrite mret_run.
  set (job' := setEnvironmentVersion environment (setJobID (job_id usecs) job)).
  set (connect := EvConnect (hostname usecs) (port usecs) 10 (is_ok (hd Fok (w_faults W)))).
  set (W1 := emit connect (set_faults (tl (w_faults W)) W)).
  assert (Hp1 : IS_PROTOCOL_31 (w_server W1) = false) by exact Hp31.
  assert (Ht1 : w_trace W1 = w_trace W ++ [connect]) by reflexivity.
  clearbody W1.
  destruct (is_ok (hd Fok (w_faults W))); cbn [negb].
  2: { rewrite bind_run. unfold log_error. rewrite log_run. unfold throw.
       eexists. eexists. eexists. split; [reflexivity|]. cbn. rewrite Ht1, <- app_assoc.
       split; [reflexivity|]. split; [reflexivity|]. in_list. }
  unfold try_catch, remote_session. rewrite bind_run.
  set (T := when (negb (got_env usecs)) (transfer_environment job' (hostname usecs) version_file)).
  assert (HT : Within stream_event
                 [throws_client 4; throws_client 5; throws_client 6; throws_client 8;
                  throws_client 15; throws_client 16; throws_client 22; throws_client 23;
                  throws_client 24; throws_client 25] no_file T).
  { unfold T. destruct (got_env usecs); cbn [negb]; unfold when; [within|].
    apply Within_transfer_environment. }
  assert (HS : Steady T).
  { unfold T. destruct (got_env usecs); cbn [negb]; unfold when;
      [apply (Steady_ret tt)|apply Steady_transfer_environment]. }
  destruct (HT W1) as ((evsT & HtT & HevT) & HendT & _). specialize (HS W1).
  destruct (T W1) as [[[]|e|h] W2]; cbn [fst snd] in *.
  - (* the environment is there: the host cannot be verified *)
    rewrite bind_run, gets_run. cbv beta iota. unfold IS_PROTOCOL_31 in *.
    rewrite HS, Hp1, Hignore. cbn [negb andb]. rewrite bind_run. unfold log_warning.
    rewrite log_run. unfold throw at 1. cbv beta iota.
    match goal with |- context [client_error 26 ?w] =>
      destruct (handler_spec (A:=Z) (client_error 26 w) (emit (EvLog Warning
                  ("Host " +:+ hostname usecs +:+ " cannot be verified.")) W2))
        as (evsH & W3 & -> & HtH & HevH & _)
    end.
    exists ([connect] ++ evsT
            ++ [EvLog Warning ("Host " +:+ hostname usecs +:+ " cannot be verified.")]
            ++ evsH ++ [EvDelete cserver]).
    eexists. eexists. split; [reflexivity|].
    split; [rewrite HtH; cbn [emit w_trace]; rewrite HtT, Ht1, <- !app_assoc; reflexivity|].
    split; [|in_list].
    rewrite !jobs_sent_app, (stream_jobs_sent _ HevT), (stream_jobs_sent _ HevH).
    reflexivity.
  - (* the transfer failed *)
    destruct (handler_spec (A:=Z) e W2) as (evsH & W3 & -> & HtH & HevH & _).
    exists ([connect] ++ evsT ++ evsH ++ [EvDelete cserver]).
    eexists. eexists. split; [reflexivity|].
    split; [rewrite HtH, HtT, Ht1, <- !app_assoc; reflexivity|].
    split.
    + rewrite !jobs_sent_app, (stream_jobs_sent _ HevT), (stream_jobs_sent _ HevH).
      reflexivity.
    + specialize (HendT _ eq_refl). revert HendT. rewrite !elem_of_cons. tauto.
  - (* the transfer does not end the process *)
    specialize (HendT _ eq_refl). exfalso. revert HendT. rewrite !elem_of_cons, elem_of_nil.
    destruct h; cbn; intuition discriminate.
Qed.

End Unverified.

(** ** The dispatch of a job *)

Section Dispatch.

Variable cfg : Config.

Lemma maybe_build_local_elsewhere usecs job ret W :
  hostname usecs ≠ "127.0.0.1" ->
  maybe_build_local cfg usecs job ret W
  = (Ret (false, job, ret), set_remote_daemon (hostname usecs) W).
Proof.
  intros Hhost. unfold maybe_build_local. rewrite bind_run. unfold modify at 1.
  destruct (String.eqb_spec (hostname usecs) "127.0.0.1") as [E|_]; [congruence|].
  reflexivity.
Qed.

(** X14: when [build_remote] runs a single job, the request to the
    scheduler is sent and the scheduler assigns a host other than
    127.0.0.1, the job goes to that host as it is: [build_remote] is
    [build_remote_int] on the job, with the environment and the archive of
    the host's platform, no preprocessed file and output enabled, in a world
    where only the two messages of the dialogue were exchanged, no file
    changed and [remote_daemon] names the host. *)
Theorem build_remote_elsewhere (job : CompileJob) (_envs : Environments) (permill : Z)
    (usecs : UseCSMsg) (rest : list (option Msg)) (W : World) :
  single_job cfg job permill W = true ->
  is_nil (env2 (rip_out_paths _envs ∅)) = false ->
  succeeds 0 W = true ->
  chan_inbox (w_daemon W) = Some (M_USE_CS usecs) :: rest ->
  hostname usecs ≠ "127.0.0.1" ->
  exists getcs W1,
    build_remote cfg job _envs permill W
    = build_remote_int cfg job usecs
        (map_at (version_map (rip_out_paths _envs ∅)) (host_platform usecs))
        (map_at (versionfile_map (rip_out_paths _envs ∅)) (host_platform usecs))
        None true W1 /\
    w_trace W1 = w_trace W ++ [EvSend local_daemon (M_GET_CS getcs) true;
                               EvRecv local_daemon (4 * 60) (Some (M_USE_CS usecs))] /\
    w_fs W1 = w_fs W /\
    w_remote_daemon W1 = hostname usecs.
Proof.
  intros Hsingle Henvs Hsend Hin Hhost.
  destruct (build_remote_single cfg job _envs permill usecs rest W Hsingle Henvs Hsend Hin)
    as (getcs & W1 & Hrun & Ht & _ & Hfs).
  exists getcs, (set_remote_daemon (hostname usecs) W1).
  split; [|split; [exact Ht|split; [exact Hfs|reflexivity]]].
  rewrite Hrun, bind_run, (maybe_build_local_elsewhere usecs job 0 W1 Hhost). reflexivity.
Qed.

(** X15: when none of the paths of the environments is an archive,
    [build_remote] logs one error and throws client error 22 before it
    talks to the scheduler; no file changes. *)
Theorem build_remote_without_archives (job : CompileJob) (_envs : Environments)
    (permill : Z) (W : World) :
  is_nil (env2 (rip_out_paths _envs ∅)) = true ->
  (build_remote cfg job _envs permill W).1
  = Throw (client_error 22 "Error 22 - $ICECC_VERSION needs to point to .tar files") /\
  w_trace (build_remote cfg job _envs permill W).2
  = w_trace W ++ [EvLog Error "$ICECC_VERSION needs to point to .tar files"] /\
  w_fs (build_remote cfg job _envs permill W).2 = w_fs W.
Proof.
  intros Henvs. unfold build_remote. rewrite bind_run.
  destruct (gnuc_at_least_3_3 cfg && negb (compiler_is_clang cfg job)
            && negb (streaming job)).
  - rewrite bind_run, rand_run, mret_run. cbv zeta. rewrite Henvs.
    rewrite bind_run. unfold log_error. rewrite log_run. unfold throw. cbn.
    split; [reflexivity|]. split; reflexivity.
  - rewrite mret_run. cbv zeta. rewrite Henvs.
    rewrite bind_run. unfold log_error. rewrite log_run. unfold throw. cbn.
    split; [reflexivity|]. split; reflexivity.
Qed.

End Dispatch.

Section Replication.

Variable cfg : Config.

(** X16: in replication mode, a preprocessor that cannot be started makes
    [build_remote] throw client error 10, and one that fails makes it return
    the exit status of the preprocessor; in both cases the scheduler is not
    asked, nothing is forked, and the temporary file for the preprocessed
    source is unlinked while every other file is as before. *)
Theorem replication_without_preprocessor (job : CompileJob) (_envs : Environments)
    (permill : Z) (W : World) :
  single_job cfg job permill W = false ->
  is_nil (env2 (rip_out_paths _envs ∅)) = false ->
  cpp_pid (call_cpp cfg job) = (-1)%Z \/
  shell_exit_status (cpp_status (call_cpp cfg job)) ≠ 0%Z ->
  exists preproc,
    (build_remote cfg job _envs permill W).1
    = (if (cpp_pid (call_cpp cfg job) =? -1)%Z
       then Throw (client_error 10 "Error 10 - (unable to fork process?)")
       else Ret (shell_exit_status (cpp_status (call_cpp cfg job)))) /\
    w_trace (build_remote cfg job _envs permill W).2
    = w_trace W ++ [EvCallCpp job (cpp_pid (call_cpp cfg job)); EvUnlink preproc] /\
    w_fs (build_remote cfg job _envs permill W).2 !! preproc = None /\
    forall p, p ≠ preproc -> w_fs (build_remote cfg job _envs permill W).2 !! p = w_fs W !! p.
Proof.
  intros Hsingle Henvs Hfail.
  assert (Hrun : exists preproc W',
    build_remote cfg job _envs permill W
    = (if (cpp_pid (call_cpp cfg job) =? -1)%Z
       then Throw (client_error 10 "Error 10 - (unable to fork process?)")
       else Ret (shell_exit_status (cpp_status (call_cpp cfg job))), W') /\
    w_trace W' = w_trace W ++ [EvCallCpp job (cpp_pid (call_cpp cfg job)); EvUnlink preproc] /\
    w_fs W' !! preproc = None /\
    forall p, p ≠ preproc -> w_fs W' !! p = w_fs W !! p).
  2: { destruct Hrun as (preproc & W' & -> & H). exists preproc. split; [reflexivity|exact H]. }
  unfold build_remote, single_job in *. rewrite bind_run.
  destruct (gnuc_at_least_3_3 cfg && negb (compiler_is_clang cfg job)
            && negb (streaming job)); cbn [negb orb] in Hsingle; [|discriminate].
  rewrite bind_run, rand_run, mret_run.
  apply negb_false_iff in Hsingle. rewrite Hsingle. cbv zeta beta iota. rewrite Henvs.
  rewrite bool_decide_eq_false_2 by discriminate.
  rewrite bind_run. unfold dcc_make_tmpnam at 1. cbv zeta beta iota.
  set (preproc := match w_tmpnames (set_rand (tl (w_rand W)) W) with
                  | [] => "/tmp/" +:+ "icecc" +:+ ".ix"
                  | n :: _ => n
                  end).
  exists preproc. rewrite bind_run. unfold modify at 1. cbv beta iota.
  destruct (Z.eqb_spec (cpp_pid (call_cpp cfg job)) (-1)) as [Hpid|Hpid].
  - rewrite bind_run, unlink_run. unfold throw. eexists. split; [reflexivity|]. cbn.
    split; [now rewrite <- ?app_assoc|].
    split; [apply lookup_delete_eq|].
    intros p Hp. now rewrite lookup_delete_ne, lookup_insert_ne by congruence.
  - destruct Hfail as [Hpid'|Hstatus]; [congruence|].
    rewrite bind_run. unfold modify at 1. cbv beta iota.
    destruct (Z.eqb_spec (shell_exit_status (cpp_status (call_cpp cfg job))) 0)
      as [E|_]; [congruence|]. cbn [negb].
    rewrite bind_run, unlink_run, mret_run. eexists. split; [reflexivity|]. cbn.
    split; [now rewrite <- ?app_assoc|].
    split; [apply lookup_delete_eq|].
    intros p Hp.
    now rewrite lookup_delete_ne, lookup_alter_ne, lookup_insert_ne by congruence.
Qed.

End Replication.

(** ** The whole driver *)

Lemma not_in_sound x l : ends_in [x] l = false -> x ∉ l.
Proof.
  unfold ends_in. cbn [forallb]. rewrite andb_true_r. intros H Hx.
  apply not_true_iff_false in H. apply H. apply existsb_exists. exists x.
  split; [now apply list_elem_of_In|now apply bool_decide_eq_true].
Qed.

(** A handler that catches: the exceptions of the body do not end the
    whole, the ends of the process do. *)
Lemma Within_catch {A} E ends ends' F (body : M A) (handler : exn -> M A) :
  Within E ends F body ->
  (forall e, exn_ending e ∈ ends -> Within E ends' F (handler e)) ->
  (forall h, halt_ending h ∈ ends -> halt_ending h ∈ ends') ->
  Within E ends' F (try_catch body handler).
Proof.
  intros Hb Hh Hhalt W. unfold try_catch. destruct (Hb W) as ((evs & Ht & Hev) & Hend & Hfs).
  destruct (body W) as [[a|e|h] W1]; cbn [fst snd] in *.
  - split; [exists evs; auto|]. split; [discriminate|assumption].
  - destruct (Hh e (Hend _ eq_refl) W1) as ((evs' & Ht' & Hev') & Hend' & Hfs').
    split; [|split].
    + exists (evs ++ evs'). now rewrite Ht', Ht, <- app_assoc, forallb_app, Hev, Hev'.
    + exact Hend'.
    + intros p Hp. now rewrite Hfs', Hfs.
  - split; [exists evs; auto|]. split; [|assumption].
    intros x [= <-]. apply Hhalt, Hend. reflexivity.
Qed.

Lemma Within_any_file {A} E ends (m : M A) :
  (forall W, exists evs, w_trace (m W).2 = w_trace W ++ evs /\ forallb E evs = true) ->
  (forall W x, ending_of (m W).1 = Some x -> x ∈ ends) ->
  Within E ends any_file m.
Proof.
  intros Ht Hend W. split; [apply Ht|]. split; [apply Hend|]. intros p Hp. destruct Hp. exact I.
Qed.

Lemma Within_dcc_make_tmpnam E ends prefix suffix :
  Within E ends any_file (dcc_make_tmpnam prefix suffix).
Proof.
  apply Within_any_file; intros W; unfold dcc_make_tmpnam; cbn [fst snd].
  - exists []. now rewrite app_nil_r.
  - discriminate.
Qed.

Lemma Within_fork E ends :
  (forall pid, E (EvFork pid) = true) -> Within E ends any_file fork.
Proof.
  intros He. apply Within_any_file; intros W; unfold fork; cbn [fst snd].
  - eexists. split; [reflexivity|]. cbn. now rewrite He.
  - discriminate.
Qed.

Lemma Within_wait E ends : Within E ends any_file wait.
Proof.
  apply Within_any_file; intros W; unfold wait;
    destruct (w_waits W) as [|[|pid st written] l]; cbn [fst snd];
    try discriminate; exists []; now rewrite app_nil_r.
Qed.

Lemma Within_get_server : Within parent_event [throws_client 1] any_file get_server.
Proof. unfold get_server. within. Qed.

Lemma session_int n : throws_int n ∈ session_ends ++ [throws_client 29] -> n = 31%Z.
Proof.
  intros H. apply list_elem_of_In in H. cbn in H.
  repeat (destruct H as [H|H]; [try discriminate H; now injection H|]). destruct H.
Qed.

Section Whole.

Variable cfg : Config.

Lemma Within_maybe_build_local usecs job ret :
  Within any_event [throws_client 29] any_file (maybe_build_local cfg usecs job ret).
Proof.
  unfold maybe_build_local. apply Within_bind; [within|intros _].
  destruct (String.eqb _ _); [|within].
  destruct (_ && _); [within|]. cbv zeta.
  apply Within_bind; [within|intros ok]. destruct ok; cbn [negb]; [|within].
  apply Within_bind.
  { apply Within_any_file; intros W; unfold modify; cbn [fst snd].
    - eexists. split; reflexivity.
    - discriminate. }
  intros _. within.
Qed.

Lemma Within_replica_child i job umsg r preproc :
  Within any_event child_ends any_file (replica_child cfg i job umsg r preproc).
Proof.
  unfold replica_child. apply Within_bind; [|intros ret; within].
  apply (Within_catch any_event (session_ends ++ [throws_client 29])).
  - apply Within_bind.
    + widen Within_maybe_build_local.
    + intros [[done job'] ret]. destruct done; cbn [negb]; [within|].
      widen Within_build_remote_int.
  - intros [c w|c w|n|] He; [within|within| |within].
    apply session_int in He as ->. within.
  - intros [c| |s|] Hh; cbn [halt_ending] in *; try in_list.
    exfalso. revert Hh. apply not_in_sound. reflexivity.
Qed.

Lemma Within_fork_loop n i job r preproc st :
  Within any_event (throws_client 1 :: child_ends) any_file
         (fork_loop cfg n i job r preproc st).
Proof.
  revert i st. induction n as [|n IH]; intros i st; cbn [fork_loop]; [within|].
  apply Within_bind.
  { destruct (bool_decide (i = 0)); [within|].
    apply Within_bind; [apply Within_dcc_make_tmpnam|within]. }
  intros job_i. apply Within_bind; [widen Within_get_server|intros umsg].
  apply Within_bind; [within|intros _].
  apply Within_bind; [apply Within_fork; reflexivity|intros pid].
  destruct (pid =? 0)%Z; [|apply IH].
  apply Within_bind; [widen Within_replica_child|within].
Qed.

Lemma Within_wait_loop n jobmap exit_codes :
  Within parent_event [] any_file (wait_loop n jobmap exit_codes).
Proof.
  revert exit_codes. induction n as [|n IH]; intros exit_codes; cbn [wait_loop]; [within|].
  apply Within_bind; [apply Within_wait|intros [[pid status]|]].
  - destruct (WIFSIGNALED status); [within|apply IH].
  - apply Within_bind; [within|intros _; apply IH].
Qed.

Lemma Within_unlink_output has_split_dwarf output :
  Within parent_event [] any_file (unlink_output has_split_dwarf output).
Proof. unfold unlink_output. within. Qed.

Lemma Within_reconcile_loop n i jobs umsgs preproc has_split_dwarf first_md5 exit_codes :
  Within parent_event [] any_file
         (reconcile_loop n i jobs umsgs preproc has_split_dwarf first_md5 exit_codes).
Proof.
  revert i. induction n as [|n IH]; intros i; cbn [reconcile_loop]; [within|]. cbv zeta.
  assert (Hu : Within parent_event [] any_file
                 (unlink_output has_split_dwarf (outputFile (jobs !!! i));;
                  reconcile_loop n (S i) jobs umsgs preproc has_split_dwarf first_md5
                                 exit_codes)).
  { apply Within_bind; [apply Within_unlink_output|intros _; apply IH]. }
  destruct (_ =? 0)%Z; [|exact Hu].
  destruct (_ =? 42)%Z; [apply IH|].
  destruct (negb _).
  { apply Within_bind; [within|intros _].
    apply Within_bind; [apply Within_unlink_output|within]. }
  apply Within_bind; [within|intros other_md5].
  destruct (negb _); [|exact Hu]. within.
Qed.

Lemma Within_misc_cleanup_loop n i jobs has_split_dwarf :
  Within parent_event [] any_file (misc_cleanup_loop n i jobs has_split_dwarf).
Proof.
  revert i. induction n as [|n IH]; intros i; cbn [misc_cleanup_loop]; [within|].
  apply Within_bind; [apply Within_unlink_output|intros _; apply IH].
Qed.

Lemma Within_reconcile torepeat jobs umsgs preproc has_split_dwarf misc_error exit_codes :
  Within parent_event [throws_client 27] any_file
         (reconcile torepeat jobs umsgs preproc has_split_dwarf misc_error exit_codes).
Proof.
  unfold reconcile. apply Within_bind.
  - destruct misc_error; cbn [negb].
    + apply Within_bind; [widen Within_unlink_output|intros _].
      apply Within_bind; [widen Within_misc_cleanup_loop|within].
    + apply Within_bind; [within|intros first_md5]. widen Within_reconcile_loop.
  - intros codes. apply Within_bind; [within|intros _]. destruct misc_error; within.
Qed.

Lemma Within_build_remote job _envs permill :
  Within any_event driver_ends any_file (build_remote cfg job _envs permill).
Proof.
  unfold build_remote. cbv zeta. apply Within_bind; [within|intros torepeat].
  destruct (is_nil _); [within|].
  destruct (bool_decide _).
  - apply Within_bind; [within|intros ok]. destruct ok; cbn [negb]; [|within].
    apply Within_bind; [widen Within_get_server|intros usecs].
    apply Within_bind; [widen Within_maybe_build_local|intros [[done job'] ret]].
    destruct done; cbn [negb]; [within|]. widen Within_build_remote_int.
  - apply Within_bind; [apply Within_dcc_make_tmpnam|intros preproc].
    apply Within_bind; [within|intros _].
    destruct (_ =? -1)%Z; [within|].
    apply Within_bind.
    { apply Within_any_file; intros W; unfold modify; cbn [fst snd].
      - exists []. now rewrite app_nil_r.
      - discriminate. }
    intros _. destruct (negb _); [within|].
    apply Within_bind; [within|intros seed].
    apply Within_bind; [within|intros ok]. destruct ok; cbn [negb]; [|within].
    apply Within_bind; [widen Within_fork_loop|intros st].
    apply Within_bind; [widen Within_wait_loop|intros [misc_error exit_codes]].
    widen Within_reconcile.
Qed.

(** X17: the child of a replica fork never returns into the loop of the
    parent: it ends in [_exit], kills itself after a [std::exception], ends
    in the [exit] or the failed assertion of [build_remote_int], or lets the
    integer 31 of [receive_file] pass, which is no [std::exception]. *)
Theorem replica_child_never_returns (i : nat) (job : CompileJob) (umsg : UseCSMsg)
    (r : ripped) (preproc : string) (W : World) :
  exists x,
    ending_of (replica_child cfg i job umsg r preproc W).1 = Some x /\
    x ∈ [throws_int 31; exits; aborts; kills_itself].
Proof.
  destruct (Within_replica_child i job umsg r preproc W) as (_ & Hend & _).
  revert Hend. unfold replica_child. rewrite bind_run.
  destruct (try_catch _ _ W) as [[ret|e|h] W1]; cbn [fst snd].
  - intros _. exists exits. split; [reflexivity|]. in_list.
  - intros Hend. exists (exn_ending e). split; [reflexivity|]. now apply Hend.
  - intros Hend. exists (halt_ending h). split; [reflexivity|]. now apply Hend.
Qed.

(** X18: a call of [build_remote] that does not return ends in one of
    [driver_ends]: the client errors 0, 1, 2, 4-6, 8-16, 18-27, 29 and 30,
    the remote errors 101 and 102, the integer 31, an [exit], a failed
    assertion or the signal of a replica child to itself; every loop of the
    driver ends. *)
Theorem build_remote_endings (job : CompileJob) (_envs : Environments) (permill : Z)
    (W : World) (x : ending) :
  ending_of (build_remote cfg job _envs permill W).1 = Some x ->
  x ∈ driver_ends.
Proof.
  intros Hx. destruct (Within_build_remote job _envs permill W) as (_ & Hend & _).
  now apply Hend.
Qed.

End Whole.

(** ** The result of the reconciliation *)

(** X19: the reconciliation of the replicas always removes the
    preprocessed file.  It throws client error 27 exactly when a child was
    killed by a signal; otherwise it returns the exit code of slot 0, or -1,
    and -1 only where slot 0 had succeeded. *)
Theorem reconcile_result (torepeat : nat) (jobs : list CompileJob) (umsgs : list UseCSMsg)
    (preproc : string) (has_split_dwarf misc_error : bool) (exit_codes : list Z)
    (W : World) :
  let r := reconcile torepeat jobs umsgs preproc has_split_dwarf misc_error exit_codes W in
  w_fs r.2 !! preproc = None /\
  match r.1 with
  | Ret c =>
      misc_error = false /\
      (c = exit_codes !!! 0%nat \/ (c = (-1)%Z /\ exit_codes !!! 0%nat = 0%Z))
  | Throw e => misc_error = true /\ e = client_error 27 "Error 27 - misc error"
  | Halt _ => False
  end.
Proof.
  cbv zeta. unfold reconcile. destruct misc_error; cbn [negb].
  - rewrite !bind_run.
    destruct (unlink_output_spec has_split_dwarf (outputFile (jobs !!! 0%nat)) W)
      as (W0 & evs0 & -> & _).
    rewrite bind_run.
    destruct (misc_cleanup_loop_spec jobs has_split_dwarf (torepeat - 1) 1 W0)
      as (W1 & evs1 & -> & _).
    rewrite mret_run, bind_run, unlink_run. unfold throw. cbn [fst snd set_fs emit w_fs].
    split; [apply lookup_delete_eq|]. split; reflexivity.
  - rewrite !bind_run, gets_run.
    destruct (reconcile_loop_through jobs umsgs preproc has_split_dwarf (torepeat - 1) 1
                (md5_for_file (w_fs W) (outputFile (jobs !!! 0%nat))) exit_codes W)
      as (W' & [(H0 & ->)|(-> & _)]);
      rewrite bind_run, unlink_run, mret_run; cbn [fst snd set_fs emit w_fs];
      (split; [apply lookup_delete_eq|]); (split; [reflexivity|]).
    + destruct exit_codes as [|c0 rest]; [now left|]. right. split; [reflexivity|exact H0].
    + now left.
Qed.

(** ** The parent of the replicas *)

Section ForklessRules.

Context {A B : Type}.

Lemma Forkless_ret (a : A) : Forkless (mret a : M A).
Proof. intros W. reflexivity. Qed.

Lemma Forkless_bind (m : M A) (k : A -> M B) :
  Forkless m -> (forall a, Forkless (k a)) -> Forkless (m ≫= k).
Proof.
  intros Hm Hk W. rewrite bind_run. specialize (Hm W).
  destruct (m W) as [[a|e|h] W1]; cbn [fst snd] in *; [|assumption..].
  now rewrite Hk.
Qed.

Lemma Forkless_throw (e : exn) : Forkless (throw e : M A).
Proof. intros W. reflexivity. Qed.

End ForklessRules.

Lemma Forkless_modify (f : World -> World) :
  (forall W, w_forks (f W) = w_forks W) -> Forkless (modify f).
Proof. intros Hf W. apply Hf. Qed.

Lemma Forkless_rand : Forkless rand.
Proof. intros W. unfold rand. now destruct (w_rand W). Qed.

Lemma Forkless_send_msg c m : Forkless (send_msg c m).
Proof. intros W. now rewrite send_msg_run. Qed.

Lemma Forkless_dcc_make_tmpnam prefix suffix : Forkless (dcc_make_tmpnam prefix suffix).
Proof. intros W. reflexivity. Qed.

Lemma Forkless_get_server : Forkless get_server.
Proof.
  intros W. unfold get_server. rewrite bind_run. unfold get_msg.
  destruct (chan_inbox (get_chan local_daemon W)) as [|[[]|] rest]; reflexivity.
Qed.

Section ParentRules.

Context {A B : Type} (ends : list ending).

Lemma Parent_within (m : M A) : Within parent_event ends any_file m -> Parent ends m.
Proof. intros Hm W _. destruct (Hm W) as (Ht & Hend & _). now split. Qed.

Lemma Parent_bind (m : M A) (k : A -> M B) :
  Within parent_event ends any_file m -> Forkless m -> (forall a, Parent ends (k a)) ->
  Parent ends (m ≫= k).
Proof.
  intros Hm Hf Hk W Hforks. rewrite bind_run. specialize (Hf W).
  destruct (Hm W) as ((evs & Ht & Hev) & Hend & _).
  destruct (m W) as [[a|e|h] W1]; cbn [fst snd] in *.
  - destruct (Hk a W1) as ((evs' & Ht' & Hev') & Hend'); [now rewrite Hf|].
    split; [|exact Hend'].
    exists (evs ++ evs'). now rewrite Ht', Ht, <- app_assoc, forallb_app, Hev, Hev'.
  - split; [exists evs; auto|assumption].
  - split; [exists evs; auto|assumption].
Qed.

(** Where no fork returns 0, the code after a fork is the parent's. *)
Lemma Parent_fork (k : Z -> M B) :
  (forall pid, pid ≠ 0%Z -> Parent ends (k pid)) -> Parent ends (fork ≫= k).
Proof.
  intros Hk W Hforks. rewrite bind_run. unfold fork at 1 2. cbv zeta. cbn [fst snd].
  set (pid := match w_forks W with [] => (-1)%Z | pid :: _ => pid end).
  assert (Hpid : pid ≠ 0%Z).
  { unfold pid. destruct Hforks; [discriminate|assumption]. }
  destruct (Hk pid Hpid (emit (EvFork pid) (set_forks (tl (w_forks W)) W)))
    as ((evs & Ht & Hev) & Hend).
  { cbn. destruct Hforks; [constructor|assumption]. }
  split; [|exact Hend].
  exists (EvFork pid :: evs). split; [|exact Hev].
  rewrite Ht. cbn. now rewrite <- app_assoc.
Qed.

End ParentRules.

Section ParentDriver.

Variable cfg : Config.

(** The parent leaves the fork loop with the replicas it forked, or with
    error 1 when the scheduler did not name a server. *)
Lemma Parent_fork_loop n i job r preproc st :
  Parent [throws_client 1] (fork_loop cfg n i job r preproc st).
Proof.
  revert i st. induction n as [|n IH]; intros i st; cbn [fork_loop].
  { apply Parent_within. within. }
  apply Parent_bind.
  { destruct (bool_decide (i = 0)); [within|].
    apply Within_bind; [apply Within_dcc_make_tmpnam|within]. }
  { destruct (bool_decide (i = 0)); [apply (Forkless_ret job)|].
    apply Forkless_bind; [apply Forkless_dcc_make_tmpnam|intros b].
    apply (Forkless_ret (setOutputFile b job)). }
  intros job_i. apply Parent_bind; [apply Within_get_server|apply Forkless_get_server|].
  intros umsg. apply Parent_bind; [within|now apply Forkless_modify|].
  intros _. apply Parent_fork. intros pid Hpid.
  apply Z.eqb_neq in Hpid. rewrite Hpid. apply IH.
Qed.

(** X20: in replication mode, the process in which no fork returns 0
    never talks to a compile server and never builds locally: its events
    are the traffic with the local daemon, the log, the preprocessor, the
    forks, the renames and the unlinks, and when it does not return it
    throws client error 0, 1, 10, 22 or 27. *)
Theorem replication_parent (job : CompileJob) (_envs : Environments) (permill : Z)
    (W : World) :
  single_job cfg job permill W = false ->
  Forall (fun pid => pid ≠ 0%Z) (w_forks W) ->
  (exists evs,
     w_trace (build_remote cfg job _envs permill W).2 = w_trace W ++ evs /\
     forallb parent_event evs = true) /\
  (forall x, ending_of (build_remote cfg job _envs permill W).1 = Some x ->
     x ∈ [throws_client 0; throws_client 1; throws_client 10; throws_client 22;
          throws_client 27]).
Proof.
  intros Hsingle Hforks.
  assert (Hrun : exists m,
    build_remote cfg job _envs permill W = m (set_rand (tl (w_rand W)) W) /\
    Parent [throws_client 0; throws_client 1; throws_client 10; throws_client 22;
            throws_client 27] m).
  2: { destruct Hrun as (m & -> & Hm). exact (Hm (set_rand (tl (w_rand W)) W) Hforks). }
  unfold build_remote, single_job in *. rewrite bind_run.
  destruct (gnuc_at_least_3_3 cfg && negb (compiler_is_clang cfg job)
            && negb (streaming job)); cbn [negb orb] in Hsingle; [|discriminate].
  rewrite bind_run, rand_run, mret_run.
  apply negb_false_iff in Hsingle. rewrite Hsingle. cbv zeta beta iota.
  eexists. split; [reflexivity|].
  destruct (is_nil _); [apply Parent_within; within|].
  rewrite bool_decide_eq_false_2 by discriminate.
  apply Parent_bind; [apply Within_dcc_make_tmpnam|apply Forkless_dcc_make_tmpnam|].
  intros preproc. apply Parent_bind; [within|now apply Forkless_modify|].
  intros _. destruct (_ =? -1)%Z; [apply Parent_within; within|].
  apply Parent_bind.
  { apply Within_any_file; intros W'; unfold modify; cbn [fst snd].
    - exists []. now rewrite app_nil_r.
    - discriminate. }
  { now apply Forkless_modify. }
  intros _. destruct (negb _); [apply Parent_within; within|].
  apply Parent_bind; [within|apply Forkless_rand|].
  intros seed. apply Parent_bind; [within|apply Forkless_send_msg|].
  intros ok. destruct ok; cbn [negb]; [|apply Parent_within; within].
  intros W1 Hforks1. rewrite bind_run.
  destruct (Parent_fork_loop 3 0
              (appendFlag ("-frandom-seed=" +:+ dec seed) Arg_Remote job)
              (rip_out_paths _envs ∅) preproc (mk_replicas [] [] ∅) W1 Hforks1)
    as ((evs & Ht & Hev) & Hend).
  destruct (fork_loop _ _ _ _ _ _ _ W1) as [[st|e|h] W2]; cbn [fst snd] in *.
  - assert (Hrest : Within parent_event [throws_client 27] any_file
              ('(misc_error, exit_codes) ←
                 wait_loop 3 (rp_jobmap st) (replicate 3 42%Z);
               reconcile 3 (rp_jobs st) (rp_umsgs st) preproc (dwarfFissionEnabled job)
                         misc_error exit_codes)).
    { apply Within_bind; [widen Within_wait_loop|intros [misc_error exit_codes]].
      apply Within_reconcile. }
    destruct (Hrest W2) as ((evs' & Ht' & Hev') & Hend' & _).
    split.
    + exists (evs ++ evs'). now rewrite Ht', Ht, <- app_assoc, forallb_app, Hev, Hev'.
    + intros x Hx. apply Hend' in Hx. revert Hx. rewrite !elem_of_cons. tauto.
  - split; [exists evs; auto|]. intros x Hx. apply Hend in Hx. revert Hx.
    rewrite !elem_of_cons. tauto.
  - split; [exists evs; auto|]. intros x Hx. apply Hend in Hx. revert Hx.
    rewrite !elem_of_cons. tauto.
Qed.

End ParentDriver.

(** ** The channel to the server is deleted once *)

Lemma deletes_app evs evs' : deletes (evs ++ evs') = deletes evs + deletes evs'.
Proof. unfold deletes. now rewrite omap_app, length_app. Qed.

Lemma connects_app evs evs' : connects (evs ++ evs') = connects evs + connects evs'.
Proof. unfold connects. now rewrite omap_app, length_app. Qed.

Lemma open_events evs :
  forallb open_event evs = true -> connects evs = 0 /\ deletes evs = 0.
Proof.
  induction evs as [|e evs IH]; [done|]. cbn [forallb]. intros [He Hq]%andb_true_iff.
  destruct (IH Hq) as [Hc Hd]. destruct e; try discriminate He; split; assumption.
Qed.

Lemma Closing_within {A} ends F (m : M A) :
  Within open_event ends F m -> Closing (fun _ => 0) m.
Proof.
  intros Hm W. destruct (Hm W) as ((evs & Ht & Hev) & _).
  destruct (open_events evs Hev) as [Hc Hd].
  exists evs. split; [exact Ht|]. split; [exact Hc|]. rewrite Hd. now destruct (m W).1.
Qed.

Lemma Closing_bind {A B} (n : B -> nat) (m : M A) (k : A -> M B) :
  Closing (fun _ => 0) m -> (forall a, Closing n (k a)) -> Closing n (m ≫= k).
Proof.
  intros Hm Hk W. rewrite bind_run. destruct (Hm W) as (evs & Ht & Hc & Hd).
  destruct (m W) as [[a|e|h] W1]; cbn [fst snd] in *; [|exists evs; auto..].
  destruct (Hk a W1) as (evs' & Ht' & Hc' & Hd').
  exists (evs ++ evs'). rewrite Ht', Ht, <- app_assoc, connects_app, deletes_app, Hc, Hc', Hd.
  auto.
Qed.

Lemma Closing_ret {A} (n : A -> nat) (a : A) : n a = 0 -> Closing n (mret a : M A).
Proof.
  intros Hn W. exists []. rewrite mret_run, app_nil_r. cbn [fst snd]. now rewrite Hn.
Qed.

Lemma Closing_delete {A} (n : A -> nat) (a : A) :
  n a = 1 -> Closing n (delete_channel cserver;; mret a).
Proof.
  intros Hn W. exists [EvDelete cserver]. rewrite bind_run. unfold delete_channel, modify.
  rewrite mret_run. cbn [fst snd]. now rewrite Hn.
Qed.

Section Channel.

Variable cfg : Config.

Ltac opened :=
  apply (Closing_within session_ends any_file); first [solve [within]|idtac].

(** [send_source] deletes the channel when it returns the exit code of a
    failed preprocessor, and only then. *)
Lemma Closing_send_source job preproc_file :
  Closing (fun early => match early with Some _ => 1 | None => 0 end)
          (send_source cfg job preproc_file).
Proof.
  unfold send_source. destruct (streaming job).
  { apply Closing_bind; [opened|intros stdin].
    apply Closing_bind; [opened|intros _].
    apply Closing_bind; [opened; widen Within_write_server_cpp|intros _].
    now apply Closing_ret. }
  destruct preproc_file as [preproc_file|].
  { apply Closing_bind; [opened|intros [cpp_fd|]]; [|opened].
    apply Closing_bind; [opened; widen Within_write_server_cpp|intros _].
    now apply Closing_ret. }
  apply Closing_bind; [opened|intros p]. destruct (negb _); [opened|]. cbv zeta.
  apply Closing_bind; [opened|intros _]. destruct (_ =? -1)%Z; [opened|].
  apply Closing_bind.
  { eapply (Closing_within [throws_client 15; throws_client 16; throws_client 23] no_file).
    within. widen Within_write_server_cpp. }
  intros _. destruct (negb _); [now apply Closing_delete|now apply Closing_ret].
Qed.

Lemma Closing_remote_session job hostname version_file got_env preproc_file output :
  Closing (fun _ => 1)
          (remote_session cfg job hostname version_file got_env preproc_file output).
Proof.
  unfold remote_session. apply Closing_bind.
  { destruct got_env; cbn [negb]; unfold when; [opened|].
    opened. widen (Within_transfer_environment job hostname version_file). }
  intros _. apply Closing_bind; [opened|intros p31].
  destruct (negb p31 && ignore_unverified cfg); [opened|].
  apply Closing_bind; [opened|intros ok]. destruct ok; cbn [negb]; [|opened].
  intros W. rewrite bind_run.
  destruct (Closing_send_source job preproc_file W) as (evs & Ht & Hc & Hd).
  destruct (send_source cfg job preproc_file W) as [[[code|]|e|h] W1]; cbn [fst snd] in *;
    [exists evs; rewrite mret_run; auto| |exists evs; auto..].
  assert (Hrest : Closing (fun _ : Z => 1)
            (ok ← send_msg cserver M_END;
             if negb ok then
               log_info "write of end failed";;
               throw (client_error 12 "Error 12 - failed to send file to remote")
             else
               '(status, have_dwo) ← await_result cfg job hostname output;
               when (status =? 0)%Z (receive_artifacts job have_dwo);;
               delete_channel cserver;;
               mret status)).
  { apply Closing_bind; [opened|intros ok]. destruct ok; cbn [negb]; [|opened].
    apply Closing_bind; [opened; widen (Within_await_result cfg job hostname output)|].
    intros [status have_dwo]. apply Closing_bind; [|intros _; now apply Closing_delete].
    destruct (status =? 0)%Z; unfold when; [|opened].
    opened. widen (Within_receive_artifacts job have_dwo). }
  destruct (Hrest W1) as (evs' & Ht' & Hc' & Hd').
  exists (evs ++ evs'). rewrite Ht', Ht, <- app_assoc, connects_app, deletes_app, Hc, Hc', Hd.
  auto.
Qed.

(** X21: [build_remote_int] opens at most one channel to the server, and
    whenever it returns or throws it has deleted the channel as often as it
    has opened one: once after a connection, never after a failed one.
    Only a run that ends the process leaves the channel as it is. *)
Theorem channel_deleted_once (job : CompileJob) (usecs : UseCSMsg)
    (environment version_file : string) (preproc_file : option string) (output : bool)
    (W : World) :
  exists evs,
    w_trace (build_remote_int cfg job usecs environment version_file preproc_file output W).2
    = w_trace W ++ evs /\
    connects evs <= 1 /\
    deletes evs
    = match (build_remote_int cfg job usecs environment version_file preproc_file
                              output W).1 with
      | Halt _ => 0
      | _ => connects evs
      end.
Proof.
  assert (Hrun : exists o W' evs,
    build_remote_int cfg job usecs environment version_file preproc_file output W = (o, W') /\
    w_trace W' = w_trace W ++ evs /\ connects evs <= 1 /\
    deletes evs = match o with Halt _ => 0 | _ => connects evs end).
  2: { destruct Hrun as (o & W' & evs & -> & H). exists evs. exact H. }
  unfold build_remote_int. cbv zeta.
  rewrite bind_run. unfold createChannel. rewrite bind_run, pop_fault_run, bind_run.
  unfold modify at 1. rewrite mret_run.
  set (job' := setEnvironmentVersion environment (setJobID (job_id usecs) job)).
  set (W1 := emit _ (set_faults (tl (w_faults W)) W)).
  destruct (is_ok (hd Fok (w_faults W))) eqn:Hok; cbn [negb].
  2: { rewrite bind_run. unfold log_error. rewrite log_run. unfold throw.
       eexists. eexists. eexists. split; [reflexivity|]. cbn.
       rewrite <- app_assoc. split; [reflexivity|]. cbn. split; [lia|reflexivity]. }
  unfold try_catch.
  destruct (Closing_remote_session job' (hostname usecs) version_file (got_env usecs)
              preproc_file output W1) as (evs & Ht & Hc & Hd).
  destruct (remote_session _ _ _ _ _ _ _ W1) as [[s|e|h] W2]; cbn [fst snd] in *.
  - exists (Ret s), W2, (EvConnect (hostname usecs) (port usecs) 10 true :: evs).
    split; [reflexivity|]. rewrite Ht. cbn [emit w_trace W1]. rewrite <- app_assoc.
    split; [reflexivity|].
    change (EvConnect (hostname usecs) (port usecs) 10 true :: evs)
      with ([EvConnect (hostname usecs) (port usecs) 10 true] ++ evs).
    rewrite connects_app, deletes_app, Hc, Hd. cbn. split; [lia|reflexivity].
  - destruct (handler_spec (A:=Z) e W2) as (evsH & W3 & -> & HtH & HevH & _).
    exists (Throw e), W3,
      ([EvConnect (hostname usecs) (port usecs) 10 true] ++ evs ++ evsH ++ [EvDelete cserver]).
    split; [reflexivity|]. rewrite HtH, Ht. cbn [emit w_trace W1]. rewrite <- !app_assoc.
    split; [reflexivity|].
    rewrite !connects_app, !deletes_app, Hc, Hd.
    assert (Hopen : forallb open_event evsH = true).
    { rewrite forallb_forall in *. intros ev Hev. specialize (HevH ev Hev).
      destruct ev; try reflexivity; discriminate HevH. }
    destruct (open_events evsH Hopen) as [-> ->]. cbn. split; [lia|reflexivity].
  - exists (Halt h), W2, (EvConnect (hostname usecs) (port usecs) 10 true :: evs).
    split; [reflexivity|]. rewrite Ht. cbn [emit w_trace W1]. rewrite <- app_assoc.
    split; [reflexivity|].
    change (EvConnect (hostname usecs) (port usecs) 10 true :: evs)
      with ([EvConnect (hostname usecs) (port usecs) 10 true] ++ evs).
    rewrite connects_app, deletes_app, Hc, Hd. cbn. split; [lia|reflexivity].
Qed.

End Channel.

(** ** The tokenizer of the catalog *)

Lemma append_assoc_str (a b c : string) : (a +:+ b) +:+ c = a +:+ (b +:+ c).
Proof.
  induction a as [|x a IH]; [now rewrite !append_Empty|].
  now rewrite !append_String, IH.
Qed.

Lemma append_Empty_r (a : string) : a +:+ "" = a.
Proof. induction a as [|x a IH]; [apply append_Empty|]. now rewrite append_String, IH. Qed.

(** A search from [pos] skips what lies before [pos]. *)
Lemma find_char_from_skip p a b i pos :
  i + String.length a <= pos ->
  find_char_from p (a +:+ b) i pos = find_char_from p b (i + String.length a) pos.
Proof.
  revert i. induction a as [|c a IH]; intros i Hle.
  - rewrite append_Empty. cbn. now rewrite Nat.add_0_r.
  - cbn in Hle. rewrite append_String. cbn [find_char_from].
    destruct (Nat.leb_spec pos i) as [Hpos|_]; [lia|]. cbn [andb].
    rewrite IH by lia. f_equal. cbn. lia.
Qed.

(** A search for a comma runs through a couple. *)
Lemma find_comma_through x b i pos :
  has_char "," x = false ->
  find_char_from (Ascii.eqb ",") (x +:+ b) i pos
  = find_char_from (Ascii.eqb ",") b (i + String.length x) pos.
Proof.
  revert i. induction x as [|c x IH]; intros i Hx.
  - rewrite append_Empty. cbn. now rewrite Nat.add_0_r.
  - cbn [has_char] in Hx. apply orb_false_elim in Hx as [Hc Hx].
    rewrite append_String. cbn [find_char_from]. rewrite Hc, andb_false_r, IH by exact Hx.
    f_equal. cbn. lia.
Qed.

Lemma find_comma_none x i pos :
  has_char "," x = false -> find_char_from (Ascii.eqb ",") x i pos = None.
Proof.
  intros Hx. rewrite <- (append_Empty_r x), find_comma_through by exact Hx. reflexivity.
Qed.

Lemma selected_couples_end fuel s target prefix dt pos :
  selected_couples fuel s target prefix dt None pos = [].
Proof. now destruct fuel. Qed.

(** The first character of a couple is no comma. *)
Lemma find_not_comma_head x b i pos :
  x ≠ "" -> has_char "," x = false -> pos <= i ->
  find_char_from (fun c => negb (Ascii.eqb "," c)) (x +:+ b) i pos = Some i.
Proof.
  intros Hx Hcomma Hpos. destruct x as [|c x]; [done|]. cbn [has_char] in Hcomma.
  apply orb_false_elim in Hcomma as [Hc _]. rewrite append_String. cbn [find_char_from].
  now rewrite (proj2 (Nat.leb_le _ _)), Hc by lia.
Qed.

(** The loop hands the couples of a list on one by one. *)
Lemma selected_couples_join fuel pre couples target prefix dt :
  couples ≠ [] ->
  Forall (fun c => c ≠ "" /\ has_char "," c = false) couples ->
  length couples <= fuel ->
  selected_couples fuel (pre +:+ join_commas couples) target prefix dt
    (Some (String.length pre))
    (find_first_of "," (Some (String.length pre)) (pre +:+ join_commas couples))
  = omap (select_couple dt target prefix) couples.
Proof.
  revert fuel pre. induction couples as [|x rest IH]; intros fuel pre Hne Hok Hfuel; [done|].
  destruct fuel as [|fuel]; [cbn in Hfuel; lia|].
  apply Forall_cons in Hok as [[Hx Hcomma] Hrest].
  destruct rest as [|x2 rest].
  - (* the last couple *)
    cbn [join_commas].
    assert (Hpos : find_first_of "," (Some (String.length pre)) (pre +:+ x) = None).
    { unfold find_first_of. rewrite find_char_from_skip by (cbn; lia).
      now apply find_comma_none. }
    rewrite Hpos. cbn [selected_couples]. unfold couple_at, substr. rewrite drop_str_app.
    cbn [find_first_not_of find_first_of]. rewrite selected_couples_end.
    cbn [omap list_omap]. unfold select_couple.
    destruct (split_couple target x) as [platform version].
    now destruct (select_version dt prefix version).
  - (* a couple that a comma ends *)
    change (join_commas (x :: x2 :: rest)) with (x +:+ "," +:+ join_commas (x2 :: rest)).
    set (r := join_commas (x2 :: rest)).
    pose proof (Forall_inv Hrest) as [Hx2 Hcomma2]. cbn beta in Hx2, Hcomma2.
    assert (Hr : exists r', r = x2 +:+ r').
    { unfold r. destruct rest; [exists ""; cbn; now rewrite append_Empty_r|].
      eexists. reflexivity. }
    destruct Hr as [r' Hr].
    assert (Hpos : find_first_of "," (Some (String.length pre)) (pre +:+ x +:+ "," +:+ r)
                   = Some (String.length pre + String.length x)).
    { unfold find_first_of. rewrite find_char_from_skip by (cbn; lia).
      rewrite find_comma_through by exact Hcomma.
      change ("," +:+ r) with (String "," r). cbn [find_char_from Nat.add].
      now rewrite (proj2 (Nat.leb_le _ _)) by lia. }
    assert (Hnext : find_first_not_of "," (Some (String.length pre + String.length x))
                      (pre +:+ x +:+ "," +:+ r)
                    = Some (S (String.length pre + String.length x))).
    { unfold find_first_not_of. rewrite <- append_assoc_str.
      rewrite find_char_from_skip by (rewrite append_length; cbn; lia).
      rewrite append_length. cbn [Nat.add].
      change ("," +:+ r) with (String "," r). cbn [find_char_from].
      rewrite Nat.leb_refl. cbn [andb]. rewrite Ascii.eqb_refl. cbn [negb].
      rewrite Hr. apply find_not_comma_head; [exact Hx2|exact Hcomma2|lia]. }
    assert (Hcouple : couple_at (pre +:+ x +:+ "," +:+ r) (String.length pre)
                        (Some (String.length pre + String.length x)) = x).
    { unfold couple_at, substr.
      replace (String.length pre + String.length x - String.length pre)
        with (String.length x) by lia.
      now rewrite drop_str_app, take_str_app. }
    rewrite Hpos. cbn [selected_couples]. rewrite Hcouple, Hnext.
    assert (Hs : pre +:+ x +:+ "," +:+ r = (pre +:+ x +:+ ",") +:+ r)
      by now rewrite !append_assoc_str.
    assert (Hlen : S (String.length pre + String.length x)
                   = String.length (pre +:+ x +:+ ","))
      by (rewrite !append_length; cbn; lia).
    rewrite Hlen, Hs. unfold r.
    rewrite (IH fuel (pre +:+ x +:+ ",")); [|done|exact Hrest|cbn [length] in Hfuel |- *; lia].
    change (omap (select_couple dt target prefix) (x :: x2 :: rest))
      with (match select_couple dt target prefix x with
            | Some y => y :: omap (select_couple dt target prefix) (x2 :: rest)
            | None => omap (select_couple dt target prefix) (x2 :: rest)
            end).
    generalize (omap (select_couple dt target prefix) (x2 :: rest)). intros tail.
    unfold select_couple. destruct (split_couple target x) as [platform version].
    now destruct (select_version dt prefix version).
Qed.

Lemma join_commas_length couples :
  Forall (fun c => c ≠ "" /\ has_char "," c = false) couples ->
  length couples <= String.length (join_commas couples).
Proof.
  induction 1 as [|x rest [Hx _] Hrest IH]; [done|].
  assert (1 <= String.length x) by (destruct x; [done|cbn; lia]).
  destruct rest as [|x2 rest]; [cbn; lia|].
  change (join_commas (x :: x2 :: rest)) with (x +:+ "," +:+ join_commas (x2 :: rest)).
  rewrite !append_length. change (String.length ",") with 1.
  cbn [length] in *. lia.
Qed.

Section Tokenizer.

Variable cfg : Config.

(** X22: when [ICECC_VERSION] is a list of couples separated by single
    commas, none of them empty, [parse_icecc_version] handles the couples
    one by one in the order of the list: each is split at its first colon
    and selected by the prefix, and the selected ones go through the
    duplicate and file checks; the loop ends. *)
Theorem parse_icecc_version_couples (target prefix : string) (couples : list string)
    (W : World) :
  couples ≠ [] ->
  Forall (fun c => c ≠ "" /\ has_char "," c = false) couples ->
  getenv cfg "ICECC_VERSION" = Some (join_commas couples) ->
  let def_targets := bool_decide (is_Some (find "=" (join_commas couples))) in
  let entries := omap (select_couple def_targets target prefix) couples in
  parse_icecc_version cfg target prefix W
  = (Ret (scan_envs (w_fs W) entries []), emits (scan_log (w_fs W) entries []) W).
Proof.
  intros Hne Hok Henv def_targets entries.
  pose proof (join_commas_length couples Hok) as Hlen.
  assert (Hfirst : find_first_not_of "," (Some 0) (join_commas couples) = Some 0).
  { destruct couples as [|x rest]; [done|]. apply Forall_inv in Hok as [Hx Hcomma].
    assert (Hr : exists r, join_commas (x :: rest) = x +:+ r).
    { destruct rest; [exists ""; cbn; now rewrite append_Empty_r|]. eexists. reflexivity. }
    destruct Hr as [r ->]. unfold find_first_not_of.
    apply find_not_comma_head; [exact Hx|exact Hcomma|lia]. }
  unfold parse_icecc_version. rewrite Henv.
  destruct (String.eqb_spec (join_commas couples) "") as [E|_].
  { rewrite E in Hlen. destruct couples; [done|cbn in Hlen; lia]. }
  cbv zeta. rewrite Hfirst.
  rewrite (parse_loop_run _ _ _ _ _ _ _ [] W).
  2: { unfold tok_inv. destruct couples; [done|]. cbn [length] in Hlen.
       repeat split; lia. }
  cbv zeta.
  pose proof (selected_couples_join (S (String.length (join_commas couples))) "" couples
                target prefix def_targets Hne Hok ltac:(lia)) as Hsel.
  rewrite append_Empty in Hsel. change (String.length "") with 0 in Hsel.
  unfold def_targets in Hsel. rewrite Hsel. reflexivity.
Qed.

End Tokenizer.

(** ** The name of the debug-info sidecar *)

Lemma find_last_of_absent c s : has_char c s = false -> find_last_of c s = None.
Proof.
  induction s as [|b s IH]; [reflexivity|]. cbn [has_char find_last_of].
  intros [Hb Hs]%orb_false_elim. rewrite (IH Hs), Ascii.eqb_sym. now rewrite Hb.
Qed.

Lemma find_last_of_last c stem ext :
  has_char c ext = false ->
  find_last_of c (stem +:+ String c ext) = Some (String.length stem).
Proof.
  intros Hext. induction stem as [|b stem IH].
  - rewrite append_Empty. cbn [find_last_of].
    now rewrite (find_last_of_absent c ext Hext), Ascii.eqb_refl.
  - rewrite append_String. cbn [find_last_of]. now rewrite IH.
Qed.

(** X23: the name of the [.dwo] file of an output file: what follows the
    last dot of the path is replaced by [dwo], also when that dot lies in
    the name of a directory, and [.dwo] is appended to a path without a
    dot. *)
Theorem dwo_name_extension (stem ext : string) :
  has_char "." ext = false ->
  dwo_name (stem +:+ "." +:+ ext) = stem +:+ ".dwo" /\
  dwo_name ext = ext +:+ ".dwo".
Proof.
  intros Hext. unfold dwo_name, substr. split.
  - change ("." +:+ ext) with (String "." ext).
    rewrite (find_last_of_last "." stem ext Hext). cbn [drop_str].
    now rewrite take_str_app.
  - now rewrite (find_last_of_absent "." ext Hext).
Qed.

Lemma dwo_name_extension_witness :
  dwo_name ("build" +:+ "." +:+ "d/out") = "build" +:+ ".dwo" /\
  dwo_name "d/out" = "d/out" +:+ ".dwo".
Proof. apply (dwo_name_extension "build" "d/out"). reflexivity. Defined.

(** ** Examples *)

Lemma rip_out_paths_maps_witness :
  (forall v, ("x86_64", v) ∈ env2 (rip_out_paths example_envs ∅)
             <-> version_map (rip_out_paths example_envs ∅) !! "x86_64" = Some v) /\
  (forall path, versionfile_map (rip_out_paths example_envs ∅) !! "x86_64" = Some path
                <-> ("x86_64", path) ∈ example_envs /\ is_Some (archive_version path)) /\
  (forall path v, versionfile_map (rip_out_paths example_envs ∅) !! "x86_64" = Some path ->
                  version_map (rip_out_paths example_envs ∅) !! "x86_64" = Some v ->
                  archive_version path = Some v).
Proof.
  apply (rip_out_paths_maps example_envs "x86_64").
  apply (bool_decide_unpack _). vm_compute. exact I.
Defined.

Lemma md5_for_file_whole_witness :
  md5_for_file divergent_objects "out.o" = hexdigest (list_byte_of_string "A") /\
  forallb lower_hex (list_ascii_of_string (md5_for_file divergent_objects "out.o")) = true.
Proof. apply (md5_for_file_whole divergent_objects "out.o"). reflexivity. Defined.

Lemma build_remote_int_endings_witness : throws_client 2 ∈ session_ends.
Proof.
  apply (build_remote_int_endings plain_cfg example_job refusing_usecs "b" "/tmp/b.tar.bz2"
           None true (refusing_world [Ffail])).
  reflexivity.
Defined.

Lemma build_remote_int_files_witness :
  w_fs (build_remote_int plain_cfg example_job refusing_usecs "b" "/tmp/b.tar.bz2" None true
          failing_server_world).2 !! "/tmp/b.tar.bz2"
  = w_fs failing_server_world !! "/tmp/b.tar.bz2".
Proof.
  apply (build_remote_int_files plain_cfg example_job refusing_usecs "b" "/tmp/b.tar.bz2"
           None true failing_server_world "/tmp/b.tar.bz2").
  apply (bool_decide_unpack _). vm_compute. exact I.
Defined.

Lemma failed_compile_changes_nothing_witness :
  (build_remote_int plain_cfg example_job (example_usecs "10.0.0.2" 10245) "b"
     "/tmp/b.tar.bz2" None true failing_server_world).1 = Ret 1%Z /\
  w_fs (build_remote_int plain_cfg example_job (example_usecs "10.0.0.2" 10245) "b"
          "/tmp/b.tar.bz2" None true failing_server_world).2
  = w_fs failing_server_world.
Proof.
  assert (H : (build_remote_int plain_cfg example_job (example_usecs "10.0.0.2" 10245) "b"
                 "/tmp/b.tar.bz2" None true failing_server_world).1 = Ret 1%Z)
    by (vm_compute; reflexivity).
  split; [exact H|].
  apply (failed_compile_changes_nothing plain_cfg example_job (example_usecs "10.0.0.2" 10245)
           "b" "/tmp/b.tar.bz2" None true failing_server_world 1%Z H).
  discriminate.
Defined.

Lemma unverified_host_gets_no_job_witness :
  exists evs x,
    w_trace (build_remote_int strict_cfg example_job (example_usecs "10.0.0.2" 10245) "b"
               "/tmp/b.tar.bz2" None true old_server_world).2
    = w_trace old_server_world ++ evs /\
    jobs_sent evs = [] /\
    ending_of (build_remote_int strict_cfg example_job (example_usecs "10.0.0.2" 10245) "b"
                 "/tmp/b.tar.bz2" None true old_server_world).1 = Some x /\
    x ∈ [throws_client 2; throws_client 4; throws_client 5; throws_client 6;
         throws_client 8; throws_client 15; throws_client 16; throws_client 22;
         throws_client 23; throws_client 24; throws_client 25; throws_client 26].
Proof.
  apply (unverified_host_gets_no_job strict_cfg example_job (example_usecs "10.0.0.2" 10245)
           "b" "/tmp/b.tar.bz2" None true old_server_world); reflexivity.
Defined.

Lemma build_remote_elsewhere_witness :
  exists getcs W1,
    build_remote plain_cfg example_job example_envs 0 remote_world
    = build_remote_int plain_cfg example_job (example_usecs "10.0.0.2" 10245)
        (map_at (version_map (rip_out_paths example_envs ∅)) "x86_64")
        (map_at (versionfile_map (rip_out_paths example_envs ∅)) "x86_64")
        None true W1 /\
    w_trace W1 = w_trace remote_world
                 ++ [EvSend local_daemon (M_GET_CS getcs) true;
                     EvRecv local_daemon (4 * 60)
                       (Some (M_USE_CS (example_usecs "10.0.0.2" 10245)))] /\
    w_fs W1 = w_fs remote_world /\
    w_remote_daemon W1 = "10.0.0.2".
Proof.
  apply (build_remote_elsewhere plain_cfg example_job example_envs 0
           (example_usecs "10.0.0.2" 10245) [] remote_world);
    first [reflexivity|discriminate].
Defined.

Lemma build_remote_without_archives_witness :
  (build_remote plain_cfg example_job [("x86_64", "/tmp/a.zip")] 0 remote_world).1
  = Throw (client_error 22 "Error 22 - $ICECC_VERSION needs to point to .tar files") /\
  w_trace (build_remote plain_cfg example_job [("x86_64", "/tmp/a.zip")] 0 remote_world).2
  = w_trace remote_world ++ [EvLog Error "$ICECC_VERSION needs to point to .tar files"] /\
  w_fs (build_remote plain_cfg example_job [("x86_64", "/tmp/a.zip")] 0 remote_world).2
  = w_fs remote_world.
Proof.
  apply (build_remote_without_archives plain_cfg example_job [("x86_64", "/tmp/a.zip")] 0
           remote_world).
  reflexivity.
Defined.

Lemma replication_without_preprocessor_witness :
  exists preproc,
    (build_remote failing_cpp_cfg example_job example_envs 1 forking_world).1 = Ret 1%Z /\
    w_trace (build_remote failing_cpp_cfg example_job example_envs 1 forking_world).2
    = w_trace forking_world ++ [EvCallCpp example_job 4243; EvUnlink preproc] /\
    w_fs (build_remote failing_cpp_cfg example_job example_envs 1 forking_world).2 !! preproc
    = None /\
    forall p, p ≠ preproc ->
      w_fs (build_remote failing_cpp_cfg example_job example_envs 1 forking_world).2 !! p
      = w_fs forking_world !! p.
Proof.
  apply (replication_without_preprocessor failing_cpp_cfg example_job example_envs 1
           forking_world); [reflexivity|reflexivity|right; discriminate].
Defined.

Lemma build_remote_endings_witness : throws_client 22 ∈ driver_ends.
Proof.
  apply (build_remote_endings plain_cfg example_job [("x86_64", "/tmp/a.zip")] 0 remote_world).
  reflexivity.
Defined.

Lemma replication_parent_witness :
  (exists evs,
     w_trace (build_remote plain_cfg example_job example_envs 1 forking_world).2
     = w_trace forking_world ++ evs /\
     forallb parent_event evs = true) /\
  (forall x,
     ending_of (build_remote plain_cfg example_job example_envs 1 forking_world).1 = Some x ->
     x ∈ [throws_client 0; throws_client 1; throws_client 10; throws_client 22;
          throws_client 27]).
Proof.
  apply (replication_parent plain_cfg example_job example_envs 1 forking_world).
  - reflexivity.
  - apply (bool_decide_unpack _). vm_compute. exact I.
Defined.

Lemma parse_icecc_version_couples_witness :
  let couples := ["x86:/tmp/b.tar.bz2"; "x86:/tmp/a.zip"] in
  let def_targets := bool_decide (is_Some (find "=" (join_commas couples))) in
  let entries := omap (select_couple def_targets "x86_64" "") couples in
  parse_icecc_version (example_cfg "x86:/tmp/b.tar.bz2,x86:/tmp/a.zip" false) "x86_64" ""
    (example_world two_archives [] [] [])
  = (Ret (scan_envs two_archives entries []),
     emits (scan_log two_archives entries []) (example_world two_archives [] [] [])).
Proof.
  apply (parse_icecc_version_couples
           (example_cfg "x86:/tmp/b.tar.bz2,x86:/tmp/a.zip" false) "x86_64" ""
           ["x86:/tmp/b.tar.bz2"; "x86:/tmp/a.zip"] (example_world two_archives [] [] [])).
  - discriminate.
  - apply (bool_decide_unpack _). vm_compute. exact I.
  - reflexivity.
Defined.
